(** * lightgbm-wasm: the native-resource binding layer

    A shallow embedding of the JavaScript binding layer of
    [@wlearn/lightgbm]: the module loader ([src/wasm.js]), the resource
    handles [Booster] and [Dataset], and the estimator [LGBModel].

    The gradient-boosting engine is opaque: it is a transition function
    from requests to responses over a state the bindings never look at.
    Everything that is proved holds for every such engine. *)

From Stdlib Require Import ZArith QArith Qround List String Bool Lia.
From stdpp Require Import base gmap sets list strings sorting pretty.

#[global] Set Warnings "-clear-no-such-hyp".

Close Scope Q_scope.
Open Scope Z_scope.
Open Scope string_scope.
Open Scope list_scope.

(** ** JavaScript numbers and values *)

(** A finite JavaScript number or NaN.  [Int z] is an integral value,
    [Frac q] a value that is not integral (the representation invariant
    is that [q] is not an integer), [NaN] is not-a-number.  Reading an
    index that a typed array does not have gives [undefined], which every
    comparison and every typed-array store treats like [NaN]; the model
    uses [NaN] for both.  Infinities and the rounding of float32 and
    float64 arithmetic are outside the model. *)
Inductive number : Type :=
| Int (z : Z)
| Frac (q : Q)
| NaN.

Definition toQ (n : number) : option Q :=
  match n with
  | Int z => Some (inject_Z z)
  | Frac q => Some q
  | NaN => None
  end.

(** [a > b] on numbers: false as soon as one side is NaN. *)
Definition num_gt (a b : number) : bool :=
  match toQ a, toQ b with
  | Some x, Some y => negb (Qle_bool x y)
  | _, _ => false
  end.

(** [a >= b] on numbers. *)
Definition num_ge (a b : number) : bool :=
  match toQ a, toQ b with
  | Some x, Some y => Qle_bool y x
  | _, _ => false
  end.

(** SameValueZero, the equality of [Set] and [Map]: NaN equals NaN. *)
Definition same_value_zero (a b : number) : bool :=
  match a, b with
  | Int x, Int y => Z.eqb x y
  | Frac p, Frac q => Qeq_bool p q
  | NaN, NaN => true
  | _, _ => false
  end.

(** [a === b] on numbers: NaN differs from itself. *)
Definition strict_eq (a b : number) : bool :=
  match a, b with
  | NaN, _ | _, NaN => false
  | _, _ => same_value_zero a b
  end.

(** [v !== Math.floor(v)]. *)
Definition not_integer (v : number) : bool :=
  match v with
  | Int _ => false
  | Frac _ | NaN => true
  end.

Definition half : number := Frac (1 # 2).

(** ToInt32 on an integral value: the conversion [new Int32Array(...)]
    applies to each element. *)
Definition wrap32 (z : Z) : Z := (z + 2 ^ 31) mod 2 ^ 32 - 2 ^ 31.

Definition ToInt32 (n : number) : Z :=
  match n with
  | Int z => wrap32 z
  | Frac q => wrap32 (Z.quot (Qnum q) (Zpos (Qden q)))
  | NaN => 0
  end.

(** The values a hyperparameter can hold.  [VNull] stands for [null]
    (and for an explicit [undefined]). *)
Inductive value : Type :=
| VNum (n : number)
| VStr (s : string)
| VBool (b : bool)
| VNull.

(** ToBoolean. *)
Definition truthy (v : value) : bool :=
  match v with
  | VNum (Int z) => negb (Z.eqb z 0)
  | VNum (Frac _) => true
  | VNum NaN => false
  | VStr s => negb (String.eqb s "")
  | VBool b => b
  | VNull => false
  end.

(** [v === 'literal']. *)
Definition is_str (v : value) (s : string) : bool :=
  match v with
  | VStr t => String.eqb t s
  | _ => false
  end.

(** ** The hyperparameter object

    An object with string keys, in insertion order: [Object.entries]
    lists the keys in the order they were first set (no hyperparameter
    is named like an array index). *)
Definition params_t : Type := list (string * value).

Fixpoint get (k : string) (p : params_t) : option value :=
  match p with
  | [] => None
  | (k', v) :: p' => if String.eqb k' k then Some v else get k p'
  end.

Fixpoint set (k : string) (v : value) (p : params_t) : params_t :=
  match p with
  | [] => [(k, v)]
  | (k', v') :: p' =>
      if String.eqb k' k then (k, v) :: p' else (k', v') :: set k v p'
  end.

(** [k in obj]. *)
Definition has_key (k : string) (p : params_t) : bool :=
  match get k p with Some _ => true | None => false end.

(** [obj.k || d]. *)
Definition get_or (k : string) (d : value) (p : params_t) : value :=
  match get k p with
  | Some v => if truthy v then v else d
  | None => d
  end.

(** [!obj.k], with a missing key read as [undefined]. *)
Definition falsy_key (k : string) (p : params_t) : bool :=
  match get k p with
  | Some v => negb (truthy v)
  | None => true
  end.

(** ** Errors *)

Inductive error : Type :=
| EngineNotLoaded
| NativeCallFailure (op : string) (msg : string)
| HandleDisposed (what : string)
| DisposedError
| NotFittedError
| TaskObjectiveConflict
| UnknownTask (task : value)
| LabelNotInteger (v : number) (i : nat)
| LengthMismatch (ylen rows : nat)
| UnsupportedX
| ObjectiveMismatch (obj : value)
| NullDereference
| MissingModelArtifact.

Inductive res (A : Type) : Type :=
| Ok (a : A)
| Err (e : error).
Arguments Ok {A} a.
Arguments Err {A} e.

(** ** A state and exception monad

    A JavaScript method either returns or throws, and what it wrote to
    its objects before throwing stays written. *)
Definition M (St A : Type) : Type := St -> res A * St.

Definition ret {St A} (a : A) : M St A := fun s => (Ok a, s).

Definition throw {St A} (e : error) : M St A := fun s => (Err e, s).

Definition bind {St A B} (m : M St A) (f : A -> M St B) : M St B :=
  fun s =>
    match m s with
    | (Ok a, s') => f a s'
    | (Err e, s') => (Err e, s')
    end.

Definition gets {St A} (f : St -> A) : M St A := fun s => (Ok (f s), s).

Definition modify {St} (f : St -> St) : M St unit := fun s => (Ok tt, f s).

(** [try { m } finally { f }], for a [f] that does not throw. *)
Definition finally {St A} (m : M St A) (f : M St unit) : M St A :=
  fun s =>
    match m s with
    | (r, s') =>
        match f s' with
        | (Ok _, s'') => (r, s'')
        | (Err e, s'') => (Err e, s'')
        end
    end.

(** [for (let i = 0; i < n; i++) m]. *)
Fixpoint repeatM {St A} (n : nat) (m : M St A) : M St unit :=
  match n with
  | O => ret tt
  | S n' => bind m (fun _ => repeatM n' m)
  end.

Notation "'do' x <- c1 ; c2" := (bind c1 (fun x => c2))
  (at level 10, x name, c1 at level 100, c2 at level 200).
Notation "'do' ' pat <- c1 ; c2" :=
  (bind c1 (fun x => match x with pat => c2 end))
  (at level 10, pat pattern, c1 at level 100, c2 at level 200).

(** ** The engine

    One constructor per exported [wl_lgb_*] function.  A pointer argument
    that carries data in is replaced by the data it points to; a pointer
    argument that carries a result out is replaced by a field of the
    response. *)
Inductive request : Type :=
| GetLastError
| DatasetCreateFromMat (data : list number) (nrow ncol : nat) (params : string)
| DatasetSetField (h : Z) (field : string) (vals : list number) (dtype : Z)
| DatasetFree (h : Z)
| BoosterCreate (train : Z) (params : string)
| BoosterUpdate (h : Z)
| BoosterGetNumClasses (h : Z)
| BoosterFree (h : Z)
| BoosterPredict (h : Z) (data : list number) (nrow ncol : nat)
    (predictType numIteration : Z) (params : string)
| BoosterSaveModel (h : Z) (bufLen : Z) (withBuffer : bool)
| BoosterLoadModel (text : string).

(** What a call leaves behind: the status it returns, the 32-bit integer
    it writes through its out-pointer, the doubles it writes to the
    output buffer (their number is the output length it reports), and
    the text it writes or returns (a serialized model without its
    terminator: the length the engine reports is the text's length plus
    one). *)
Record response : Type := {
  status : Z;
  out_i32 : Z;
  out_f64 : list number;
  out_text : string
}.

(** [ret !== 0]. *)
Definition failed (r : response) : bool := negb (Z.eqb (status r) 0).

(** What the bindings run against: the engine, a transition function
    over a state of its own, and the two conversions of the language the
    bindings rely on, [String(v)] in a template literal and the
    conversion of a string to a number in [i < numRound]. *)
Class Runtime : Type := {
  estate : Type;
  estep : estate -> request -> estate * response;
  ToString : value -> string;
  StringToNumber : string -> number
}.

Section Bindings.

Context {R : Runtime}.

(** ** The WASM heap and the loaded module

    [loaded] is whether [wasmModule] is set.  [live] is the set of
    addresses [_malloc] has returned and [_free] has not yet taken back;
    [stray_frees] counts the calls of [_free] on an address that is not
    live.  [calls] is the history of native calls with their responses,
    latest first. *)
Record world : Type := {
  loaded : bool;
  live : gset positive;
  stray_frees : nat;
  eng : estate;
  calls : list (request * response)
}.

Definition getWasm : M world unit :=
  fun w => if loaded w then (Ok tt, w) else (Err EngineNotLoaded, w).

(** [_malloc] returns an address that is not live; the model does not
    let it fail, and does not keep the sizes. *)
Definition malloc (nBytes : nat) : M world positive :=
  fun w =>
    let p := fresh (live w) in
    (Ok p, {| loaded := loaded w; live := {[p]} ∪ live w;
              stray_frees := stray_frees w; eng := eng w;
              calls := calls w |}).

Definition free (p : positive) : M world unit :=
  fun w =>
    if decide (p ∈ live w) then
      (Ok tt, {| loaded := loaded w; live := live w ∖ {[p]};
                 stray_frees := stray_frees w; eng := eng w;
                 calls := calls w |})
    else
      (Ok tt, {| loaded := loaded w; live := live w;
                 stray_frees := S (stray_frees w); eng := eng w;
                 calls := calls w |}).

Definition native (r : request) : M world response :=
  fun w =>
    let (e', resp) := estep (eng w) r in
    (Ok resp, {| loaded := loaded w; live := live w;
                 stray_frees := stray_frees w; eng := e';
                 calls := (r, resp) :: calls w |}).

Definition withCString {A} (str : string) (fn : positive -> M world A)
  : M world A :=
  do ptr <- malloc (S (String.length str));
  finally (fn ptr) (free ptr).

Definition getLastError : M world string :=
  do r <- native GetLastError;
  ret (out_text r).

(** Runs a computation on the heap from a method of an object [O]. *)
Definition lift {O A} (m : M world A) : M (O * world) A :=
  fun s =>
    match m (snd s) with
    | (r, w') => (r, (fst s, w'))
    end.

(** ** Booster *)

(** The private fields [#handle] and [#freed].  [#ptrRef] and the
    FinalizationRegistry mirror [#handle] for a collector whose timing is
    unspecified; they are not modelled. *)
Record Booster : Type := {
  b_handle : option Z;
  b_freed : bool
}.

(** The constructor's load path: the sentinel and a handle. *)
Definition Booster_of_handle (h : Z) : Booster :=
  {| b_handle := Some h; b_freed := false |}.

Definition Booster_new (trainDataHandle : Z) (paramsStr : string)
  : M world Booster :=
  do _ <- getWasm;
  do outPtr <- malloc 4;
  do r <- withCString paramsStr (fun paramsPtr =>
            native (BoosterCreate trainDataHandle paramsStr));
  if failed r then
    do _ <- free outPtr;
    do msg <- getLastError;
    throw (NativeCallFailure "Booster creation" msg)
  else
    do _ <- free outPtr;
    ret {| b_handle := Some (out_i32 r); b_freed := false |}.

(** [get handle()]. *)
Definition Booster_handle (b : Booster) : M world Z :=
  if b_freed b then throw (HandleDisposed "Booster")
  else ret (default 0 (b_handle b)).

Definition Booster_update (b : Booster) : M world bool :=
  do _ <- getWasm;
  do finishedPtr <- malloc 4;
  do h <- Booster_handle b;
  do r <- native (BoosterUpdate h);
  do _ <- free finishedPtr;
  if failed r then
    do msg <- getLastError;
    throw (NativeCallFailure "Booster update" msg)
  else ret (negb (Z.eqb (out_i32 r) 0)).

Definition Booster_getNumClasses (b : Booster) : M world Z :=
  do _ <- getWasm;
  do outPtr <- malloc 4;
  do h <- Booster_handle b;
  do r <- native (BoosterGetNumClasses h);
  do _ <- free outPtr;
  if failed r then
    do msg <- getLastError;
    throw (NativeCallFailure "Booster getNumClasses" msg)
  else ret (out_i32 r).

Definition Booster_predict (b : Booster) (data : list number)
    (nrow ncol : nat) (predictType numIteration : Z)
  : M world (list number) :=
  do _ <- getWasm;
  do dataPtr <- malloc (length data * 4);
  do outLenPtr <- malloc 4;
  do outResultPtr <- malloc (nrow * 100 * 8);
  do r <- withCString "" (fun paramPtr =>
            do h <- Booster_handle b;
            native (BoosterPredict h data nrow ncol
                      predictType numIteration ""));
  do _ <- free dataPtr;
  if failed r then
    do _ <- free outLenPtr;
    do _ <- free outResultPtr;
    do msg <- getLastError;
    throw (NativeCallFailure "Booster predict" msg)
  else
    do _ <- free outLenPtr;
    let result := out_f64 r in
    do _ <- free outResultPtr;
    ret result.

Definition Booster_saveModel (b : Booster) : M world string :=
  do _ <- getWasm;
  do outLenPtr <- malloc 4;
  do h <- Booster_handle b;
  do r1 <- native (BoosterSaveModel h 0 false);
  if failed r1 then
    do _ <- free outLenPtr;
    do msg <- getLastError;
    throw (NativeCallFailure "Booster saveModel (size query)" msg)
  else
    let bufLen := out_i32 r1 in
    do bufPtr <- malloc (Z.to_nat bufLen);
    do h' <- Booster_handle b;
    do r2 <- native (BoosterSaveModel h' bufLen true);
    if failed r2 then
      do _ <- free outLenPtr;
      do _ <- free bufPtr;
      do msg <- getLastError;
      throw (NativeCallFailure "Booster saveModel" msg)
    else
      do _ <- free outLenPtr;
      (* the bytes of the buffer before the terminator *)
      let result := out_text r2 in
      do _ <- free bufPtr;
      ret result.

Definition Booster_loadModel (modelBytes : string) : M world Booster :=
  do _ <- getWasm;
  do bufPtr <- malloc (S (String.length modelBytes));
  do outIterPtr <- malloc 4;
  do outPtr <- malloc 4;
  do r <- native (BoosterLoadModel modelBytes);
  do _ <- free bufPtr;
  do _ <- free outIterPtr;
  if failed r then
    do _ <- free outPtr;
    do msg <- getLastError;
    throw (NativeCallFailure "Booster loadModel" msg)
  else
    let handle := out_i32 r in
    do _ <- free outPtr;
    ret (Booster_of_handle handle).

Definition Booster_dispose : M (Booster * world) unit :=
  do b <- gets fst;
  if b_freed b then ret tt
  else
    do _ <- modify (fun s => ({| b_handle := b_handle (fst s);
                             b_freed := true |}, snd s));
    do _ <- lift getWasm;
    do _r <- lift (native (BoosterFree (default 0 (b_handle b))));
    modify (fun s => ({| b_handle := None;
                         b_freed := b_freed (fst s) |}, snd s)).

(** ** Dataset *)

Record Dataset : Type := {
  d_handle : option Z;
  d_freed : bool
}.

Definition Dataset_new (data : list number) (nrow ncol : nat)
    (params : string) : M world Dataset :=
  do _ <- getWasm;
  do dataPtr <- malloc (length data * 4);
  do outPtr <- malloc 4;
  do r <- withCString params (fun paramsPtr =>
            native (DatasetCreateFromMat data nrow ncol params));
  if failed r then
    do _ <- free dataPtr;
    do _ <- free outPtr;
    do msg <- getLastError;
    throw (NativeCallFailure "Dataset creation" msg)
  else
    do _ <- free dataPtr;
    do _ <- free outPtr;
    ret {| d_handle := Some (out_i32 r); d_freed := false |}.

Definition Dataset_handle (d : Dataset) : M world Z :=
  if d_freed d then throw (HandleDisposed "Dataset")
  else ret (default 0 (d_handle d)).

Definition Dataset_setLabel (d : Dataset) (labels : list number)
  : M world unit :=
  do _ <- getWasm;
  do ptr <- malloc (length labels * 4);
  do r <- withCString "label" (fun fieldPtr =>
            do h <- Dataset_handle d;
            native (DatasetSetField h "label" labels 0));
  do _ <- free ptr;
  if failed r then
    do msg <- getLastError;
    throw (NativeCallFailure "Dataset setLabel" msg)
  else ret tt.

Definition Dataset_dispose : M (Dataset * world) unit :=
  do d <- gets fst;
  if d_freed d then ret tt
  else
    do _ <- modify (fun s => ({| d_handle := d_handle (fst s);
                             d_freed := true |}, snd s));
    do _ <- lift getWasm;
    do _r <- lift (native (DatasetFree (default 0 (d_handle d))));
    modify (fun s => ({| d_handle := None;
                         d_freed := d_freed (fst s) |}, snd s)).

(** ** LGBModel *)

Definition CLASSIFIER_OBJECTIVES : list string :=
  ["binary"; "multiclass"; "multiclassova"; "cross_entropy"].

Definition PROBA_OBJECTIVES : list string :=
  ["binary"; "multiclass"; "multiclassova"].

Definition WLEARN_PARAMS : list string := ["numRound"; "coerce"; "task"].

(** [set.has(v)] for a set of strings: only a string can be a member. *)
Definition has (set : list string) (v : value) : bool :=
  match v with
  | VStr s => existsb (String.eqb s) set
  | _ => false
  end.

(** The private fields.  [#boosterRef] and the leak registry are not
    modelled (see [Booster]). *)
Record LGBModel : Type := {
  booster : option Booster;
  freed : bool;
  params : params_t;
  fitted : bool;
  nrClass : nat;
  classes : option (list Z)
}.

Definition with_booster (b : option Booster) (m : LGBModel) : LGBModel :=
  {| booster := b; freed := freed m; params := params m;
     fitted := fitted m; nrClass := nrClass m; classes := classes m |}.

Definition with_freed (f : bool) (m : LGBModel) : LGBModel :=
  {| booster := booster m; freed := f; params := params m;
     fitted := fitted m; nrClass := nrClass m; classes := classes m |}.

Definition with_params (p : params_t) (m : LGBModel) : LGBModel :=
  {| booster := booster m; freed := freed m; params := p;
     fitted := fitted m; nrClass := nrClass m; classes := classes m |}.

Definition with_fitted (f : bool) (m : LGBModel) : LGBModel :=
  {| booster := booster m; freed := freed m; params := params m;
     fitted := f; nrClass := nrClass m; classes := classes m |}.

Definition with_classes (n : nat) (c : option (list Z)) (m : LGBModel)
  : LGBModel :=
  {| booster := booster m; freed := freed m; params := params m;
     fitted := fitted m; nrClass := n; classes := c |}.

(** The methods of a model run on the model and the WASM module. *)
Definition MM (A : Type) : Type := M (LGBModel * world) A.

Definition this {A} (f : LGBModel -> A) : MM A := gets (fun s => f (fst s)).

Definition update_this (f : LGBModel -> LGBModel) : MM unit :=
  modify (fun s => (f (fst s), snd s)).

Definition liftR {St A} (r : res A) : M St A := fun s => (r, s).

(** Runs a method of a local object and drops the object. *)
Definition with_object {O A} (o : O) (m : M (O * world) A) : M world A :=
  fun w =>
    match m (o, w) with
    | (r, s) => (r, snd s)
    end.

(** The constructor, normal path: [new LGBModel(params)]. *)
Definition LGBModel_new (p : params_t) : LGBModel :=
  {| booster := None; freed := false; params := p; fitted := false;
     nrClass := 0; classes := None |}.

(** The constructor, load path.  [new Int32Array(extra.classes)] applies
    ToInt32 to every element. *)
Definition LGBModel_loaded (b : Booster) (p : params_t) (nc : nat)
    (cls : option (list number)) : LGBModel :=
  {| booster := Some b; freed := false; params := p; fitted := true;
     nrClass := nc; classes := option_map (map ToInt32) cls |}.

(** The shapes of [X] the methods tell apart: an object with a [data]
    field, an array, anything else. *)
Inductive matrix_input : Type :=
| TypedMatrix (data : list number) (rows cols : nat)
| NestedArray (X : list (list number))
| OtherInput.

Definition normalizeX (X : matrix_input) : res (list number * nat * nat) :=
  match X with
  | TypedMatrix data rows cols => Ok (data, rows, cols)
  | NestedArray ((r0 :: _) as X) =>
      let rows := length X in
      let cols := length r0 in
      Ok (flat_map (fun row => map (fun j => nth j row NaN) (seq 0 cols)) X,
          rows, cols)
  | NestedArray [] => Err UnsupportedX
  | OtherInput => Err UnsupportedX
  end.

(** [normalizeY] belongs to [@wlearn/core]; it makes a flat numeric
    vector of [y].  The model takes [y] in that form. *)
Definition normalizeY (y : list number) : list number := y.

Definition ensureNotDisposed : MM unit :=
  do f <- this freed;
  if f then throw DisposedError else ret tt.

Definition ensureFitted : MM unit :=
  do f <- this freed;
  if f then throw DisposedError
  else
    do ft <- this fitted;
    if negb ft then throw NotFittedError else ret tt.

(** [unique.add(v)] on a [Set], kept in insertion order. *)
Definition set_add {A} (eqb : A -> A -> bool) (v : A) (s : list A) : list A :=
  if existsb (eqb v) s then s else s ++ [v].

(** [for (i ...) unique.add(yNorm[i])]. *)
Definition unique_values (yNorm : list number) : list number :=
  fold_left (fun s v => set_add same_value_zero v s) yNorm [].

Definition resolveTask (y : list number) : MM unit :=
  do p <- this params;
  if falsy_key "task" p then ret tt
  else
    let task := get_or "task" VNull p in
    if negb (falsy_key "objective" p) then throw TaskObjectiveConflict
    else if is_str task "classification" then
      let yNorm := normalizeY y in
      let unique := unique_values yNorm in
      if (2 <? length unique)%nat then
        update_this (fun m =>
          with_params
            (set "num_class" (VNum (Int (Z.of_nat (length unique))))
               (set "objective" (VStr "multiclass") (params m))) m)
      else
        update_this (fun m =>
          with_params (set "objective" (VStr "binary") (params m)) m)
    else if is_str task "regression" then
      update_this (fun m =>
        with_params (set "objective" (VStr "regression") (params m)) m)
    else throw (UnknownTask task).

(** The block of [fit] that disposes the previous booster. *)
Definition dispose_previous : MM unit :=
  fun s =>
    match booster (fst s) with
    | None => (Ok tt, s)
    | Some b =>
        match Booster_dispose (b, snd s) with
        | (Ok _, (_, w')) => (Ok tt, (with_booster None (fst s), w'))
        | (Err e, (b', w')) => (Err e, (with_booster (Some b') (fst s), w'))
        end
    end.

(** The first loop of the classifier branch: every label is checked and
    added to [unique]. *)
Fixpoint collect_labels (yNorm : list number) (i : nat) (unique : list Z)
  : res (list Z) :=
  match yNorm with
  | [] => Ok unique
  | Int z :: rest => collect_labels rest (S i) (set_add Z.eqb z unique)
  | v :: _ => Err (LabelNotInteger v i)
  end.

(** [for (i ...) classMap.set(sorted[i], i)]. *)
Fixpoint build_classMap (sorted : list Z) (i : nat) (m : gmap Z nat)
  : gmap Z nat :=
  match sorted with
  | [] => m
  | v :: rest => build_classMap rest (S i) (<[v := i]> m)
  end.

(** [yTrain[i] = classMap.get(yNorm[i])]: a missing key stores NaN. *)
Definition classMap_get (m : gmap Z nat) (v : number) : number :=
  match v with
  | Int z =>
      match m !! z with
      | Some i => Int (Z.of_nat i)
      | None => NaN
      end
  | _ => NaN
  end.

(** ToNumber. *)
Definition ToNumber (v : value) : number :=
  match v with
  | VNum n => n
  | VStr s => StringToNumber s
  | VBool true => Int 1
  | VBool false => Int 0
  | VNull => Int 0
  end.

(** How often the body of [for (let i = 0; i < n; i++)] runs. *)
Definition loop_count (n : number) : nat :=
  match n with
  | Int z => Z.to_nat z
  | Frac q => Z.to_nat (Qceiling q)
  | NaN => O
  end.

(** The engine's parameter object and string. *)
Definition lgbParams_of (p : params_t) (obj : value) (nc : nat) : params_t :=
  let l0 := List.filter (fun kv => negb (existsb (String.eqb (fst kv)) WLEARN_PARAMS)) p in
  let l1 := if has_key "objective" l0 then l0 else set "objective" obj l0 in
  let l2 := if has_key "verbosity" l1 then l1
            else set "verbosity" (VNum (Int (-1))) l1 in
  if (is_str obj "multiclass" || is_str obj "multiclassova")
     && negb (has_key "num_class" l2) && (0 <? nc)%nat
  then set "num_class" (VNum (Int (Z.of_nat nc))) l2
  else l2.

Definition paramStr_of (l : params_t) : string :=
  String.concat " " (map (fun kv => (fst kv ++ "=" ++ ToString (snd kv))%string) l).

(** The blocks of [fit] that create the dataset, create the booster and
    train. *)
Definition train (xData : list number) (rows cols : nat)
    (yTrain : list number) (paramStr : string) (numRound : value)
  : M world Booster :=
  do ds <- Dataset_new xData rows cols paramStr;
  do _ <- Dataset_setLabel ds yTrain;
  do h <- Dataset_handle ds;
  do booster <- Booster_new h paramStr;
  do _ <- repeatM (loop_count (ToNumber numRound)) (Booster_update booster);
  do _ <- with_object ds Dataset_dispose;
  ret booster.

(** The branch of [fit] on the objective: the class count, the class
    list and the labels to train on. *)
Definition encode_labels (obj : value) (yNorm : list number)
  : res (nat * option (list Z) * list number) :=
  if has CLASSIFIER_OBJECTIVES obj then
    match collect_labels yNorm 0 [] with
    | Err e => Err e
    | Ok unique =>
        let sorted := merge_sort Z.le unique in
        let classMap := build_classMap sorted 0 ∅ in
        Ok (length sorted, Some (map wrap32 sorted),
            map (classMap_get classMap) yNorm)
    end
  else Ok (O, None, yNorm).

Definition fit (X : matrix_input) (y : list number) : MM unit :=
  do _ <- ensureNotDisposed;
  do _ <- resolveTask y;
  do _ <- dispose_previous;
  do '(xData, rows, cols) <- liftR (normalizeX X);
  let yNorm := normalizeY y in
  do p <- this params;
  let obj := get_or "objective" (VStr "regression") p in
  do '(nc, cls, yTrain) <- liftR (encode_labels obj yNorm);
  do _ <- update_this (with_classes nc cls);
  if negb (length yTrain =? rows)%nat then
    throw (LengthMismatch (length yTrain) rows)
  else
    let numRound := get_or "numRound" (VNum (Int 100)) p in
    do nrc <- this nrClass;
    let paramStr := paramStr_of (lgbParams_of p obj nrc) in
    do booster <- lift (train xData rows cols yTrain paramStr numRound);
    do _ <- update_this (with_booster (Some booster));
    update_this (with_fitted true).

(** [this.#booster.predict(xData, rows, cols)] with the default options;
    a null [#booster] makes the property access throw. *)
Definition booster_predict (xData : list number) (rows cols : nat)
  : MM (list number) :=
  do b <- this booster;
  match b with
  | None => throw NullDereference
  | Some b => lift (Booster_predict b xData rows cols 0 0)
  end.

(** [rawPreds[k]]. *)
Definition at_index (raw : list number) (k : nat) : number := nth k raw NaN.

(** [result[i] = this.#classes[k]]: a null [#classes] throws, an index the
    array does not have stores NaN. *)
Definition class_at (cls : option (list Z)) (k : nat) : res number :=
  match cls with
  | None => Err NullDereference
  | Some l =>
      match nth_error l k with
      | Some z => Ok (Int z)
      | None => Ok NaN
      end
  end.

(** The inner loop of the multiclass branch of [predict]. *)
Definition argmax (raw : list number) (i nc : nat) : nat :=
  fold_left
    (fun best c =>
       if num_gt (at_index raw (i * nc + c)) (at_index raw (i * nc + best))
       then c else best)
    (seq 1 (nc - 1)) O.

(** [for (let i = 0; i < rows; i++) result[i] = this.#classes[pick i]]. *)
Fixpoint fill_rows (cls : option (list Z)) (pick : nat -> nat)
    (i n : nat) : res (list number) :=
  match n with
  | O => Ok []
  | S n' =>
      match class_at cls (pick i) with
      | Err e => Err e
      | Ok v =>
          match fill_rows cls pick (S i) n' with
          | Err e => Err e
          | Ok vs => Ok (v :: vs)
          end
      end
  end.

Definition threshold (raw : list number) (i : nat) : nat :=
  if num_gt (at_index raw i) half then 1%nat else O.

Definition predict (X : matrix_input) : MM (list number) :=
  do _ <- ensureFitted;
  do '(xData, rows, cols) <- liftR (normalizeX X);
  do rawPreds <- booster_predict xData rows cols;
  do m <- this id;
  let obj := get_or "objective" (VStr "regression") (params m) in
  if negb (has CLASSIFIER_OBJECTIVES obj) then ret rawPreds
  else if is_str obj "binary" then
    liftR (fill_rows (classes m) (threshold rawPreds) 0 rows)
  else if is_str obj "multiclass" || is_str obj "multiclassova" then
    let nc := nrClass m in
    liftR (fill_rows (classes m) (fun i => argmax rawPreds i nc) 0 rows)
  else
    liftR (fill_rows (classes m) (threshold rawPreds) 0 rows).

(** [1 - p1], exact. *)
Definition one_minus (p : number) : number :=
  match p with
  | Int z => Int (1 - z)
  | Frac q => Frac (1 - q)
  | NaN => NaN
  end.

Definition predictProba (X : matrix_input) : MM (list number) :=
  do _ <- ensureFitted;
  do p <- this params;
  let obj := get_or "objective" (VStr "regression") p in
  if negb (has PROBA_OBJECTIVES obj) then throw (ObjectiveMismatch obj)
  else
    do '(xData, rows, cols) <- liftR (normalizeX X);
    do rawPreds <- booster_predict xData rows cols;
    if is_str obj "binary" then
      ret (flat_map (fun i => let p1 := at_index rawPreds i in
                              [one_minus p1; p1]) (seq 0 rows))
    else ret rawPreds.

Definition isClassifier (m : LGBModel) : bool :=
  has CLASSIFIER_OBJECTIVES (get_or "objective" (VStr "regression") (params m)).

(** Arithmetic of [score], exact on the rationals; [None] is NaN. *)
Definition of_Q (o : option Q) : number :=
  match o with
  | None => NaN
  | Some q =>
      let r := Qred q in
      if Pos.eqb (Qden r) 1 then Int (Qnum r) else Frac r
  end.

Definition sumQ (f : nat -> option Q) (n : nat) : option Q :=
  fold_left
    (fun acc i =>
       match acc, f i with
       | Some a, Some x => Some (a + x)%Q
       | _, _ => None
       end)
    (seq 0 n) (Some 0%Q).

Definition r_squared (yArr preds : list number) : number :=
  let n := length yArr in
  let yMean :=
    if (n =? 0)%nat then None
    else match sumQ (fun i => toQ (at_index yArr i)) n with
         | Some s => Some (s / inject_Z (Z.of_nat n))%Q
         | None => None
         end in
  let ssRes :=
    sumQ (fun i =>
            match toQ (at_index yArr i), toQ (at_index preds i) with
            | Some a, Some b => Some ((a - b) * (a - b))%Q
            | _, _ => None
            end) n in
  let ssTot :=
    sumQ (fun i =>
            match toQ (at_index yArr i), yMean with
            | Some a, Some b => Some ((a - b) * (a - b))%Q
            | _, _ => None
            end) n in
  match ssTot with
  | None => NaN
  | Some t =>
      if Qeq_bool t 0 then Int 0
      else match ssRes with
           | Some r => of_Q (Some (1 - r / t)%Q)
           | None => NaN
           end
  end.

Definition accuracy (yArr preds : list number) : number :=
  let correct :=
    length (List.filter (fun i => strict_eq (at_index preds i) (at_index yArr i))
              (seq 0 (length preds))) in
  if (length preds =? 0)%nat then NaN
  else of_Q (Some (inject_Z (Z.of_nat correct)
                   / inject_Z (Z.of_nat (length preds)))%Q).

Definition score (X : matrix_input) (y : list number) : MM number :=
  do preds <- predict X;
  let yArr := normalizeY y in
  do m <- this id;
  if negb (isClassifier m) then ret (r_squared yArr preds)
  else ret (accuracy yArr preds).

(** What [save] hands to [encodeBundle] of [@wlearn/core]: the manifest
    and the blobs. *)
Record bundle : Type := {
  typeId : string;
  manifest_params : params_t;
  meta_nrClass : nat;
  meta_classes : list Z;
  meta_objective : value;
  blobs : list (string * string)
}.

Definition getParams (m : LGBModel) : params_t := params m.

(** [Object.assign(this.#params, p)]. *)
Definition setParams (p : params_t) (m : LGBModel) : LGBModel :=
  with_params (fold_left (fun acc kv => set (fst kv) (snd kv) acc) p (params m)) m.

Definition save : MM bundle :=
  do _ <- ensureFitted;
  do b <- this booster;
  match b with
  | None => throw NullDereference
  | Some b =>
      do modelBytes <- lift (Booster_saveModel b);
      do m <- this id;
      ret {| typeId := if isClassifier m then "wlearn.lightgbm.classifier@1"
                       else "wlearn.lightgbm.regressor@1";
             manifest_params := getParams m;
             meta_nrClass := nrClass m;
             meta_classes := default [] (classes m);
             meta_objective := get_or "objective" (VStr "regression") (params m);
             blobs := [("model", modelBytes)] |}
  end.

(** What [decodeBundle] of [@wlearn/core] hands to [_fromBundle]: the
    manifest, whose fields may be missing, the table of contents and the
    blob region. *)
Record metadata : Type := {
  md_nrClass : option nat;
  md_classes : option (list number)
}.

Record manifest : Type := {
  mf_params : option params_t;
  mf_metadata : option metadata
}.

Record toc_entry : Type := {
  te_id : string;
  te_offset : nat;
  te_length : nat
}.

(** [blobs.subarray(from, to)]: the bytes from [from] up to [to], as far
    as there are any. *)
Definition subarray (blobs : string) (from to : nat) : string :=
  substring from (to - from) blobs.

(** [_fromBundle], after [await loadLGB()]. *)
Definition fromBundle (mf : manifest) (toc : list toc_entry) (blobs : string)
  : M world LGBModel :=
  match find (fun e => String.eqb (te_id e) "model") toc with
  | None => throw MissingModelArtifact
  | Some entry =>
      let raw := subarray blobs (te_offset entry)
                   (te_offset entry + te_length entry) in
      do booster <- Booster_loadModel raw;
      let meta := mf_metadata mf in
      ret (LGBModel_loaded booster
             (default [] (mf_params mf))
             (default O (meta ≫= md_nrClass))
             (meta ≫= md_classes))
  end.

(** The getters [classes], [isFitted], [probaDim] and [capabilities]
    ([nrClass] is the field itself). *)
Definition get_classes (m : LGBModel) : list Z := default [] (classes m).

Definition isFitted (m : LGBModel) : bool := fitted m && negb (freed m).

Definition probaDim (m : LGBModel) : nat :=
  if negb (isFitted m) then O
  else
    let obj := get_or "objective" (VStr "regression") (params m) in
    if is_str obj "binary" then 2%nat
    else if is_str obj "multiclass" || is_str obj "multiclassova"
    then nrClass m
    else O.

Record capabilities_t : Type := {
  classifier : bool;
  regressor : bool;
  cap_predictProba : bool;
  decisionFunction : bool;
  sampleWeight : bool;
  csr : bool;
  earlyStopping : bool
}.

Definition capabilities (m : LGBModel) : capabilities_t :=
  let obj := get_or "objective" (VStr "regression") (params m) in
  let isCls := has CLASSIFIER_OBJECTIVES obj in
  {| classifier := isCls; regressor := negb isCls;
     cap_predictProba := has PROBA_OBJECTIVES obj;
     decisionFunction := false; sampleWeight := false; csr := false;
     earlyStopping := false |}.

Definition dispose : MM unit :=
  do f <- this freed;
  if f then ret tt
  else
    do _ <- update_this (with_freed true);
    do _ <- (fun s =>
           match booster (fst s) with
           | None => (Ok tt, s)
           | Some b =>
               match Booster_dispose (b, snd s) with
               | (r, (b', w')) => (r, (with_booster (Some b') (fst s), w'))
               end
           end);
    do _ <- update_this (with_booster None);
    update_this (with_fitted false).

End Bindings.

(** ** The module loader ([src/wasm.js])

    [loadLGB] is asynchronous: the body of its inner function runs up to
    [await createLightGBM(options)] during the call, and the rest runs
    when that promise settles.  The model is a transition system whose
    events are the calls of [loadLGB] and the settling of the promises
    of [createLightGBM]. *)
Module Loader.

(** The module object made by the n-th call of [createLightGBM]: two
    calls never make the same object. *)
Definition instance : Type := nat.

(** The promise of the inner function: it waits for the instance that
    its call of [createLightGBM] is making, or it has settled. *)
Inductive promise : Type :=
| Pending (i : instance)
| Fulfilled (i : instance)
| Rejected.

(** The module variables [wasmModule] and [loading] ([loading] refers to
    a promise of the store [promises]), and the number of times the
    inner function has been started, each start being one call of
    [createLightGBM]. *)
Record state : Type := {
  wasmModule : option instance;
  loading : option nat;
  promises : list promise;
  created : nat
}.

Definition initial : state :=
  {| wasmModule := None; loading := None; promises := []; created := 0 |}.

(** What the caller of [loadLGB] holds: a promise already fulfilled with
    an instance, or one that follows a promise of the store. *)
Inductive outcome : Type :=
| Now (i : instance)
| Later (p : nat).

Definition loadLGB (s : state) : outcome * state :=
  match wasmModule s with
  | Some m => (Now m, s)
  | None =>
      match loading s with
      | Some p => (Later p, s)
      | None =>
          let p := length (promises s) in
          (Later p,
           {| wasmModule := None; loading := Some p;
              promises := promises s ++ [Pending (created s)];
              created := S (created s) |})
      end
  end.

(** The promise of [createLightGBM] behind promise [p] settles: the inner
    function resumes, assigns [wasmModule] and returns it, or throws. *)
Definition settle (p : nat) (ok : bool) (s : state) : state :=
  match promises s !! p with
  | Some (Pending i) =>
      if ok then
        {| wasmModule := Some i; loading := loading s;
           promises := <[p := Fulfilled i]> (promises s);
           created := created s |}
      else
        {| wasmModule := wasmModule s; loading := loading s;
           promises := <[p := Rejected]> (promises s);
           created := created s |}
  | _ => s
  end.

Definition getWasm (s : state) : res instance :=
  match wasmModule s with
  | Some m => Ok m
  | None => Err EngineNotLoaded
  end.

Inductive event : Type :=
| Load
| Settle (p : nat) (ok : bool).

Definition is_load (e : event) : bool :=
  match e with Load => true | Settle _ _ => false end.

(** Runs the events in order; the outcomes of the calls of [loadLGB] are
    collected latest first. *)
Definition step (acc : list outcome * state) (e : event)
  : list outcome * state :=
  match e with
  | Load => let (o, s') := loadLGB (snd acc) in (o :: fst acc, s')
  | Settle p ok => (fst acc, settle p ok (snd acc))
  end.

Definition run (evs : list event) : list outcome * state :=
  fold_left step evs ([], initial).

(** The instance a caller has received in state [s], if any. *)
Definition delivered (s : state) (o : outcome) : option instance :=
  match o with
  | Now i => Some i
  | Later p =>
      match promises s !! p with
      | Some (Fulfilled i) => Some i
      | _ => None
      end
  end.

End Loader.

(** ** Notions the statements use *)

(** [this.#params.objective || 'regression'] and
    [this.#params.numRound || 100]. *)
Definition objective_of (p : params_t) : value :=
  get_or "objective" (VStr "regression") p.

Definition numRound_of (p : params_t) : value :=
  get_or "numRound" (VNum (Int 100)) p.

(** The calls of [wl_lgb_booster_update] in a history. *)
Definition is_update (c : request * response) : bool :=
  match fst c with
  | BoosterUpdate _ => true
  | _ => false
  end.

Definition updates (l : list (request * response)) : nat :=
  length (List.filter is_update l).

(** Calls that are not an update, calls that do not free a booster. *)
Definition no_update (r : request) : Prop :=
  match r with
  | BoosterUpdate _ => False
  | _ => True
  end.

Definition no_free (r : request) : Prop :=
  match r with
  | BoosterFree _ => False
  | _ => True
  end.

Definition quiet (r : request) : Prop := no_update r /\ no_free r.

(** [grows P w w']: from [w] to [w'] the module stays loaded or not
    loaded, and the history has grown by calls that all satisfy [P].
    [keeps P m]: that is all [m] does to the history. *)
Definition grows {R : Runtime} (P : request -> Prop) (w w' : world) : Prop :=
  loaded w' = loaded w
  /\ exists new, calls w' = new ++ calls w /\ Forall (fun c => P (fst c)) new.

Definition keeps {R : Runtime} (P : request -> Prop) {A} (m : M world A)
  : Prop :=
  forall w, grows P w (snd (m w)).

(** [raises Q m]: every error [m] throws satisfies [Q]. *)
Definition raises {St A} (Q : error -> Prop) (m : M St A) : Prop :=
  forall s e, fst (m s) = Err e -> Q e.

(** The errors of a native failure or of a misuse of a handle. *)
Definition binding_error (e : error) : Prop :=
  e = EngineNotLoaded
  \/ (exists what, e = HandleDisposed what)
  \/ (exists op msg, e = NativeCallFailure op msg).

(** An operation that leaves the scratch allocations as it found them:
    the same addresses are live, and no address was freed that was not
    live. *)
Definition balanced {R : Runtime} {A} (m : M world A) : Prop :=
  forall w, live (snd (m w)) = live w
            /\ stray_frees (snd (m w)) = stray_frees w.

(** The labels a classifier accepts. *)
Definition is_int (v : number) : Prop := exists z, v = Int z.

(** A label that an Int32Array holds as it is. *)
Definition fits_int32 (v : number) : bool :=
  match v with
  | Int z => Z.leb (- 2 ^ 31) z && Z.ltb z (2 ^ 31)
  | _ => true
  end.

(** [classes[k]] stored into a Float64Array. *)
Definition class_value (cls : list Z) (k : nat) : number :=
  match nth_error cls k with
  | Some z => Int z
  | None => NaN
  end.

(** [best] is the index of the maximum of row [i] of [raw], a row of [nc]
    entries, with ties going to the lowest index: no entry of the row is
    greater than the entry at [best], and no entry before [best] is as
    great. *)
Definition first_max (raw : list number) (i nc best : nat) : Prop :=
  (best = O \/ (best < nc)%nat)
  /\ (forall c, (c < nc)%nat ->
        num_gt (at_index raw (i * nc + c)) (at_index raw (i * nc + best)) = false)
  /\ (forall c, (c < best)%nat ->
        num_ge (at_index raw (i * nc + c)) (at_index raw (i * nc + best)) = false).

(** ** Notions for single operations

    What the engine answers to [r] in [w], and [w] after that call: the
    engine has moved on and the history has one more entry; the heap is
    as it was. *)
Definition response_to {R : Runtime} (w : world) (r : request) : response :=
  snd (estep (eng w) r).

Definition after_call {R : Runtime} (w : world) (r : request) : world :=
  {| loaded := loaded w; live := live w; stray_frees := stray_frees w;
     eng := fst (estep (eng w) r);
     calls := (r, response_to w r) :: calls w |}.

(** [one_call op req k m]: in a loaded module [m] makes the native call
    [req] and nothing else if the call reports success, returning [k] of
    the response; if the call reports failure, [m] reads the engine's
    last error message with one more call and throws it under the name
    [op].  Either way the heap ends as it began. *)
Definition one_call {R : Runtime} {A} (op : string) (req : request)
    (k : response -> A) (m : M world A) : Prop :=
  forall w, loaded w = true ->
    let r := response_to w req in
    let w1 := after_call w req in
    m w = if failed r
          then (Err (NativeCallFailure op
                       (out_text (response_to w1 GetLastError))),
                after_call w1 GetLastError)
          else (Ok (k r), w1).

(** Calls that free no handle of the engine, and a successful update of
    the booster with handle [h]. *)
Definition no_release (r : request) : Prop :=
  match r with
  | DatasetFree _ | BoosterFree _ => False
  | _ => True
  end.

Definition update_ok (h : Z) (c : request * response) : Prop :=
  fst c = BoosterUpdate h /\ failed (snd c) = false.

(** The calls of a training that returns, latest first: the dataset is
    created from the matrix and labelled, the booster is created on it
    and updated once per element of [ups], and the dataset is freed. *)
Definition training_calls (xData : list number) (rows cols : nat)
    (yTrain : list number) (ps : string) (rd rl rb rf : response)
    (ups : list (request * response)) : list (request * response) :=
  (DatasetFree (out_i32 rd), rf) :: ups
  ++ [(BoosterCreate (out_i32 rd) ps, rb);
      (DatasetSetField (out_i32 rd) "label" yTrain 0, rl);
      (DatasetCreateFromMat xData rows cols ps, rd)].

(** What the block of [fit] that disposes the previous booster leaves in
    the history and in the module when that booster is not disposed:
    one call that frees its handle, or nothing for a model without a
    booster. *)
Definition previous_release {R : Runtime} (m : LGBModel) (w : world)
  : list (request * response) :=
  match booster m with
  | Some b =>
      [(BoosterFree (default 0 (b_handle b)),
        response_to w (BoosterFree (default 0 (b_handle b))))]
  | None => []
  end.

Definition after_release {R : Runtime} (m : LGBModel) (w : world) : world :=
  match booster m with
  | Some b => after_call w (BoosterFree (default 0 (b_handle b)))
  | None => w
  end.

(** The errors of [fit] about the task shorthand. *)
Definition task_error (e : error) : Prop :=
  e = TaskObjectiveConflict \/ exists t, e = UnknownTask t.

(** The errors of [fit] about the shape of [X] and [y]. *)
Definition input_error (e : error) : Prop :=
  e = UnsupportedX \/ (exists v i, e = LabelNotInteger v i)
  \/ exists n rows, e = LengthMismatch n rows.

(** ** Sequences of calls on one model

    The calls a user can make on a model, and a run of them in order:
    each call leaves the error it threw, if any, and the next call
    starts from the state the previous one left. *)
Inductive call : Type :=
| CallFit (X : matrix_input) (y : list number)
| CallPredict (X : matrix_input)
| CallPredictProba (X : matrix_input)
| CallScore (X : matrix_input) (y : list number)
| CallSave
| CallDispose
| CallSetParams (p : params_t).

Definition thrown {A} (r : res A) : option error :=
  match r with
  | Ok _ => None
  | Err e => Some e
  end.

Definition run_call {R : Runtime} (c : call) (s : LGBModel * world)
  : option error * (LGBModel * world) :=
  match c with
  | CallFit X y => let (r, s') := fit X y s in (thrown r, s')
  | CallPredict X => let (r, s') := predict X s in (thrown r, s')
  | CallPredictProba X => let (r, s') := predictProba X s in (thrown r, s')
  | CallScore X y => let (r, s') := score X y s in (thrown r, s')
  | CallSave => let (r, s') := save s in (thrown r, s')
  | CallDispose => let (r, s') := dispose s in (thrown r, s')
  | CallSetParams p => (None, (setParams p (fst s), snd s))
  end.

Fixpoint run_calls {R : Runtime} (cs : list call) (s : LGBModel * world)
  : list (option error) * (LGBModel * world) :=
  match cs with
  | [] => ([], s)
  | c :: cs' =>
      let (e, s1) := run_call c s in
      let (es, s2) := run_calls cs' s1 in
      (e :: es, s2)
  end.

(** A model in a loaded module whose booster, if it has one, is not
    disposed; and the errors of using the module before it is loaded
    or a handle after it is disposed. *)
Definition sound {R : Runtime} (s : LGBModel * world) : Prop :=
  loaded (snd s) = true
  /\ forall b, booster (fst s) = Some b -> b_freed b = false.

Definition handle_misuse (e : error) : Prop :=
  e = EngineNotLoaded \/ exists what, e = HandleDisposed what.

(** A method that takes a sound state to a sound state, ends with the
    heap as it found it, and throws no misuse error. *)
Definition stays_sound {R : Runtime} {A} (m : MM A) : Prop :=
  forall s, sound s ->
    sound (snd (m s))
    /\ live (snd (snd (m s))) = live (snd s)
    /\ stray_frees (snd (snd (m s))) = stray_frees (snd s)
    /\ forall e, fst (m s) = Err e -> ~ handle_misuse e.

(** ** A scripted engine

    An engine to run the bindings on: every call succeeds, handles are
    numbered from 1, every update reports that training has finished,
    and every prediction returns [raw]. *)
Definition scripted_step (raw : list number) (n : Z) (r : request)
  : Z * response :=
  match r with
  | DatasetCreateFromMat _ _ _ _ | BoosterCreate _ _ | BoosterLoadModel _ =>
      (n + 1, {| status := 0; out_i32 := n + 1; out_f64 := []; out_text := "" |})
  | BoosterUpdate _ =>
      (n, {| status := 0; out_i32 := 1; out_f64 := []; out_text := "" |})
  | BoosterPredict _ _ _ _ _ _ _ =>
      (n, {| status := 0; out_i32 := 0; out_f64 := raw; out_text := "" |})
  | BoosterSaveModel _ _ _ =>
      (n, {| status := 0; out_i32 := 5; out_f64 := []; out_text := "tree" |})
  | _ => (n, {| status := 0; out_i32 := 0; out_f64 := []; out_text := "" |})
  end.

Definition scripted_ToString (v : value) : string :=
  match v with
  | VStr s => s
  | VNum (Int z) => pretty z
  | VNum _ => "NaN"
  | VBool true => "true"
  | VBool false => "false"
  | VNull => "null"
  end.

Definition scripted (raw : list number) : Runtime :=
  {| estate := Z; estep := scripted_step raw;
     ToString := scripted_ToString; StringToNumber := fun _ => NaN |}.

(** The same engine, except that every update fails. *)
Definition failing_step (n : Z) (r : request) : Z * response :=
  match r with
  | BoosterUpdate _ =>
      (n, {| status := -1; out_i32 := 0; out_f64 := []; out_text := "" |})
  | GetLastError =>
      (n, {| status := 0; out_i32 := 0; out_f64 := []; out_text := "boom" |})
  | _ => scripted_step [] n r
  end.

Definition failing : Runtime :=
  {| estate := Z; estep := failing_step;
     ToString := scripted_ToString; StringToNumber := fun _ => NaN |}.

(** The module just loaded: nothing allocated, no call made. *)
Definition fresh_world {R : Runtime} (e : estate) : world :=
  {| loaded := true; live := ∅; stray_frees := 0; eng := e; calls := [] |}.

Definition world0 (raw : list number) : @world (scripted raw) :=
  @fresh_world (scripted raw) 0.

(** ** Sample inputs *)

Definition X4 : matrix_input :=
  NestedArray [[Int 1; Int 2]; [Int 3; Int 4]; [Int 5; Int 6]; [Int 7; Int 8]].

Definition y4 : list number := [Int 3; Int 3; Int 7; Int 7].


Definition raw4 : list number := [Frac (9 # 10); Int 0; Frac (1 # 2); Int 1].


Definition binary3 : LGBModel :=
  LGBModel_new [("objective", VStr "binary"); ("numRound", VNum (Int 3))].

Definition binary_zero_rounds : LGBModel :=
  LGBModel_new [("objective", VStr "binary"); ("numRound", VNum (Int 0))].

Definition classification_task : LGBModel :=
  LGBModel_new [("task", VStr "classification"); ("numRound", VNum (Int 2))].

(** [binary3] after a first [fit], on an engine that predicts nothing and
    on one that predicts [raw4]. *)
Definition binary3_fitted : LGBModel * @world (scripted []) :=
  snd (fit (R := scripted []) X4 y4 (binary3, world0 [])).

Definition binary3_fitted_raw4 : LGBModel * @world (scripted raw4) :=
  snd (fit (R := scripted raw4) X4 y4 (binary3, world0 raw4)).

(** What [save] of [binary3_fitted] hands to the codec, and a decoding
    of it: the manifest, a table of contents with the model behind an
    entry of another name, and the blob region. *)
Definition binary3_bundle : bundle :=
  {| typeId := "wlearn.lightgbm.classifier@1";
     manifest_params := [("objective", VStr "binary");
                         ("numRound", VNum (Int 3))];
     meta_nrClass := 2;
     meta_classes := [3; 7];
     meta_objective := VStr "binary";
     blobs := [("model", "tree")] |}.

Definition binary3_manifest : manifest :=
  {| mf_params := Some (manifest_params binary3_bundle);
     mf_metadata :=
       Some {| md_nrClass := Some (meta_nrClass binary3_bundle);
               md_classes := Some (map Int (meta_classes binary3_bundle)) |} |}.

Definition notes_entry : toc_entry :=
  {| te_id := "notes"; te_offset := 0; te_length := 3 |}.

Definition model_entry : toc_entry :=
  {| te_id := "model"; te_offset := 3; te_length := 4 |}.

Definition blob_region : string := "abctree".

(** A session on one model: a fit, a prediction, a refit that is
    rejected, a prediction on what is left, a change of parameters, a
    save, the disposal and a late fit. *)
Definition session : list call :=
  [CallFit X4 y4; CallPredict X4; CallFit OtherInput y4; CallPredict X4;
   CallSetParams [("numRound", VNum (Int 1))]; CallSave; CallDispose;
   CallFit X4 y4].



(** A booster and a dataset after [dispose]. *)
Definition disposed_booster : Booster := {| b_handle := None; b_freed := true |}.

Definition disposed_dataset : Dataset := {| d_handle := None; d_freed := true |}.

(** * The module loader: one initialization, one instance *)

Section LoaderFacts.
Import Loader.
Local Open Scope nat_scope.

(** What every reachable state of the loader looks like, together with
    the outcomes handed out so far: either nothing has happened, or one
    promise exists, [loading] refers to it, [createLightGBM] has been
    called once, and [wasmModule] is set exactly when that promise is
    fulfilled. *)
Inductive loader_inv : list outcome -> state -> Prop :=
| inv_unloaded : loader_inv [] initial
| inv_started outs pr w :
    outs <> [] ->
    Forall (fun o => o = Later 0 \/ (o = Now 0 /\ w = Some 0%nat)) outs ->
    (pr = Pending 0 /\ w = None) \/ (pr = Fulfilled 0 /\ w = Some 0%nat)
      \/ (pr = Rejected /\ w = None) ->
    loader_inv outs
      {| wasmModule := w; loading := Some 0%nat; promises := [pr];
         created := 1 |}.

Lemma loader_inv_step acc e :
  loader_inv (fst acc) (snd acc) ->
  loader_inv (fst (step acc e)) (snd (step acc e)).
Proof.
  destruct acc as [outs s]; simpl; intros Hinv.
  inversion Hinv as [Ho Hs | outs' pr w Hne Hall Hpr Ho Hs]; subst.
  - destruct e as [|p ok]; simpl.
    + apply inv_started; [discriminate | | auto].
      constructor; [now left | constructor].
    + unfold settle; simpl. constructor.
  - destruct e as [|p ok]; simpl.
    + unfold loadLGB; simpl. destruct w as [i|]; simpl.
      * assert (i = 0%nat) as -> by (destruct Hpr as [[_ ?]|[[_ ?]|[_ ?]]]; congruence).
        apply inv_started; [discriminate | | exact Hpr].
        constructor; [right; auto | exact Hall].
      * apply inv_started; [discriminate | | exact Hpr].
        constructor; [now left | exact Hall].
    + unfold settle; simpl. destruct p as [|p]; simpl.
      * destruct Hpr as [[-> ->]|[[-> ->]|[-> ->]]]; simpl.
        -- destruct ok; simpl.
           ++ apply inv_started; [exact Hne | | auto].
              eapply Forall_impl; [exact Hall|]. simpl.
              intros o [?|[? ?]]; [now left | discriminate].
           ++ apply inv_started; [exact Hne | exact Hall | auto].
        -- apply inv_started; [exact Hne | exact Hall | auto].
        -- apply inv_started; [exact Hne | exact Hall | auto].
      * apply inv_started; assumption.
Qed.

Lemma loader_inv_fold evs acc :
  loader_inv (fst acc) (snd acc) ->
  loader_inv (fst (fold_left step evs acc)) (snd (fold_left step evs acc)).
Proof.
  revert acc. induction evs as [|e evs IH]; intros acc Hinv; simpl.
  - exact Hinv.
  - apply IH, loader_inv_step, Hinv.
Qed.

Lemma loader_inv_run evs : loader_inv (fst (run evs)) (snd (run evs)).
Proof. apply loader_inv_fold. constructor. Qed.




(** Once the initialization has settled, no event changes the loader's
    state, and every call of [loadLGB] has the same outcome. *)
Lemma settled_step acc e :
  loader_inv (fst acc) (snd acc) ->
  wasmModule (snd acc) <> None \/ promises (snd acc) = [Rejected] ->
  snd (step acc e) = snd acc.
Proof.
  destruct acc as [outs s]; simpl; intros Hinv Hs.
  inversion Hinv as [Ho Hs' | outs' pr w Hne Hall Hpr Ho Hs']; subst.
  - destruct Hs as [Hs|Hs]; [now contradiction Hs | discriminate].
  - simpl in Hs.
    assert (Hpr' : (pr = Fulfilled 0 /\ w = Some 0) \/ (pr = Rejected /\ w = None)).
    { destruct Hpr as [[-> ->]|[?|?]]; [| now left | now right].
      destruct Hs as [Hs|Hs]; [now contradiction Hs | discriminate]. }
    destruct e as [|p ok]; simpl.
    + unfold loadLGB; simpl. destruct w; reflexivity.
    + unfold settle; simpl.
      destruct p as [|p]; simpl; [| reflexivity].
      destruct Hpr' as [[-> ->]|[-> ->]]; reflexivity.
Qed.

Lemma settled_fold evs acc :
  loader_inv (fst acc) (snd acc) ->
  wasmModule (snd acc) <> None \/ promises (snd acc) = [Rejected] ->
  snd (fold_left step evs acc) = snd acc
  /\ fst (fold_left step evs acc)
     = repeat (fst (loadLGB (snd acc))) (length (List.filter is_load evs))
         ++ fst acc.
Proof.
  revert acc. induction evs as [|e evs IH]; intros acc Hinv Hs; [now split |].
  simpl fold_left.
  pose proof (settled_step acc e Hinv Hs) as He.
  destruct (IH (step acc e)) as [IH1 IH2].
  { apply loader_inv_step, Hinv. }
  { rewrite He. exact Hs. }
  rewrite IH1, IH2, He. split; [reflexivity |].
  destruct e as [|p ok]; simpl.
  - destruct acc as [outs s]; simpl in *.
    destruct (loadLGB s) as [o s'] eqn:Hl; simpl in *.
    symmetry. rewrite app_comm_cons, repeat_cons, <- app_assoc. reflexivity.
  - reflexivity.
Qed.

Lemma run_app evs1 evs2 : run (evs1 ++ evs2) = fold_left step evs2 (run evs1).
Proof. unfold run. apply fold_left_app. Qed.

(** X1.  A loaded module stays: once [wasmModule] is set, no later call
    of [loadLGB] and no later settling changes the loader's state;
    every later call of [loadLGB] returns that instance at once, without
    calling [createLightGBM]; and [getWasm] returns it. *)
Theorem loader_success_is_final (evs1 evs2 : list event) (i : instance) :
  wasmModule (snd (run evs1)) = Some i ->
  snd (run (evs1 ++ evs2)) = snd (run evs1)
  /\ fst (run (evs1 ++ evs2))
     = repeat (Now i) (length (List.filter is_load evs2)) ++ fst (run evs1)
  /\ created (snd (run (evs1 ++ evs2))) = 1
  /\ getWasm (snd (run (evs1 ++ evs2))) = Ok i.
Proof.
  intros Hw. rewrite run_app.
  destruct (settled_fold evs2 (run evs1) (loader_inv_run evs1)) as [H1 H2].
  { left. congruence. }
  rewrite H1, H2. unfold loadLGB, getWasm. rewrite Hw. simpl.
  repeat split; try reflexivity.
  pose proof (loader_inv_run evs1) as Hinv.
  inversion Hinv as [Ho Hs' | outs' pr w Hne Hall Hpr Ho Hs'].
  - rewrite <- Hs' in Hw. discriminate.
  - reflexivity.
Qed.

Lemma loader_success_is_final_witness :
  let evs1 := [Load; Settle 0 true] in
  let evs2 := [Load; Settle 0 false; Load] in
  wasmModule (snd (run evs1)) = Some 0
  /\ (snd (run (evs1 ++ evs2)) = snd (run evs1)
      /\ fst (run (evs1 ++ evs2))
         = repeat (Now 0) (length (List.filter is_load evs2)) ++ fst (run evs1)
      /\ created (snd (run (evs1 ++ evs2))) = 1
      /\ getWasm (snd (run (evs1 ++ evs2))) = Ok 0).
Proof.
  cbv zeta. split; [reflexivity |].
  apply (loader_success_is_final [Load; Settle 0 true]
           [Load; Settle 0 false; Load] 0).
  reflexivity.
Defined.

(** X2.  A failed initialization is never retried: once the promise of
    the initialization is rejected, no later event changes the loader's
    state; every later call of [loadLGB] returns that same rejected
    promise; [createLightGBM] is not called a second time; no caller
    ever receives an instance; and [getWasm] throws the not-loaded
    error. *)
Theorem loader_failure_is_permanent (evs1 evs2 : list event) :
  promises (snd (run evs1)) = [Rejected] ->
  snd (run (evs1 ++ evs2)) = snd (run evs1)
  /\ fst (run (evs1 ++ evs2))
     = repeat (Later 0) (length (List.filter is_load evs2)) ++ fst (run evs1)
  /\ created (snd (run (evs1 ++ evs2))) = 1
  /\ (forall o, In o (fst (run (evs1 ++ evs2))) ->
        delivered (snd (run (evs1 ++ evs2))) o = None)
  /\ getWasm (snd (run (evs1 ++ evs2))) = Err EngineNotLoaded.
Proof.
  intros Hp. rewrite run_app.
  destruct (settled_fold evs2 (run evs1) (loader_inv_run evs1)) as [H1 H2].
  { now right. }
  rewrite H1, H2.
  pose proof (loader_inv_run evs1) as Hinv.
  destruct (run evs1) as [outs s]; simpl in *.
  inversion Hinv as [Ho Hs' | outs' pr w Hne Hall Hpr Ho Hs']; subst;
    [discriminate |].
  simpl in Hp. injection Hp as ->.
  assert (w = None) as ->.
  { destruct Hpr as [[? ?]|[[? ?]|[? ?]]]; congruence. }
  unfold loadLGB, getWasm; simpl. repeat split; try reflexivity.
  intros o Ho. apply in_app_or in Ho. destruct Ho as [Ho|Ho].
  - apply repeat_spec in Ho. subst o. reflexivity.
  - rewrite Forall_forall in Hall.
    destruct (Hall o) as [->|[_ ?]];
      [apply list_elem_of_In, Ho | reflexivity | discriminate].
Qed.

Lemma loader_failure_is_permanent_witness :
  let evs1 := [Load; Load; Settle 0 false] in
  let evs2 := [Load; Settle 0 true; Load] in
  promises (snd (run evs1)) = [Rejected]
  /\ (snd (run (evs1 ++ evs2)) = snd (run evs1)
      /\ fst (run (evs1 ++ evs2))
         = repeat (Later 0) (length (List.filter is_load evs2))
             ++ fst (run evs1)
      /\ created (snd (run (evs1 ++ evs2))) = 1
      /\ (forall o, In o (fst (run (evs1 ++ evs2))) ->
            delivered (snd (run (evs1 ++ evs2))) o = None)
      /\ getWasm (snd (run (evs1 ++ evs2))) = Err EngineNotLoaded).
Proof.
  cbv zeta. split; [reflexivity |].
  apply (loader_failure_is_permanent [Load; Load; Settle 0 false]
           [Load; Settle 0 true; Load]).
  reflexivity.
Defined.

End LoaderFacts.

(** * The bindings *)

Section BindingFacts.
Context {R : Runtime}.

(** ** Reasoning about the monad *)

Lemma bind_inv {St A B} (m : M St A) (f : A -> M St B) s r s' :
  bind m f s = (r, s') ->
  (exists e, m s = (Err e, s') /\ r = Err e)
  \/ (exists a s1, m s = (Ok a, s1) /\ f a s1 = (r, s')).
Proof.
  unfold bind. destruct (m s) as [[a|e] s1]; intros H.
  - right. eauto.
  - left. inversion H; subst. eauto.
Qed.

Lemma bind_ok_inv {St A B} (m : M St A) (f : A -> M St B) s b s' :
  bind m f s = (Ok b, s') ->
  exists a s1, m s = (Ok a, s1) /\ f a s1 = (Ok b, s').
Proof.
  intros H. apply bind_inv in H as [(e & _ & He)|H]; [discriminate | exact H].
Qed.

Lemma lift_inv {O A} (m : M world A) (o : O) w r s' :
  lift m (o, w) = (r, s') -> exists w', m w = (r, w') /\ s' = (o, w').
Proof.
  unfold lift; simpl. destruct (m w) as [r' w']. intros H.
  inversion H; subst. eauto.
Qed.

(** ** What an operation may add to the history *)

Lemma grows_refl P w : grows P w w.
Proof. split; [reflexivity |]. exists []. split; [reflexivity | constructor]. Qed.

Lemma grows_trans P w1 w2 w3 :
  grows P w1 w2 -> grows P w2 w3 -> grows P w1 w3.
Proof.
  intros [Hl1 (n1 & Hc1 & Hf1)] [Hl2 (n2 & Hc2 & Hf2)].
  split; [congruence |]. exists (n2 ++ n1). split.
  - rewrite Hc2, Hc1. apply app_assoc.
  - apply Forall_app; split; assumption.
Qed.

Lemma grows_weaken (P Q : request -> Prop) w w' :
  (forall r, P r -> Q r) -> grows P w w' -> grows Q w w'.
Proof.
  intros HPQ [Hl (n & Hc & Hf)]. split; [exact Hl |].
  exists n. split; [exact Hc |].
  eapply Forall_impl; [exact Hf |]. intros c; apply HPQ.
Qed.

Lemma keeps_ret P {A} (a : A) : keeps P (ret a).
Proof. intros w. apply grows_refl. Qed.

Lemma keeps_throw P {A} e : keeps P (@throw world A e).
Proof. intros w. apply grows_refl. Qed.

Lemma keeps_bind P {A B} (m : M world A) (f : A -> M world B) :
  keeps P m -> (forall a, keeps P (f a)) -> keeps P (bind m f).
Proof.
  intros Hm Hf w. unfold bind. specialize (Hm w).
  destruct (m w) as [[a|e] w1]; simpl in *.
  - eapply grows_trans; [exact Hm | apply Hf].
  - exact Hm.
Qed.

Lemma keeps_finally P {A} (m : M world A) (f : M world unit) :
  keeps P m -> keeps P f -> keeps P (finally m f).
Proof.
  intros Hm Hf w. unfold finally. specialize (Hm w).
  destruct (m w) as [r w1]; simpl in *. specialize (Hf w1).
  destruct (f w1) as [[u|e] w2]; simpl in *;
    eapply grows_trans; eassumption.
Qed.

Lemma keeps_repeatM P {A} n (m : M world A) :
  keeps P m -> keeps P (repeatM n m).
Proof.
  intros Hm. induction n as [|n IH]; simpl.
  - apply keeps_ret.
  - apply keeps_bind; [exact Hm | intros _; exact IH].
Qed.

Lemma keeps_getWasm P : keeps P getWasm.
Proof. intros w. unfold getWasm. destruct (loaded w); apply grows_refl. Qed.

Lemma keeps_malloc P n : keeps P (malloc n).
Proof.
  intros w. split; [reflexivity |]. exists []. split; [reflexivity | constructor].
Qed.

Lemma keeps_free P p : keeps P (free p).
Proof.
  intros w. unfold free. destruct (decide (p ∈ live w)); simpl;
    (split; [reflexivity |]; exists []; split; [reflexivity | constructor]).
Qed.

Lemma keeps_native (P : request -> Prop) r : P r -> keeps P (native r).
Proof.
  intros HP w. unfold native. destruct (estep (eng w) r) as [e' resp]; simpl.
  split; [reflexivity |]. exists [(r, resp)]. split; [reflexivity |].
  constructor; [exact HP | constructor].
Qed.

Lemma keeps_withCString P {A} str (fn : positive -> M world A) :
  (forall p, keeps P (fn p)) -> keeps P (withCString str fn).
Proof.
  intros Hfn. unfold withCString. apply keeps_bind; [apply keeps_malloc |].
  intros p. apply keeps_finally; [apply Hfn | apply keeps_free].
Qed.

Lemma keeps_getLastError (P : request -> Prop) :
  P GetLastError -> keeps P getLastError.
Proof.
  intros HP. unfold getLastError.
  apply keeps_bind; [apply keeps_native, HP | intros r; apply keeps_ret].
Qed.

Lemma keeps_Booster_handle P b : keeps P (Booster_handle b).
Proof.
  unfold Booster_handle. destruct (b_freed b); [apply keeps_throw | apply keeps_ret].
Qed.

Lemma keeps_Dataset_handle P d : keeps P (Dataset_handle d).
Proof.
  unfold Dataset_handle. destruct (d_freed d); [apply keeps_throw | apply keeps_ret].
Qed.

Ltac keeps_step :=
  match goal with
  | |- keeps _ (bind _ _) => apply keeps_bind; [| intros ?]
  | |- keeps _ (finally _ _) => apply keeps_finally
  | |- keeps _ (ret _) => apply keeps_ret
  | |- keeps _ (throw _) => apply keeps_throw
  | |- keeps _ (malloc _) => apply keeps_malloc
  | |- keeps _ (free _) => apply keeps_free
  | |- keeps _ getWasm => apply keeps_getWasm
  | |- keeps _ (native _) => apply keeps_native
  | |- keeps _ getLastError => apply keeps_getLastError
  | |- keeps _ (withCString _ _) => apply keeps_withCString; intros ?
  | |- keeps _ (repeatM _ _) => apply keeps_repeatM
  | |- keeps _ (Booster_handle _) => apply keeps_Booster_handle
  | |- keeps _ (Dataset_handle _) => apply keeps_Dataset_handle
  | |- keeps _ (if ?c then _ else _) => destruct c
  end.

Ltac keeps_auto := repeat keeps_step; auto.

(** The calls an operation of a dataset or a booster makes. *)
Lemma keeps_Dataset_new (P : request -> Prop) data nrow ncol ps :
  P (DatasetCreateFromMat data nrow ncol ps) -> P GetLastError ->
  keeps P (Dataset_new data nrow ncol ps).
Proof. intros H1 H2. unfold Dataset_new. keeps_auto. Qed.

Lemma keeps_Dataset_setLabel (P : request -> Prop) d labels :
  (forall h, P (DatasetSetField h "label" labels 0)) -> P GetLastError ->
  keeps P (Dataset_setLabel d labels).
Proof. intros H1 H2. unfold Dataset_setLabel. keeps_auto. Qed.

Lemma keeps_Booster_new (P : request -> Prop) h ps :
  P (BoosterCreate h ps) -> P GetLastError -> keeps P (Booster_new h ps).
Proof. intros H1 H2. unfold Booster_new. keeps_auto. Qed.

Lemma keeps_Booster_update (P : request -> Prop) b :
  (forall h, P (BoosterUpdate h)) -> P GetLastError ->
  keeps P (Booster_update b).
Proof. intros H1 H2. unfold Booster_update. keeps_auto. Qed.

Lemma keeps_Booster_predict (P : request -> Prop) b data nrow ncol pt ni :
  (forall h, P (BoosterPredict h data nrow ncol pt ni "")) -> P GetLastError ->
  keeps P (Booster_predict b data nrow ncol pt ni).
Proof. intros H1 H2. unfold Booster_predict. keeps_auto. Qed.

Lemma keeps_Dataset_dispose (P : request -> Prop) d :
  (forall h, P (DatasetFree h)) -> keeps P (with_object d Dataset_dispose).
Proof.
  intros HP w. unfold with_object, Dataset_dispose, bind, gets, modify, lift,
    getWasm, native, ret; simpl.
  destruct (d_freed d); simpl; [apply grows_refl |].
  destruct (loaded w); simpl; [| apply grows_refl].
  destruct (estep (eng w) (DatasetFree (default 0 (d_handle d)))) as [e' resp];
    simpl.
  split; [reflexivity |]. eexists [_]. split; [reflexivity |].
  constructor; [apply HP | constructor].
Qed.

(** ** What an operation may throw *)

Lemma raises_ret {St A} Q (a : A) : raises Q (@ret St A a).
Proof. intros s e H. discriminate. Qed.

Lemma raises_throw {St A} (Q : error -> Prop) e : Q e -> raises Q (@throw St A e).
Proof. intros HQ s e' H. simpl in H. congruence. Qed.

Lemma raises_bind {St A B} Q (m : M St A) (f : A -> M St B) :
  raises Q m -> (forall a, raises Q (f a)) -> raises Q (bind m f).
Proof.
  intros Hm Hf s e. unfold bind. specialize (Hm s).
  destruct (m s) as [[a|e'] s1]; simpl in *.
  - apply Hf.
  - intros H. apply Hm. congruence.
Qed.

Lemma raises_finally {St A} Q (m : M St A) (f : M St unit) :
  raises Q m -> raises Q f -> raises Q (finally m f).
Proof.
  intros Hm Hf s e. unfold finally. specialize (Hm s).
  destruct (m s) as [r s1]; simpl in *. specialize (Hf s1).
  destruct (f s1) as [[u|e'] s2]; simpl in *.
  - exact (Hm e).
  - intros H. apply Hf. congruence.
Qed.

Lemma raises_lift {O A} Q (m : M world A) : raises Q m -> raises Q (@lift R O A m).
Proof.
  intros Hm s e. unfold lift. specialize (Hm (snd s)).
  destruct (m (snd s)) as [r w']; simpl in *. apply Hm.
Qed.

Lemma raises_gets {St A} Q (f : St -> A) : raises Q (gets f).
Proof. intros s e H. discriminate. Qed.

Lemma raises_malloc Q n : raises Q (malloc n).
Proof. intros s e H. discriminate. Qed.

Lemma raises_free Q p : raises Q (free p).
Proof. intros s e. unfold free. destruct (decide (p ∈ live s)); discriminate. Qed.

Lemma raises_native Q r : raises Q (native r).
Proof. intros s e. unfold native. destruct (estep (eng s) r). discriminate. Qed.

Lemma raises_getWasm (Q : error -> Prop) : Q EngineNotLoaded -> raises Q getWasm.
Proof.
  intros HQ s e. unfold getWasm. destruct (loaded s); simpl; congruence.
Qed.

Ltac raises_step :=
  match goal with
  | |- raises _ (bind _ _) => apply raises_bind; [| intros ?]
  | |- raises _ (finally _ _) => apply raises_finally
  | |- raises _ (ret _) => apply raises_ret
  | |- raises _ (throw _) => apply raises_throw
  | |- raises _ (malloc _) => apply raises_malloc
  | |- raises _ (free _) => apply raises_free
  | |- raises _ getWasm => apply raises_getWasm
  | |- raises _ (native _) => apply raises_native
  | |- raises _ (lift _) => apply raises_lift
  | |- raises _ (gets _) => apply raises_gets
  | |- raises _ (this _) => apply raises_gets
  | |- raises _ (if ?c then _ else _) => destruct c
  | |- raises _ (match ?c with _ => _ end) => destruct c
  end.

Lemma raises_Booster_predict b data nrow ncol pt ni :
  raises binding_error (Booster_predict b data nrow ncol pt ni).
Proof.
  unfold Booster_predict, withCString, getLastError, Booster_handle.
  repeat raises_step; unfold binding_error; eauto.
Qed.

Lemma raises_Booster_saveModel b : raises binding_error (Booster_saveModel b).
Proof.
  unfold Booster_saveModel, getLastError, Booster_handle.
  repeat raises_step; unfold binding_error; eauto.
Qed.

(** ** The lifecycle guards *)

Lemma bind_err {St A B} (m : M St A) (f : A -> M St B) s e s' :
  m s = (Err e, s') -> bind m f s = (Err e, s').
Proof. intros H. unfold bind. now rewrite H. Qed.

Lemma bind_ok {St A B} (m : M St A) (f : A -> M St B) s a s1 :
  m s = (Ok a, s1) -> bind m f s = f a s1.
Proof. intros H. unfold bind. now rewrite H. Qed.

Lemma ensureFitted_disposed m w :
  freed m = true -> ensureFitted (m, w) = (Err DisposedError, (m, w)).
Proof.
  intros H. unfold ensureFitted, bind, this, gets; simpl. now rewrite H.
Qed.

Lemma ensureFitted_unfitted m w :
  freed m = false -> fitted m = false ->
  ensureFitted (m, w) = (Err NotFittedError, (m, w)).
Proof.
  intros H1 H2. unfold ensureFitted, bind, this, gets; simpl.
  rewrite H1; simpl. now rewrite H2.
Qed.

Lemma ensureFitted_fitted m w :
  freed m = false -> fitted m = true -> ensureFitted (m, w) = (Ok tt, (m, w)).
Proof.
  intros H1 H2. unfold ensureFitted, bind, this, gets; simpl.
  rewrite H1; simpl. now rewrite H2.
Qed.

Lemma guarded_methods m w X y e :
  ensureFitted (m, w) = (Err e, (m, w)) ->
  predict X (m, w) = (Err e, (m, w))
  /\ predictProba X (m, w) = (Err e, (m, w))
  /\ score X y (m, w) = (Err e, (m, w))
  /\ save (m, w) = (Err e, (m, w)).
Proof.
  intros H.
  assert (Hp : predict X (m, w) = (Err e, (m, w)))
    by (unfold predict; now apply bind_err).
  split; [exact Hp |]. split; [| split].
  - unfold predictProba. now apply bind_err.
  - unfold score. now apply bind_err.
  - unfold save. now apply bind_err.
Qed.

(** C7.  On a disposed model [predict], [predictProba], [score] and
    [save] throw DisposedError, whether or not the model was fitted; on a
    model that is not disposed and not fitted they throw NotFittedError.
    A model that went through [dispose] is disposed, and a model that
    comes from the constructor is neither disposed nor fitted. *)
Theorem lifecycle_guards (m : LGBModel) (w : world) (X : matrix_input)
    (y : list number) :
  (freed m = true ->
     predict X (m, w) = (Err DisposedError, (m, w))
     /\ predictProba X (m, w) = (Err DisposedError, (m, w))
     /\ score X y (m, w) = (Err DisposedError, (m, w))
     /\ save (m, w) = (Err DisposedError, (m, w)))
  /\ (freed m = false -> fitted m = false ->
     predict X (m, w) = (Err NotFittedError, (m, w))
     /\ predictProba X (m, w) = (Err NotFittedError, (m, w))
     /\ score X y (m, w) = (Err NotFittedError, (m, w))
     /\ save (m, w) = (Err NotFittedError, (m, w)))
  /\ freed (fst (snd (dispose (m, w)))) = true
  /\ (forall p, freed (LGBModel_new p) = false
                /\ fitted (LGBModel_new p) = false).
Proof.
  split; [| split; [| split]].
  - intros Hf. apply guarded_methods, ensureFitted_disposed, Hf.
  - intros Hf Hft. apply guarded_methods, ensureFitted_unfitted; assumption.
  - unfold dispose, bind, this, gets, update_this, modify; simpl.
    destruct (freed m) eqn:Hf; simpl; [exact Hf |].
    destruct (booster m) as [b|]; simpl; [| reflexivity].
    destruct (Booster_dispose (b, w)) as [[u|e] [b' w']]; reflexivity.
  - intros p. split; reflexivity.
Qed.

(** ** predictProba and the objective *)

(** C8.  On a fitted model that is not disposed, [predictProba] throws
    the objective-mismatch error exactly when the objective (regression
    when none is set) is none of binary, multiclass and multiclassova;
    it throws it before anything else happens. *)
Theorem predictProba_objective_mismatch (m : LGBModel) (w : world)
    (X : matrix_input) :
  freed m = false -> fitted m = true ->
  let obj := get_or "objective" (VStr "regression") (params m) in
  ((exists o, fst (predictProba X (m, w)) = Err (ObjectiveMismatch o))
   <-> ~ (obj = VStr "binary" \/ obj = VStr "multiclass"
          \/ obj = VStr "multiclassova"))
  /\ (~ (obj = VStr "binary" \/ obj = VStr "multiclass"
         \/ obj = VStr "multiclassova") ->
      predictProba X (m, w) = (Err (ObjectiveMismatch obj), (m, w)))
  /\ (obj = VStr "regression" ->
      predictProba X (m, w) = (Err (ObjectiveMismatch obj), (m, w))).
Proof.
  intros Hf Hft obj.
  assert (Hhas : has PROBA_OBJECTIVES obj = true
                 <-> (obj = VStr "binary" \/ obj = VStr "multiclass"
                      \/ obj = VStr "multiclassova")).
  { unfold has, PROBA_OBJECTIVES. destruct obj as [n|s|b|]; simpl;
      try (split; [discriminate | intros [H|[H|H]]; discriminate]).
    rewrite !orb_true_iff, !String.eqb_eq. split.
    - intros [->|[->|[->|H]]]; auto. discriminate.
    - intros [H|[H|H]]; inversion H; auto. }
  assert (Hmis : has PROBA_OBJECTIVES obj = false ->
                 predictProba X (m, w) = (Err (ObjectiveMismatch obj), (m, w))).
  { intros Hno. unfold predictProba.
    rewrite (bind_ok _ _ _ _ _ (ensureFitted_fitted m w Hf Hft)).
    unfold bind, this, gets; simpl. fold obj. rewrite Hno. reflexivity. }
  split; [split |split].
  - intros [o Ho] Hin. apply Hhas in Hin.
    revert Ho. unfold predictProba.
    rewrite (bind_ok _ _ _ _ _ (ensureFitted_fitted m w Hf Hft)).
    rewrite (bind_ok (this params) _ (m, w) (params m) (m, w) eq_refl).
    fold obj. rewrite Hin. simpl. intros Ho.
    match type of Ho with
    | fst (?c _) = _ =>
        assert (Hr : raises (fun e => e <> ObjectiveMismatch o) c)
    end.
    { apply raises_bind.
      - intros s e. unfold liftR; simpl. destruct X as [d r c|[|r0 X']|];
          simpl; congruence.
      - intros [[xData rows] cols].
        apply raises_bind.
        + unfold booster_predict. apply raises_bind; [apply raises_gets |].
          intros [b|]; [| apply raises_throw; discriminate].
          apply raises_lift. intros s e He.
          apply raises_Booster_predict in He.
          destruct He as [->|[[? ->]|(? & ? & ->)]]; discriminate.
        + intros raw. destruct (is_str obj "binary"); apply raises_ret. }
    exact (Hr _ _ Ho eq_refl).
  - intros Hnot. exists obj. rewrite Hmis; [reflexivity |].
    destruct (has PROBA_OBJECTIVES obj) eqn:E; [| reflexivity].
    exfalso. apply Hnot, Hhas. reflexivity.
  - intros Hnot. apply Hmis.
    destruct (has PROBA_OBJECTIVES obj) eqn:E; [| reflexivity].
    exfalso. apply Hnot, Hhas. reflexivity.
  - intros Hreg. apply Hmis. rewrite Hreg. reflexivity.
Qed.

(** ** Training: the calls of [fit] *)

Ltac quiet_tac :=
  intros; first [exact I | split; exact I].

Lemma updates_app l1 l2 : updates (l1 ++ l2) = (updates l1 + updates l2)%nat.
Proof. unfold updates. rewrite List.filter_app, length_app. reflexivity. Qed.

Lemma updates_no_update new :
  Forall (fun c : request * response => no_update (fst c)) new ->
  updates new = 0%nat.
Proof.
  induction 1 as [|[r resp] l Hr _ IH]; [reflexivity |].
  unfold updates in *; simpl in *. unfold is_update at 1; simpl.
  destruct r; simpl in *; try exact IH. contradiction.
Qed.

Lemma grows_updates w w' :
  grows no_update w w' -> updates (calls w') = updates (calls w).
Proof.
  intros [_ (new & -> & Hnew)]. rewrite updates_app.
  now rewrite (updates_no_update new Hnew).
Qed.

Lemma grows_quiet_update w w' : grows quiet w w' -> grows no_update w w'.
Proof. apply grows_weaken. intros r [H _]; exact H. Qed.

Lemma grows_quiet_free w w' : grows quiet w w' -> grows no_free w w'.
Proof. apply grows_weaken. intros r [_ H]; exact H. Qed.

(** Takes apart an equation between a run of straight-line code and its
    result. *)
Ltac crunch :=
  repeat (simpl in *;
    match goal with
    | H : (_, _) = (_, _) |- _ => inversion H; subst; clear H
    | H : context [match ?x with _ => _ end] |- _ => destruct x eqn:?
    | |- context [match ?x with _ => _ end] => destruct x eqn:?
    end);
  simpl in *.

(** An update on a booster that is not disposed makes one call of
    [wl_lgb_booster_update], whatever the engine answers. *)
Lemma Booster_update_counts b w r w' :
  b_freed b = false -> loaded w = true ->
  Booster_update b w = (r, w') ->
  updates (calls w') = S (updates (calls w))
  /\ (r = Ok true \/ r = Ok false \/ exists msg, r = Err (NativeCallFailure "Booster update" msg)).
Proof.
  intros Hb Hl.
  unfold Booster_update, Booster_handle, getLastError, bind, getWasm, malloc,
    free, native, ret, throw.
  rewrite Hb, Hl. intros H. crunch;
    (split; [reflexivity |]); eauto;
    destruct (out_i32 _ =? 0)%Z; auto.
Qed.

Lemma update_loop n b w r w' :
  b_freed b = false -> loaded w = true ->
  repeatM n (Booster_update b) w = (r, w') ->
  (updates (calls w') <= updates (calls w) + n)%nat
  /\ (r = Ok tt -> updates (calls w') = (updates (calls w) + n)%nat).
Proof.
  intros Hb. revert w. induction n as [|n IH]; intros w Hl H; simpl in H.
  - inversion H; subst. split; [lia | intros _; lia].
  - pose proof (keeps_Booster_update (fun _ => True) b
                  (fun _ => I) I w) as [Hl1 _].
    apply bind_inv in H as [(e & H & ->)|(a & w1 & H & Hrest)].
    + apply (Booster_update_counts b w _ _ Hb Hl) in H as [H _].
      split; [lia | discriminate].
    + rewrite H in Hl1; simpl in Hl1.
      apply (Booster_update_counts b w _ _ Hb Hl) in H as [H _].
      apply IH in Hrest as [H1 H2]; [| congruence].
      split; [lia |]. intros Hr. rewrite (H2 Hr). lia.
Qed.

Lemma Dataset_new_ok data nrow ncol ps w d w' :
  Dataset_new data nrow ncol ps w = (Ok d, w') ->
  loaded w = true /\ d_freed d = false.
Proof.
  unfold Dataset_new, withCString, finally, getLastError, bind, getWasm,
    malloc, free, native, ret, throw.
  intros H. crunch; auto.
Qed.

Lemma Dataset_setLabel_ok d labels w w' :
  Dataset_setLabel d labels w = (Ok tt, w') ->
  exists resp new,
    calls w' = new ++ calls w
    /\ In (DatasetSetField (default 0 (d_handle d)) "label" labels 0, resp) new.
Proof.
  unfold Dataset_setLabel, Dataset_handle, withCString, finally, getLastError,
    bind, getWasm, malloc, free, native, ret, throw.
  intros H. crunch; eexists; eexists [_]; (split; [reflexivity | now left]).
Qed.

Lemma Booster_new_ok h ps w b w' :
  Booster_new h ps w = (Ok b, w') ->
  b_freed b = false
  /\ exists resp new,
       b_handle b = Some (out_i32 resp) /\ failed resp = false
       /\ calls w' = new ++ calls w /\ In (BoosterCreate h ps, resp) new.
Proof.
  unfold Booster_new, withCString, finally, getLastError, bind, getWasm,
    malloc, free, native, ret, throw.
  intros H. crunch; (split; [reflexivity |]);
    eexists; eexists [_]; (repeat split; [eassumption | now left]).
Qed.

(** The training block of [fit]: it frees no booster; it makes at most as
    many updates as the round count says, and exactly as many when it
    returns; and the booster it returns holds the handle that the engine
    gave to this block's call of [wl_lgb_booster_create], for a dataset
    that this block labelled with [yTrain]. *)
Lemma train_spec xData rows cols yTrain ps nr w r w' :
  train xData rows cols yTrain ps nr w = (r, w') ->
  grows no_free w w'
  /\ (updates (calls w') <= updates (calls w) + loop_count (ToNumber nr))%nat
  /\ (forall b, r = Ok b ->
        updates (calls w') = (updates (calls w) + loop_count (ToNumber nr))%nat
        /\ b_freed b = false /\ loaded w = true
        /\ exists ds resp lresp new,
             b_handle b = Some (out_i32 resp) /\ failed resp = false
             /\ calls w' = new ++ calls w
             /\ In (BoosterCreate ds ps, resp) new
             /\ In (DatasetSetField ds "label" yTrain 0, lresp) new).
Proof.
  unfold train. intros H.
  pose proof (keeps_Dataset_new quiet xData rows cols ps
                ltac:(quiet_tac) ltac:(quiet_tac) w) as G1.
  apply bind_inv in H as [(e & H & ->)|(ds & w1 & H & H')];
    rewrite H in G1; simpl in G1.
  { split; [apply grows_quiet_free, G1 |].
    rewrite (grows_updates _ _ (grows_quiet_update _ _ G1)).
    split; [lia | discriminate]. }
  apply Dataset_new_ok in H as [Hl Hds].
  pose proof (keeps_Dataset_setLabel quiet ds yTrain
                ltac:(quiet_tac) ltac:(quiet_tac) w1) as G2.
  apply bind_inv in H' as [(e & H & ->)|([] & w2 & H & H')];
    rewrite H in G2; simpl in G2;
    pose proof (grows_trans _ _ _ _ G1 G2) as G12.
  { split; [apply grows_quiet_free, G12 |].
    rewrite (grows_updates _ _ (grows_quiet_update _ _ G12)).
    split; [lia | discriminate]. }
  apply Dataset_setLabel_ok in H as (lresp & newl & Hcl & Hinl).
  unfold Dataset_handle in H'. rewrite Hds in H'.
  apply bind_inv in H' as [(e & H & _)|(h & w2' & H & H')]; [discriminate |].
  inversion H; subst h w2'; clear H.
  pose proof (keeps_Booster_new quiet (default 0 (d_handle ds)) ps
                ltac:(quiet_tac) ltac:(quiet_tac) w2) as G3.
  apply bind_inv in H' as [(e & H & ->)|(b & w3 & H & H')];
    rewrite H in G3; simpl in G3;
    pose proof (grows_trans _ _ _ _ G12 G3) as G13.
  { split; [apply grows_quiet_free, G13 |].
    rewrite (grows_updates _ _ (grows_quiet_update _ _ G13)).
    split; [lia | discriminate]. }
  apply Booster_new_ok in H as (Hb & resp & newb & Hh & Hok & Hcb & Hinb).
  assert (Hl3 : loaded w3 = true) by (destruct G13 as [-> _]; exact Hl).
  pose proof (keeps_repeatM no_free (loop_count (ToNumber nr))
                (Booster_update b)
                (keeps_Booster_update no_free b (fun _ => I) I) w3) as G4.
  assert (U13 := grows_updates _ _ (grows_quiet_update _ _ G13)).
  apply grows_quiet_free in G13.
  apply bind_inv in H' as [(e & H & ->)|([] & w4 & H & H')];
    rewrite H in G4; simpl in G4;
    pose proof (grows_trans _ _ _ _ G13 G4) as G14;
    apply (update_loop _ _ _ _ _ Hb Hl3) in H as [Hle Heq].
  { split; [exact G14 |]. split; [lia | discriminate]. }
  specialize (Heq eq_refl).
  pose proof (keeps_Dataset_dispose quiet ds ltac:(quiet_tac) w4) as G5.
  apply bind_inv in H' as [(e & H & ->)|([] & w5 & H & H')];
    rewrite H in G5; simpl in G5;
    pose proof (grows_trans _ _ _ _ G14 (grows_quiet_free _ _ G5)) as G15;
    pose proof (grows_updates _ _ (grows_quiet_update _ _ G5)) as U5.
  { split; [exact G15 |]. split; [lia | discriminate]. }
  inversion H'; subst r w'; clear H'.
  split; [exact G15 |]. split; [lia |].
  intros b' Hb'. inversion Hb'; subst b'; clear Hb'.
  split; [lia |]. split; [exact Hb |]. split; [exact Hl |].
  exists (default 0 (d_handle ds)), resp, lresp.
  destruct G1 as [_ (n1 & Hc1 & _)].
  destruct G3 as [_ (n3 & Hc3 & _)].
  destruct G4 as [_ (n4 & Hc4 & _)].
  destruct G5 as [_ (n5 & Hc5 & _)].
  exists (n5 ++ n4 ++ newb ++ newl ++ n1).
  split; [exact Hh |]. split; [exact Hok |]. split.
  - rewrite Hc5, Hc4, Hcb, Hcl, Hc1. now rewrite <- !app_assoc.
  - split; repeat (apply in_or_app; first [now left | right]);
      try assumption.
Qed.

(** ** The steps of [fit] before training *)

Lemma get_set_eq k v p : get k (set k v p) = Some v.
Proof.
  induction p as [|[k' v'] p IH]; simpl.
  - now rewrite String.eqb_refl.
  - destruct (String.eqb k' k) eqn:E; simpl.
    + now rewrite String.eqb_refl.
    + now rewrite E.
Qed.

Lemma get_set_ne k k' v p : k <> k' -> get k' (set k v p) = get k' p.
Proof.
  intros Hne. induction p as [|[k'' v''] p IH]; simpl.
  - destruct (String.eqb k k') eqn:E; [| reflexivity].
    apply String.eqb_eq in E. contradiction.
  - destruct (String.eqb k'' k) eqn:E; simpl.
    + apply String.eqb_eq in E; subst k''.
      destruct (String.eqb k k') eqn:E'; [| reflexivity].
      apply String.eqb_eq in E'. contradiction.
    + destruct (String.eqb k'' k'); [reflexivity | exact IH].
Qed.

Lemma ensureNotDisposed_inv m w r s' :
  ensureNotDisposed (m, w) = (r, s') ->
  s' = (m, w)
  /\ ((freed m = false /\ r = Ok tt) \/ (freed m = true /\ r = Err DisposedError)).
Proof.
  unfold ensureNotDisposed, bind, this, gets; simpl.
  destruct (freed m); simpl; intros H; inversion H; auto.
Qed.

(** [resolveTask] touches nothing but the hyperparameters, and of those
    only [objective] and [num_class]. *)
Lemma resolveTask_frame y m w r s' :
  resolveTask y (m, w) = (r, s') ->
  snd s' = w
  /\ booster (fst s') = booster m /\ freed (fst s') = freed m
  /\ fitted (fst s') = fitted m
  /\ (forall k, k <> "objective" -> k <> "num_class" ->
        get k (params (fst s')) = get k (params m)).
Proof.
  unfold resolveTask, bind, this, gets, update_this, modify, throw, ret; simpl.
  intros H.
  repeat match type of H with
         | context [if ?c then _ else _] => destruct c
         end;
    inversion H; subst; simpl; repeat split; auto; intros k H1 H2;
    rewrite ?get_set_ne by congruence; reflexivity.
Qed.

Lemma with_booster_None m : booster m = None -> with_booster None m = m.
Proof. destruct m; simpl; intros ->; reflexivity. Qed.

(** Disposing the previous booster: no update is made; a model without a
    booster is left alone; a model with a live booster loses it, and the
    one call made frees that booster's handle. *)
Lemma dispose_previous_spec m w r s' :
  dispose_previous (m, w) = (r, s') ->
  grows no_update w (snd s')
  /\ (r = Ok tt ->
      fst s' = with_booster None m
      /\ (booster m = None -> snd s' = w)
      /\ (forall b h, booster m = Some b -> b_freed b = false ->
            b_handle b = Some h ->
            loaded w = true
            /\ live (snd s') = live w
            /\ exists resp, calls (snd s') = (BoosterFree h, resp) :: calls w)).
Proof.
  unfold dispose_previous; simpl.
  destruct (booster m) as [b|] eqn:Hb.
  - unfold Booster_dispose, bind, gets, modify, lift, getWasm, native, ret;
      simpl.
    destruct (b_freed b) eqn:Hf; simpl.
    + intros H; inversion H; subst; simpl. split; [apply grows_refl |].
      intros _. split; [reflexivity |]. split; [discriminate |].
      intros b' h Hb'. inversion Hb'; subst b'. congruence.
    + destruct (loaded w) eqn:Hl; simpl.
      * destruct (estep (eng w) (BoosterFree (default 0 (b_handle b))))
          as [e' resp] eqn:He; simpl.
        intros H; inversion H; subst; simpl. split.
        -- split; [reflexivity |]. eexists [_]. split; [reflexivity |].
           constructor; [exact I | constructor].
        -- intros _. split; [reflexivity |]. split; [discriminate |].
           intros b' h Hb' _ Hh. inversion Hb'; subst b'.
           rewrite Hh. simpl. eauto.
      * intros H; inversion H; subst; simpl. split; [apply grows_refl |].
        discriminate.
  - intros H; inversion H; subst; simpl. split; [apply grows_refl |].
    intros _. split; [symmetry; now apply with_booster_None |].
    split; [reflexivity | discriminate].
Qed.

(** What a call of [fit] that returns has done, step by step. *)
Lemma fit_ok_inv X y m w s' :
  fit X y (m, w) = (Ok tt, s') ->
  freed m = false
  /\ exists m1 w1 xData rows cols nc cls yTrain bst w2,
       resolveTask y (m, w) = (Ok tt, (m1, w))
       /\ dispose_previous (m1, w) = (Ok tt, (with_booster None m1, w1))
       /\ normalizeX X = Ok (xData, rows, cols)
       /\ encode_labels (objective_of (params m1)) y = Ok (nc, cls, yTrain)
       /\ length yTrain = rows
       /\ train xData rows cols yTrain
            (paramStr_of (lgbParams_of (params m1)
                            (objective_of (params m1)) nc))
            (numRound_of (params m1)) w1 = (Ok bst, w2)
       /\ s' = (with_fitted true
                  (with_booster (Some bst)
                     (with_classes nc cls (with_booster None m1))), w2).
Proof.
  unfold fit. intros H.
  apply bind_ok_inv in H as ([] & s1 & H1 & H).
  apply ensureNotDisposed_inv in H1 as [-> [[Hf _]|[_ ?]]]; [| discriminate].
  split; [exact Hf |].
  apply bind_ok_inv in H as ([] & [m1 w0] & H2 & H).
  pose proof (resolveTask_frame _ _ _ _ _ H2) as (Hw & _). simpl in Hw. subst w0.
  apply bind_ok_inv in H as ([] & [m2 w1] & H3 & H).
  pose proof (dispose_previous_spec _ _ _ _ H3) as [_ Hd].
  destruct (Hd eq_refl) as [Hm2 _]. simpl in Hm2. subst m2.
  apply bind_ok_inv in H as ([[xData rows] cols] & s4 & H4 & H).
  unfold liftR in H4. inversion H4; subst s4. clear H4.
  apply bind_ok_inv in H as (p & s5 & H5 & H).
  unfold this, gets in H5; simpl in H5. inversion H5; subst p s5. clear H5.
  unfold normalizeY in H.
  apply bind_ok_inv in H as ([[nc cls] yTrain] & s6 & H6 & H).
  unfold liftR in H6. inversion H6; subst s6. clear H6.
  apply bind_ok_inv in H as ([] & s7 & H7 & H).
  unfold update_this, modify in H7; simpl in H7. inversion H7; subst s7. clear H7.
  destruct (length yTrain =? rows)%nat eqn:Hlen; simpl in H; [| discriminate].
  apply Nat.eqb_eq in Hlen.
  apply bind_ok_inv in H as (nrc & s8 & H8 & H).
  unfold this, gets in H8; simpl in H8. inversion H8; subst nrc s8. clear H8.
  apply bind_ok_inv in H as (bst & s9 & H9 & H).
  apply lift_inv in H9 as (w2 & H9 & ->).
  apply bind_ok_inv in H as ([] & s10 & H10 & H).
  unfold update_this, modify in H10, H; simpl in H10, H.
  inversion H10; subst s10. clear H10. inversion H; subst s'. clear H.
  exists m1, w1, xData, rows, cols, nc, cls, yTrain, bst, w2.
  repeat split; auto.
Qed.

(** ** The round budget *)

Lemma dispose_previous_params m w r s' :
  dispose_previous (m, w) = (r, s') -> params (fst s') = params m.
Proof.
  unfold dispose_previous; simpl. destruct (booster m) as [b|].
  - destruct (Booster_dispose (b, w)) as [[u|e] [b' w']];
      intros H; inversion H; reflexivity.
  - intros H; inversion H; reflexivity.
Qed.

Lemma numRound_of_get p p' :
  get "numRound" p' = get "numRound" p -> numRound_of p' = numRound_of p.
Proof. unfold numRound_of, get_or. now intros ->. Qed.

(** Whatever a call of [fit] does, it makes at most as many updates as the
    round count of the model says, and exactly as many when it returns. *)
Lemma fit_updates X y m w r s' :
  fit X y (m, w) = (r, s') ->
  let budget := loop_count (ToNumber (numRound_of (params m))) in
  (updates (calls (snd s')) <= updates (calls w) + budget)%nat
  /\ (r = Ok tt -> updates (calls (snd s')) = (updates (calls w) + budget)%nat).
Proof.
  intros H budget. destruct r as [[]|e].
  - apply fit_ok_inv in H
      as (_ & m1 & w1 & xD & rows & cols & nc & cls & yT & bst & w2
          & H2 & H3 & _ & _ & _ & H9 & ->).
    apply resolveTask_frame in H2 as (_ & _ & _ & _ & Hp). simpl in Hp.
    apply dispose_previous_spec in H3 as [G _]. simpl in G.
    apply grows_updates in G.
    apply train_spec in H9 as (_ & _ & Hb).
    destruct (Hb bst eq_refl) as [Hu _]. simpl.
    rewrite (numRound_of_get (params m) (params m1)) in Hu
      by (apply Hp; discriminate).
    fold budget in Hu. split; [lia | intros _; lia].
  - split; [| discriminate]. revert H. unfold fit. intros H.
    apply bind_inv in H as [(e1 & H1 & _)|([] & s1 & H1 & H)];
      apply ensureNotDisposed_inv in H1 as [-> _]; [simpl; lia |].
    apply bind_inv in H as [(e2 & H2 & _)|([] & [m1 w0] & H2 & H)];
      pose proof (resolveTask_frame _ _ _ _ _ H2) as (Hw & _ & _ & _ & Hp);
      simpl in Hw, Hp; [rewrite Hw; lia | subst w0].
    apply bind_inv in H as [(e3 & H3 & _)|([] & [m2 w1] & H3 & H)];
      pose proof (dispose_previous_params _ _ _ _ H3) as Hp2; simpl in Hp2;
      apply dispose_previous_spec in H3 as [G _]; simpl in G;
      apply grows_updates in G; [simpl; lia |].
    apply bind_inv in H as [(e4 & H4 & _)|([[xD rows] cols] & s4 & H4 & H)];
      unfold liftR in H4; inversion H4; subst; [simpl; lia |].
    apply bind_inv in H as [(e5 & H5 & _)|(p & s5 & H5 & H)];
      unfold this, gets in H5; simpl in H5; inversion H5; subst. clear H5.
    apply bind_inv in H as [(e6 & H6 & _)|([[nc cls] yT] & s6 & H6 & H)];
      unfold liftR in H6; inversion H6; subst; [simpl; lia |].
    apply bind_inv in H as [(e7 & H7 & _)|([] & s7 & H7 & H)];
      unfold update_this, modify in H7; simpl in H7; inversion H7; subst.
    clear H7.
    destruct (length yT =? rows)%nat; simpl in H;
      [| inversion H; subst; simpl; lia].
    apply bind_inv in H as [(e8 & H8 & _)|(nrc & s8 & H8 & H)];
      unfold this, gets in H8; simpl in H8; inversion H8; subst. clear H8.
    assert (Hnr : numRound_of (params m2) = numRound_of (params m)).
    { apply numRound_of_get. rewrite Hp2. apply Hp; discriminate. }
    apply bind_inv in H as [(e9 & H9 & _)|(bst & s9 & H9 & H)];
      apply lift_inv in H9 as (w2 & H9 & ->);
      apply train_spec in H9 as (_ & Hle & _); fold (numRound_of (params m2)) in Hle;
      rewrite Hnr in Hle; fold budget in Hle; [simpl; lia |].
    apply bind_inv in H as [(e10 & H10 & _)|([] & s10 & H10 & H)].
    + unfold update_this, modify in H10; simpl in H10. inversion H10.
    + unfold update_this, modify in H; simpl in H. inversion H.
Qed.

(** C2, as amended.  A call of [fit] makes at most as many updates as its
    round count, and exactly as many when it returns: 100 when
    [numRound] is absent or falsy, [numRound] when it is a positive
    integer.  (Every call of [update] in [fit] makes one call of
    [wl_lgb_booster_update], see [Booster_update_counts]; those are
    counted.)  This holds for every engine, so for every completion
    signal the updates report: the signal neither shortens nor lengthens
    the loop. *)
Theorem fit_round_budget X y m w r m' w' :
  fit X y (m, w) = (r, (m', w')) ->
  (get "numRound" (params m) = None ->
     (updates (calls w') <= updates (calls w) + 100)%nat
     /\ (r = Ok tt -> updates (calls w') = (updates (calls w) + 100)%nat))
  /\ (forall v, get "numRound" (params m) = Some v -> truthy v = false ->
        (updates (calls w') <= updates (calls w) + 100)%nat
        /\ (r = Ok tt -> updates (calls w') = (updates (calls w) + 100)%nat))
  /\ (forall k, 0 < k -> get "numRound" (params m) = Some (VNum (Int k)) ->
        (updates (calls w') <= updates (calls w) + Z.to_nat k)%nat
        /\ (r = Ok tt ->
            updates (calls w') = (updates (calls w) + Z.to_nat k)%nat)).
Proof.
  intros H. apply fit_updates in H. simpl in H.
  unfold numRound_of, get_or in H.
  split; [| split].
  - intros Hn. rewrite Hn in H. exact H.
  - intros v Hv Hf. rewrite Hv, Hf in H. exact H.
  - intros k Hk Hv. rewrite Hv in H. simpl in H.
    destruct (Z.eqb_spec k 0) as [Hk0|_]; [lia |]. exact H.
Qed.

(** C10.  When [numRound] is set to a falsy value, 0 for one, a call of
    [fit] that returns has made exactly 100 updates. *)
Theorem fit_falsy_numRound X y m w m' w' v :
  get "numRound" (params m) = Some v -> truthy v = false ->
  fit X y (m, w) = (Ok tt, (m', w')) ->
  updates (calls w') = (updates (calls w) + 100)%nat.
Proof.
  intros Hv Hf H. apply fit_updates in H as [_ H]. simpl in H.
  unfold numRound_of, get_or in H. rewrite Hv, Hf in H. exact (H eq_refl).
Qed.

(** ** Refit *)

(** A call of [fit] that returns, on a model that holds a live booster:
    the first call it makes frees the handle of that booster, no later
    call of it frees a booster, and the model ends fitted, not disposed,
    holding a live booster whose handle is the one the engine gave to a
    call of [wl_lgb_booster_create] made after the free. *)
Lemma refit_replaces_booster X y m w m' w' b h :
  booster m = Some b -> b_freed b = false -> b_handle b = Some h ->
  fit X y (m, w) = (Ok tt, (m', w')) ->
  exists rest fresp ds ps resp b',
    calls w' = rest ++ (BoosterFree h, fresp) :: calls w
    /\ Forall (fun c => no_free (fst c)) rest
    /\ In (BoosterCreate ds ps, resp) rest /\ failed resp = false
    /\ booster m' = Some b'
    /\ b_handle b' = Some (out_i32 resp) /\ b_freed b' = false
    /\ fitted m' = true /\ freed m' = false.
Proof.
  intros Hb Hfr Hh H.
  apply fit_ok_inv in H
    as (Hf & m1 & w1 & xD & rows & cols & nc & cls & yT & bst & w2
        & H2 & H3 & _ & _ & _ & H9 & Hs).
  inversion Hs; subst m' w'; clear Hs.
  apply resolveTask_frame in H2 as (_ & Hb1 & Hf1 & _ & _). simpl in *.
  apply dispose_previous_spec in H3 as [_ Hd]. simpl in Hd.
  destruct (Hd eq_refl) as (_ & _ & Hfree).
  destruct (Hfree b h ltac:(congruence) Hfr Hh) as (_ & _ & fresp & Hc1).
  apply train_spec in H9 as ([_ (rest & Hc2 & Hnf)] & _ & Hok).
  destruct (Hok bst eq_refl)
    as (_ & Hbf & _ & ds & resp & lresp & new & Hbh & Hst & Hc3 & Hin & _).
  assert (new = rest) as ->
    by (rewrite Hc3 in Hc2; now apply app_inv_tail in Hc2).
  do 6 eexists. rewrite Hc2, Hc1.
  split; [reflexivity |]. split; [exact Hnf |]. split; [exact Hin |].
  repeat split; auto. simpl. congruence.
Qed.

(** ** Decoding the engine's output *)

Lemma num_gt_irrefl a : num_gt a a = false.
Proof.
  unfold num_gt. destruct (toQ a) as [x|]; [| reflexivity].
  apply negb_false_iff, Qle_bool_iff, Qle_refl.
Qed.

(** An entry that does not exceed [b] neither exceeds nor matches an entry
    that exceeds [b]. *)
Lemma num_gt_below a b c :
  num_gt a b = true -> num_gt c b = false ->
  num_gt c a = false /\ num_ge c a = false.
Proof.
  unfold num_gt, num_ge.
  destruct (toQ a) as [x|]; [| discriminate].
  destruct (toQ b) as [y|]; [| discriminate].
  destruct (toQ c) as [z|]; [| auto].
  rewrite negb_true_iff, negb_false_iff. intros Hxy Hzy.
  apply Qle_bool_iff in Hzy.
  assert (Hlt : (y < x)%Q).
  { apply Qnot_le_lt. intros Hle. apply Qle_bool_iff in Hle. congruence. }
  assert (Hzx : (z < x)%Q) by (eapply Qle_lt_trans; eassumption).
  split.
  - apply negb_false_iff, Qle_bool_iff, Qlt_le_weak, Hzx.
  - destruct (Qle_bool x z) eqn:E; [| reflexivity].
    apply Qle_bool_iff in E. exfalso. exact (Qlt_not_le _ _ Hzx E).
Qed.

(** The scan of [argmax] after [k] steps. *)
Lemma argmax_scan raw i nc k :
  let best :=
    fold_left
      (fun best c =>
         if num_gt (at_index raw (i * nc + c)) (at_index raw (i * nc + best))
         then c else best)
      (seq 1 k) O in
  (best <= k)%nat
  /\ (forall c, (c <= k)%nat ->
        num_gt (at_index raw (i * nc + c)) (at_index raw (i * nc + best)) = false)
  /\ (forall c, (c < best)%nat ->
        num_ge (at_index raw (i * nc + c)) (at_index raw (i * nc + best)) = false).
Proof.
  induction k as [|k IH]; cbv zeta in *.
  - simpl. split; [lia |]. split.
    + intros c Hc. assert (c = O) as -> by lia. apply num_gt_irrefl.
    + intros c Hc. lia.
  - rewrite seq_S, fold_left_app. simpl.
    destruct IH as (Hle & Hgt & Hge).
    set (best := fold_left _ (seq 1 k) O) in *.
    destruct (num_gt (at_index raw (i * nc + S k)) (at_index raw (i * nc + best)))
      eqn:E.
    + split; [lia |]. split.
      * intros c Hc. destruct (Nat.eq_dec c (S k)) as [->|Hne].
        -- apply num_gt_irrefl.
        -- apply (num_gt_below _ _ _ E). apply Hgt. lia.
      * intros c Hc. apply (num_gt_below _ _ _ E). apply Hgt. lia.
    + split; [lia |]. split.
      * intros c Hc. destruct (Nat.eq_dec c (S k)) as [->|Hne].
        -- exact E.
        -- apply Hgt. lia.
      * exact Hge.
Qed.

Lemma argmax_first_max raw i nc : first_max raw i nc (argmax raw i nc).
Proof.
  unfold first_max, argmax.
  destruct (argmax_scan raw i nc (nc - 1)) as (Hle & Hgt & Hge).
  split; [lia |]. split; [| exact Hge].
  intros c Hc. apply Hgt. lia.
Qed.

Lemma fill_rows_spec cls pick n : forall i vs,
  fill_rows cls pick i n = Ok vs ->
  length vs = n
  /\ forall j, (j < n)%nat ->
       exists l, cls = Some l
                 /\ nth_error vs j = Some (class_value l (pick (i + j)%nat)).
Proof.
  induction n as [|n IH]; intros i vs H; simpl in H.
  - inversion H; subst. split; [reflexivity |]. intros j Hj. lia.
  - destruct (class_at cls (pick i)) as [v|e] eqn:Hv; [| discriminate].
    destruct (fill_rows cls pick (S i) n) as [vs'|e] eqn:Hvs; [| discriminate].
    inversion H; subst vs. clear H.
    destruct (IH _ _ Hvs) as [Hlen Hnth].
    split; [simpl; now rewrite Hlen |].
    intros [|j] Hj; simpl.
    + unfold class_at in Hv. destruct cls as [l|]; [| discriminate].
      exists l. split; [reflexivity |]. rewrite Nat.add_0_r.
      unfold class_value. destruct (nth_error l (pick i)); congruence.
    + destruct (Hnth j ltac:(lia)) as (l & Hl & Hj').
      exists l. split; [exact Hl |]. rewrite Hj'.
      now replace (i + S j)%nat with (S i + j)%nat by lia.
Qed.

Lemma booster_predict_model xData rows cols m w r s' :
  booster_predict xData rows cols (m, w) = (r, s') -> fst s' = m.
Proof.
  unfold booster_predict, bind, this, gets; simpl.
  destruct (booster m) as [b|]; [| intros H; inversion H; reflexivity].
  intros H. apply lift_inv in H as (w' & _ & ->). reflexivity.
Qed.

(** What a call of [predict] that returns has returned, given the raw
    output of the engine. *)
Lemma predict_cases m w X preds s' :
  predict X (m, w) = (Ok preds, s') ->
  exists xData rows cols raw,
    normalizeX X = Ok (xData, rows, cols)
    /\ booster_predict xData rows cols (m, w) = (Ok raw, s')
    /\ let obj := objective_of (params m) in
       ((obj = VStr "binary" \/ obj = VStr "cross_entropy") ->
          length preds = rows
          /\ forall i, (i < rows)%nat ->
               exists cls, classes m = Some cls
                 /\ nth_error preds i
                    = Some (class_value cls
                              (if num_gt (at_index raw i) half then 1%nat else O)))
       /\ ((obj = VStr "multiclass" \/ obj = VStr "multiclassova") ->
          length preds = rows
          /\ forall i, (i < rows)%nat ->
               exists cls best, classes m = Some cls
                 /\ first_max raw i (nrClass m) best
                 /\ nth_error preds i = Some (class_value cls best))
       /\ (has CLASSIFIER_OBJECTIVES obj = false -> preds = raw).
Proof.
  unfold predict. intros H.
  apply bind_ok_inv in H as ([] & s1 & H1 & H).
  assert (s1 = (m, w)) as ->.
  { revert H1. unfold ensureFitted, bind, this, gets; simpl.
    destruct (freed m); simpl; [discriminate |].
    destruct (fitted m); simpl; [| discriminate].
    intros H1; now inversion H1. }
  clear H1.
  apply bind_ok_inv in H as ([[xData rows] cols] & s2 & H2 & H).
  unfold liftR in H2. inversion H2 as [[Hx Hs]]. subst s2. clear H2.
  apply bind_ok_inv in H as (raw & s3 & H3 & H).
  pose proof (booster_predict_model _ _ _ _ _ _ _ H3) as Hm.
  apply bind_ok_inv in H as (m' & s4 & H4 & H).
  unfold this, gets in H4. inversion H4; subst m' s4. clear H4.
  rewrite Hm in H. fold (objective_of (params m)) in H.
  exists xData, rows, cols, raw.
  split; [exact Hx |].
  set (obj := objective_of (params m)) in *.
  assert (Hfill : forall pick,
            liftR (fill_rows (classes m) pick 0 rows) s3 = (Ok preds, s') ->
            s3 = s'
            /\ length preds = rows
            /\ forall i, (i < rows)%nat ->
                 exists cls, classes m = Some cls
                   /\ nth_error preds i = Some (class_value cls (pick i))).
  { intros pick Hp. unfold liftR in Hp. inversion Hp as [[Hf Hs']].
    apply fill_rows_spec in Hf as [Hlen Hnth].
    split; [reflexivity |]. split; [exact Hlen |]. exact Hnth. }
  destruct (has CLASSIFIER_OBJECTIVES obj) eqn:Hcls; simpl in H.
  - destruct (is_str obj "binary") eqn:Hbin.
    + apply Hfill in H as (-> & Hlen & Hnth).
      split; [exact H3 |]. cbv zeta.
      assert (obj = VStr "binary") as Hobj.
      { destruct obj; try discriminate. simpl in Hbin.
        apply String.eqb_eq in Hbin. now subst. }
      rewrite Hobj. split; [| split].
      * intros _. split; [exact Hlen | exact Hnth].
      * intros [?|?]; discriminate.
      * discriminate.
    + destruct (is_str obj "multiclass" || is_str obj "multiclassova") eqn:Hmc.
      * apply Hfill in H as (-> & Hlen & Hnth).
        split; [exact H3 |]. cbv zeta. split; [| split].
        -- intros [Ho|Ho]; rewrite Ho in Hmc, Hbin; discriminate.
        -- intros _. split; [exact Hlen |]. intros i Hi.
           destruct (Hnth i Hi) as (cls & Hc & Hn).
           exists cls, (argmax raw i (nrClass m)).
           split; [exact Hc |]. split; [apply argmax_first_max | exact Hn].
        -- discriminate.
      * apply Hfill in H as (-> & Hlen & Hnth).
        split; [exact H3 |]. cbv zeta. split; [| split].
        -- intros _. split; [exact Hlen | exact Hnth].
        -- intros [Ho|Ho]; rewrite Ho in Hmc; discriminate.
        -- discriminate.
  - unfold ret in H. inversion H; subst.
    split; [exact H3 |]. cbv zeta. split; [| split].
    + intros [Ho|Ho]; rewrite Ho in Hcls; discriminate.
    + intros [Ho|Ho]; rewrite Ho in Hcls; discriminate.
    + reflexivity.
Qed.

(** C6.  What a call of [predict] that returns has returned, given the
    raw output of the engine: under binary and cross_entropy, for each
    row the entry of the class list at index 1 when the raw value exceeds
    one half and at index 0 otherwise; under multiclass and
    multiclassova, for each row the entry of the class list at the index
    of the maximum of the row's [nrClass] raw values, the lowest such
    index in a tie; under any other objective the raw output itself. *)
Theorem predict_decoding m w X preds s' :
  predict X (m, w) = (Ok preds, s') ->
  exists xData rows cols raw,
    normalizeX X = Ok (xData, rows, cols)
    /\ booster_predict xData rows cols (m, w) = (Ok raw, s')
    /\ let obj := objective_of (params m) in
       ((obj = VStr "binary" \/ obj = VStr "cross_entropy") ->
          length preds = rows
          /\ forall i, (i < rows)%nat ->
               exists cls, classes m = Some cls
                 /\ nth_error preds i
                    = Some (class_value cls
                              (if num_gt (at_index raw i) half then 1%nat else O)))
       /\ ((obj = VStr "multiclass" \/ obj = VStr "multiclassova") ->
          length preds = rows
          /\ forall i, (i < rows)%nat ->
               exists cls best, classes m = Some cls
                 /\ first_max raw i (nrClass m) best
                 /\ nth_error preds i = Some (class_value cls best))
       /\ (has CLASSIFIER_OBJECTIVES obj = false -> preds = raw).
Proof. apply predict_cases. Qed.

(** ** Distinct labels *)

Lemma set_add_spec {A} (eqb : A -> A -> bool) v s :
  (forall u, eqb v u = true <-> u = v) ->
  NoDup s ->
  NoDup (set_add eqb v s)
  /\ forall x, In x (set_add eqb v s) <-> In x s \/ x = v.
Proof.
  intros Heq Hnd. unfold set_add.
  destruct (existsb (eqb v) s) eqn:E.
  - split; [exact Hnd |]. intros x. split; [auto |].
    intros [H| ->]; [exact H |].
    apply existsb_exists in E as (u & Hu & Hvu).
    apply Heq in Hvu. now subst.
  - split.
    + apply NoDup_app. split; [exact Hnd |]. split; [| apply NoDup_singleton].
      intros x Hx Hx'. apply list_elem_of_singleton in Hx'. subst x.
      apply list_elem_of_In in Hx.
      assert (existsb (eqb v) s = true); [| congruence].
      apply existsb_exists. exists v. split; [exact Hx | now apply Heq].
    + intros x. rewrite in_app_iff. simpl. intuition.
Qed.

Lemma same_value_zero_Int z u : same_value_zero (Int z) u = true <-> u = Int z.
Proof.
  destruct u as [z'|q|]; simpl; try (split; discriminate).
  rewrite Z.eqb_eq. split; congruence.
Qed.

Lemma unique_fold y : forall acc,
  Forall is_int y -> NoDup acc ->
  let u := fold_left (fun s v => set_add same_value_zero v s) y acc in
  NoDup u /\ forall v, In v u <-> In v acc \/ In v y.
Proof.
  induction y as [|v y IH]; intros acc Hy Hnd; simpl.
  - split; [exact Hnd |]. intros v. tauto.
  - inversion Hy as [|? ? [z ->] Hy']; subst.
    destruct (set_add_spec same_value_zero (Int z) acc
                (same_value_zero_Int z) Hnd) as [Hnd' Hin'].
    destruct (IH _ Hy' Hnd') as [Hnd'' Hin''].
    split; [exact Hnd'' |]. intros v. rewrite Hin'', Hin'.
    intuition.
Qed.

(** On integral labels [unique_values] lists every label once. *)
Lemma unique_values_spec y :
  Forall is_int y ->
  NoDup (unique_values y) /\ forall v, In v (unique_values y) <-> In v y.
Proof.
  intros Hy. destruct (unique_fold y [] Hy (NoDup_nil_2)) as [Hnd Hin].
  split; [exact Hnd |]. intros v. rewrite (Hin v). simpl. tauto.
Qed.

Lemma collect_labels_spec y : forall i acc u,
  collect_labels y i acc = Ok u ->
  NoDup acc ->
  Forall is_int y /\ NoDup u
  /\ forall z, In z u <-> In z acc \/ In (Int z) y.
Proof.
  induction y as [|v y IH]; intros i acc u H Hnd; simpl in H.
  - inversion H; subst. split; [constructor |]. split; [exact Hnd |].
    intros z. simpl. tauto.
  - destruct v as [z|q|]; try discriminate.
    destruct (set_add_spec Z.eqb z acc) as [Hnd' Hin']; [| exact Hnd |].
    { intros u'. rewrite Z.eqb_eq. split; congruence. }
    destruct (IH _ _ _ H Hnd') as (Hy & Hu & Hin).
    split; [constructor; [now exists z | exact Hy] |].
    split; [exact Hu |].
    intros z'. rewrite Hin, Hin'. simpl. split.
    + intros [[?| ->]|?]; auto.
    + intros [?|[Heq|?]]; auto. inversion Heq; auto.
Qed.

Lemma has_classifier_cases obj :
  has CLASSIFIER_OBJECTIVES obj = true <->
  obj = VStr "binary" \/ obj = VStr "multiclass"
  \/ obj = VStr "multiclassova" \/ obj = VStr "cross_entropy".
Proof.
  unfold has, CLASSIFIER_OBJECTIVES. destruct obj as [n|s|b|]; simpl;
    try (split; [discriminate | intros [H|[H|[H|H]]]; discriminate]).
  rewrite !orb_true_iff, !String.eqb_eq. split.
  - intros [->|[->|[->|[->|H]]]]; auto. discriminate.
  - intros [H|[H|[H|H]]]; inversion H; auto.
Qed.

Lemma encode_labels_classifier obj y nc cls yT :
  has CLASSIFIER_OBJECTIVES obj = true ->
  encode_labels obj y = Ok (nc, cls, yT) ->
  exists unique,
    collect_labels y 0 [] = Ok unique
    /\ nc = length (merge_sort Z.le unique)
    /\ cls = Some (map wrap32 (merge_sort Z.le unique))
    /\ yT = map (classMap_get (build_classMap (merge_sort Z.le unique) 0 ∅)) y.
Proof.
  unfold encode_labels. intros ->.
  destruct (collect_labels y 0 []) as [u|e]; [| discriminate].
  intros H; inversion H; subst. eauto.
Qed.

(** ** The task shorthand *)

Lemma fit_conflict X y m w :
  freed m = false ->
  falsy_key "task" (params m) = false ->
  falsy_key "objective" (params m) = false ->
  fit X y (m, w) = (Err TaskObjectiveConflict, (m, w)).
Proof.
  intros Hf Ht Ho. unfold fit.
  rewrite (bind_ok ensureNotDisposed _ (m, w) tt (m, w)).
  - apply bind_err.
    unfold resolveTask, bind, this, gets, throw; simpl. now rewrite Ht, Ho.
  - unfold ensureNotDisposed, bind, this, gets, ret; simpl. now rewrite Hf.
Qed.

Lemma falsy_key_get k p p' :
  get k p' = get k p -> falsy_key k p' = falsy_key k p.
Proof. unfold falsy_key. now intros ->. Qed.

(** What the first [fit] of a model with the task shorthand leaves in the
    hyperparameters, and what it means for the next [fit]. *)
Lemma task_shorthand_resolved X y m w m' w' :
  falsy_key "task" (params m) = false ->
  falsy_key "objective" (params m) = true ->
  fit X y (m, w) = (Ok tt, (m', w')) ->
  get "task" (params m') = get "task" (params m)
  /\ ((get "task" (params m) = Some (VStr "classification")
       /\ NoDup (unique_values y)
       /\ (forall v, In v (unique_values y) <-> In v y)
       /\ ((2 < length (unique_values y))%nat ->
           get "objective" (params m') = Some (VStr "multiclass")
           /\ get "num_class" (params m')
              = Some (VNum (Int (Z.of_nat (length (unique_values y))))))
       /\ ((length (unique_values y) <= 2)%nat ->
           get "objective" (params m') = Some (VStr "binary")
           /\ get "num_class" (params m') = get "num_class" (params m)))
      \/ (get "task" (params m) = Some (VStr "regression")
          /\ get "objective" (params m') = Some (VStr "regression")
          /\ get "num_class" (params m') = get "num_class" (params m)))
  /\ (forall X' y' w'',
        fit X' y' (m', w'') = (Err TaskObjectiveConflict, (m', w''))).
Proof.
  intros Ht Ho H.
  apply fit_ok_inv in H
    as (Hf & m1 & w1 & xD & rows & cols & nc & cls & yT & bst & w2
        & H2 & H3 & _ & Henc & _ & _ & Hs).
  inversion Hs; subst m' w'; clear Hs. simpl.
  pose proof (resolveTask_frame _ _ _ _ _ H2) as (_ & _ & Hf1 & _ & Hp).
  simpl in Hf1, Hp.
  assert (Htask : get "task" (params m1) = get "task" (params m))
    by (apply Hp; discriminate).
  destruct (get "task" (params m)) as [task|] eqn:Hgt;
    [| unfold falsy_key in Ht; rewrite Hgt in Ht; discriminate].
  assert (Htr : truthy task = true).
  { unfold falsy_key in Ht. rewrite Hgt in Ht.
    now destruct (truthy task). }
  assert (Hcases :
    (task = VStr "classification"
     /\ ((2 < length (unique_values y))%nat ->
         params m1 = set "num_class"
                       (VNum (Int (Z.of_nat (length (unique_values y)))))
                       (set "objective" (VStr "multiclass") (params m)))
     /\ ((length (unique_values y) <= 2)%nat ->
         params m1 = set "objective" (VStr "binary") (params m)))
    \/ (task = VStr "regression"
        /\ params m1 = set "objective" (VStr "regression") (params m))).
  { revert H2.
    unfold resolveTask, bind, this, gets, update_this, modify, throw; simpl.
    rewrite Ht, Ho. simpl. unfold get_or. rewrite Hgt, Htr.
    unfold normalizeY.
    destruct (is_str task "classification") eqn:Hc.
    - destruct task as [|s| |]; try discriminate. simpl in Hc.
      apply String.eqb_eq in Hc. subst s.
      destruct (2 <? length (unique_values y))%nat eqn:Hn;
        [apply Nat.ltb_lt in Hn | apply Nat.ltb_ge in Hn];
        intros H; inversion H; subst; simpl; left;
        (split; [reflexivity |]); split; intros Hn'; (reflexivity || lia).
    - destruct (is_str task "regression") eqn:Hr; [| discriminate].
      destruct task as [|s| |]; try discriminate. simpl in Hr.
      apply String.eqb_eq in Hr. subst s.
      intros H; inversion H; subst; simpl. right. split; reflexivity. }
  assert (Hobj : falsy_key "objective" (params m1) = false).
  { unfold falsy_key.
    destruct Hcases as [(_ & Hm & Hb)|(_ & Hr)].
    - destruct (Nat.lt_ge_cases 2 (length (unique_values y))) as [Hn|Hn].
      + rewrite (Hm Hn), get_set_ne, get_set_eq by discriminate. reflexivity.
      + rewrite (Hb Hn), get_set_eq. reflexivity.
    - rewrite Hr, get_set_eq. reflexivity. }
  split; [exact Htask |]. split.
  - destruct Hcases as [(-> & Hm & Hb)|(-> & Hr)].
    + left. split; [reflexivity |].
      assert (Hint : Forall is_int y).
      { assert (Hcl : has CLASSIFIER_OBJECTIVES (objective_of (params m1)) = true).
        { unfold objective_of, get_or.
          destruct (Nat.lt_ge_cases 2 (length (unique_values y))) as [Hn|Hn].
          - rewrite (Hm Hn), get_set_ne, get_set_eq by discriminate. reflexivity.
          - rewrite (Hb Hn), get_set_eq. reflexivity. }
        destruct (encode_labels_classifier _ _ _ _ _ Hcl Henc)
          as (u & Hu & _).
        apply collect_labels_spec in Hu as [Hy _]; [exact Hy | constructor]. }
      destruct (unique_values_spec y Hint) as [Hnd Hin].
      split; [exact Hnd |]. split; [exact Hin |]. split.
      * intros Hn. rewrite (Hm Hn). split.
        -- rewrite get_set_ne, get_set_eq by discriminate. reflexivity.
        -- apply get_set_eq.
      * intros Hn. rewrite (Hb Hn). split.
        -- apply get_set_eq.
        -- apply get_set_ne. discriminate.
    + right. split; [reflexivity |]. rewrite Hr. split.
      * apply get_set_eq.
      * apply get_set_ne. discriminate.
  - intros X' y' w''. apply fit_conflict; simpl.
    + congruence.
    + rewrite (falsy_key_get "task" (params m) (params m1)); [exact Ht |].
      now rewrite Hgt.
    + exact Hobj.
Qed.


(** C3 fails for a model with the task shorthand.  After a first call of
    [fit] that returned, the model is fitted and holds a live booster;
    every further call of [fit] throws the task/objective conflict before
    the block that disposes the previous booster: the model still holds
    that booster, and no call has reached the engine. *)
Theorem refit_with_task_shorthand_throws X y m w m' w' :
  falsy_key "task" (params m) = false ->
  falsy_key "objective" (params m) = true ->
  fit X y (m, w) = (Ok tt, (m', w')) ->
  exists b,
    booster m' = Some b /\ b_freed b = false
    /\ fitted m' = true /\ freed m' = false
    /\ forall X' y' w'',
         fit X' y' (m', w'') = (Err TaskObjectiveConflict, (m', w'')).
Proof.
  intros Ht Ho H.
  destruct (task_shorthand_resolved _ _ _ _ _ _ Ht Ho H) as (_ & _ & Hrefit).
  apply fit_ok_inv in H
    as (Hf & m1 & w1 & xD & rows & cols & nc & cls & yT & bst & w2
        & H2 & _ & _ & _ & _ & Htr & Hs).
  inversion Hs; subst m' w'; clear Hs.
  apply resolveTask_frame in H2 as (_ & _ & Hf1 & _ & _). simpl in Hf1.
  apply train_spec in Htr as (_ & _ & Hok).
  destruct (Hok bst eq_refl) as (_ & Hbf & _).
  exists bst. simpl. repeat split; auto. congruence.
Qed.

(** ** The class list *)

Lemma wrap32_small z : - 2 ^ 31 <= z < 2 ^ 31 -> wrap32 z = z.
Proof. intros H. unfold wrap32. rewrite Z.mod_small; lia. Qed.

Lemma map_wrap32_small l :
  Forall (fun z => - 2 ^ 31 <= z < 2 ^ 31) l -> map wrap32 l = l.
Proof.
  induction 1 as [|z l Hz _ IH]; simpl; [reflexivity |].
  now rewrite wrap32_small, IH.
Qed.









(** ** Scratch allocations *)

Lemma free_live p w :
  p ∈ live w ->
  free p w = (Ok tt, {| loaded := loaded w; live := live w ∖ {[p]};
                        stray_frees := stray_frees w; eng := eng w;
                        calls := calls w |}).
Proof. intros H. unfold free. now destruct (decide (p ∈ live w)). Qed.

(** Runs straight-line code on the heap: names the addresses [_malloc]
    returns, splits on what the engine answers, and frees what is live. *)
Ltac heap_step :=
  match goal with
  | |- context [fresh ?X] =>
      let p := fresh "p" in
      let Hp := fresh "Hp" in
      pose proof (is_fresh X) as Hp;
      set (p := fresh X) in *; clearbody p
  | |- context [loaded ?w] => destruct (loaded w) eqn:?
  | |- context [estep ?e ?r] => destruct (estep e r) as [? ?] eqn:?
  | |- context [failed ?r] => destruct (failed r) eqn:?
  | |- context [free ?p ?w] => rewrite (free_live p w) by (simpl; set_solver)
  end.

Ltac heap_crunch := repeat (simpl; heap_step); simpl.

Ltac heap_balanced :=
  heap_crunch; (split; [set_solver | reflexivity]).

(** On a handle that is not disposed every operation is balanced,
    whether the engine reports success or failure. *)
Lemma withCString_balanced {A} str (fn : positive -> M world A) :
  (forall p, balanced (fn p)) -> balanced (withCString str fn).
Proof.
  intros Hfn w. unfold withCString, finally, bind, malloc. simpl.
  pose proof (is_fresh (live w)) as Hp. set (p := fresh (live w)) in *.
  match goal with
  | |- context [fn p ?w1] =>
      destruct (Hfn p w1) as [Hlive Hstray]; destruct (fn p w1) as [r w2]
  end.
  simpl in *. rewrite free_live by (rewrite Hlive; set_solver). simpl.
  rewrite Hlive, Hstray. split; [set_solver | reflexivity].
Qed.

Lemma Booster_new_balanced h ps : balanced (Booster_new h ps).
Proof.
  intros w.
  unfold Booster_new, withCString, finally, getLastError, bind, getWasm,
    malloc, native, ret, throw.
  heap_balanced.
Qed.

Lemma Booster_update_balanced b :
  b_freed b = false -> balanced (Booster_update b).
Proof.
  intros Hb w.
  unfold Booster_update, Booster_handle, getLastError, bind, getWasm, malloc,
    native, ret, throw.
  rewrite Hb. heap_balanced.
Qed.

Lemma Booster_getNumClasses_balanced b :
  b_freed b = false -> balanced (Booster_getNumClasses b).
Proof.
  intros Hb w.
  unfold Booster_getNumClasses, Booster_handle, getLastError, bind, getWasm,
    malloc, native, ret, throw.
  rewrite Hb. heap_balanced.
Qed.

Lemma Booster_predict_balanced b data nrow ncol pt ni :
  b_freed b = false -> balanced (Booster_predict b data nrow ncol pt ni).
Proof.
  intros Hb w.
  unfold Booster_predict, Booster_handle, withCString, finally, getLastError,
    bind, getWasm, malloc, native, ret, throw.
  rewrite Hb. heap_balanced.
Qed.

Lemma Booster_saveModel_balanced b :
  b_freed b = false -> balanced (Booster_saveModel b).
Proof.
  intros Hb w.
  unfold Booster_saveModel, Booster_handle, getLastError, bind, getWasm,
    malloc, native, ret, throw.
  rewrite Hb. heap_balanced.
Qed.

Lemma Booster_loadModel_balanced text : balanced (Booster_loadModel text).
Proof.
  intros w.
  unfold Booster_loadModel, getLastError, bind, getWasm, malloc, native, ret,
    throw.
  heap_balanced.
Qed.

Lemma Dataset_new_balanced data nrow ncol ps :
  balanced (Dataset_new data nrow ncol ps).
Proof.
  intros w.
  unfold Dataset_new, withCString, finally, getLastError, bind, getWasm,
    malloc, native, ret, throw.
  heap_balanced.
Qed.

Lemma Dataset_setLabel_balanced d labels :
  d_freed d = false -> balanced (Dataset_setLabel d labels).
Proof.
  intros Hd w.
  unfold Dataset_setLabel, Dataset_handle, withCString, finally, getLastError,
    bind, getWasm, malloc, native, ret, throw.
  rewrite Hd. heap_balanced.
Qed.

(** C5 fails on a disposed handle.  [update], [getNumClasses], [predict]
    and [saveModel] of a disposed booster and [setLabel] of a disposed
    dataset allocate before they read the handle; reading it throws, and
    the first address allocated is still live when the error reaches the
    caller. *)
Theorem use_after_dispose_leaks (b : Booster) (d : Dataset) (w : world)
    data nrow ncol labels :
  loaded w = true -> b_freed b = true -> d_freed d = true ->
  let p := fresh (live w) in
  (p ∉ live w)
  /\ (fst (Booster_update b w) = Err (HandleDisposed "Booster")
      /\ p ∈ live (snd (Booster_update b w)))
  /\ (fst (Booster_getNumClasses b w) = Err (HandleDisposed "Booster")
      /\ p ∈ live (snd (Booster_getNumClasses b w)))
  /\ (fst (Booster_predict b data nrow ncol 0 0 w)
      = Err (HandleDisposed "Booster")
      /\ p ∈ live (snd (Booster_predict b data nrow ncol 0 0 w)))
  /\ (fst (Booster_saveModel b w) = Err (HandleDisposed "Booster")
      /\ p ∈ live (snd (Booster_saveModel b w)))
  /\ (fst (Dataset_setLabel d labels w) = Err (HandleDisposed "Dataset")
      /\ p ∈ live (snd (Dataset_setLabel d labels w))).
Proof.
  intros Hl Hb Hd p. split; [apply is_fresh |]. subst p.
  unfold Booster_update, Booster_getNumClasses, Booster_predict,
    Booster_saveModel, Dataset_setLabel, Booster_handle, Dataset_handle,
    withCString, finally, getLastError, bind, getWasm, malloc, native, ret,
    throw.
  rewrite Hl, Hb, Hd. simpl.
  repeat split; heap_crunch; try reflexivity; set_solver.
Qed.

(** * Single operations of the bindings *)

Ltac heap_exact req :=
  unfold after_call, response_to; simpl;
  let e1 := fresh "e" in let r1 := fresh "r" in
  let e2 := fresh "e" in let r2 := fresh "r" in
  destruct (estep (eng _) req) as [e1 r1] eqn:?; simpl;
  destruct (estep e1 GetLastError) as [e2 r2] eqn:?; simpl;
  destruct (failed r1) eqn:?; heap_crunch;
  repeat f_equal; set_solver.

Lemma Dataset_new_one_call data nrow ncol ps :
  one_call "Dataset creation" (DatasetCreateFromMat data nrow ncol ps)
    (fun r => {| d_handle := Some (out_i32 r); d_freed := false |})
    (Dataset_new data nrow ncol ps).
Proof.
  intros w Hl. cbv zeta.
  unfold Dataset_new, withCString, finally, getLastError, bind, getWasm,
    malloc, native, ret, throw.
  rewrite Hl.
  heap_exact (DatasetCreateFromMat data nrow ncol ps).
Qed.

Lemma Dataset_setLabel_one_call d labels :
  d_freed d = false ->
  one_call "Dataset setLabel"
    (DatasetSetField (default 0 (d_handle d)) "label" labels 0)
    (fun _ => tt) (Dataset_setLabel d labels).
Proof.
  intros Hd w Hl. cbv zeta.
  unfold Dataset_setLabel, Dataset_handle, withCString, finally,
    getLastError, bind, getWasm, malloc, native, ret, throw.
  rewrite Hl, Hd.
  heap_exact (DatasetSetField (default 0 (d_handle d)) "label" labels 0).
Qed.

Lemma Booster_new_one_call h ps :
  one_call "Booster creation" (BoosterCreate h ps)
    (fun r => {| b_handle := Some (out_i32 r); b_freed := false |})
    (Booster_new h ps).
Proof.
  intros w Hl. cbv zeta.
  unfold Booster_new, withCString, finally, getLastError, bind, getWasm,
    malloc, native, ret, throw.
  rewrite Hl. heap_exact (BoosterCreate h ps).
Qed.

Lemma Booster_update_one_call b :
  b_freed b = false ->
  one_call "Booster update" (BoosterUpdate (default 0 (b_handle b)))
    (fun r => negb (Z.eqb (out_i32 r) 0)) (Booster_update b).
Proof.
  intros Hb w Hl. cbv zeta.
  unfold Booster_update, Booster_handle, getLastError, bind, getWasm, malloc,
    native, ret, throw.
  rewrite Hl, Hb. heap_exact (BoosterUpdate (default 0 (b_handle b))).
Qed.

Lemma Booster_getNumClasses_one_call b :
  b_freed b = false ->
  one_call "Booster getNumClasses"
    (BoosterGetNumClasses (default 0 (b_handle b)))
    out_i32 (Booster_getNumClasses b).
Proof.
  intros Hb w Hl. cbv zeta.
  unfold Booster_getNumClasses, Booster_handle, getLastError, bind, getWasm,
    malloc, native, ret, throw.
  rewrite Hl, Hb. heap_exact (BoosterGetNumClasses (default 0 (b_handle b))).
Qed.

Lemma Booster_predict_one_call b data nrow ncol pt ni :
  b_freed b = false ->
  one_call "Booster predict"
    (BoosterPredict (default 0 (b_handle b)) data nrow ncol pt ni "")
    out_f64 (Booster_predict b data nrow ncol pt ni).
Proof.
  intros Hb w Hl. cbv zeta.
  unfold Booster_predict, Booster_handle, withCString, finally, getLastError,
    bind, getWasm, malloc, native, ret, throw.
  rewrite Hl, Hb.
  heap_exact (BoosterPredict (default 0 (b_handle b)) data nrow ncol pt ni "").
Qed.

Lemma Booster_loadModel_one_call text :
  one_call "Booster loadModel" (BoosterLoadModel text)
    (fun r => Booster_of_handle (out_i32 r)) (Booster_loadModel text).
Proof.
  intros w Hl. cbv zeta.
  unfold Booster_loadModel, getLastError, bind, getWasm, malloc, native, ret,
    throw.
  rewrite Hl. heap_exact (BoosterLoadModel text).
Qed.

(** X3.  In a loaded module, each of [new Dataset], [setLabel],
    [new Booster], [update], [getNumClasses], [predict] and [loadModel],
    on a handle that is not disposed, makes exactly one call of its
    engine function; on status 0 it returns what the engine wrote (the
    new handle, the finished flag, the class count, the predictions)
    and on any other status it fetches the engine's last error message
    with one further call and throws it under the operation's name; the
    scratch memory it allocated is freed in both cases. *)
Theorem bindings_make_one_call (b : Booster) (d : Dataset)
    (data labels : list number) (nrow ncol : nat) (ps text : string)
    (h pt ni : Z) :
  b_freed b = false -> d_freed d = false ->
  one_call "Dataset creation" (DatasetCreateFromMat data nrow ncol ps)
    (fun r => {| d_handle := Some (out_i32 r); d_freed := false |})
    (Dataset_new data nrow ncol ps)
  /\ one_call "Dataset setLabel"
       (DatasetSetField (default 0 (d_handle d)) "label" labels 0)
       (fun _ => tt) (Dataset_setLabel d labels)
  /\ one_call "Booster creation" (BoosterCreate h ps)
       (fun r => {| b_handle := Some (out_i32 r); b_freed := false |})
       (Booster_new h ps)
  /\ one_call "Booster update" (BoosterUpdate (default 0 (b_handle b)))
       (fun r => negb (Z.eqb (out_i32 r) 0)) (Booster_update b)
  /\ one_call "Booster getNumClasses"
       (BoosterGetNumClasses (default 0 (b_handle b)))
       out_i32 (Booster_getNumClasses b)
  /\ one_call "Booster predict"
       (BoosterPredict (default 0 (b_handle b)) data nrow ncol pt ni "")
       out_f64 (Booster_predict b data nrow ncol pt ni)
  /\ one_call "Booster loadModel" (BoosterLoadModel text)
       (fun r => Booster_of_handle (out_i32 r)) (Booster_loadModel text).
Proof.
  intros Hb Hd.
  split; [apply Dataset_new_one_call |].
  split; [apply Dataset_setLabel_one_call, Hd |].
  split; [apply Booster_new_one_call |].
  split; [apply Booster_update_one_call, Hb |].
  split; [apply Booster_getNumClasses_one_call, Hb |].
  split; [apply Booster_predict_one_call, Hb |].
  apply Booster_loadModel_one_call.
Qed.

(** The two passes of [saveModel]. *)
Lemma Booster_saveModel_exact (b : Booster) (w : world) :
  b_freed b = false -> loaded w = true ->
  let h := default 0 (b_handle b) in
  let r1 := response_to w (BoosterSaveModel h 0 false) in
  let w1 := after_call w (BoosterSaveModel h 0 false) in
  let second := BoosterSaveModel h (out_i32 r1) true in
  let r2 := response_to w1 second in
  let w2 := after_call w1 second in
  Booster_saveModel b w
  = if failed r1
    then (Err (NativeCallFailure "Booster saveModel (size query)"
                 (out_text (response_to w1 GetLastError))),
          after_call w1 GetLastError)
    else if failed r2
    then (Err (NativeCallFailure "Booster saveModel"
                 (out_text (response_to w2 GetLastError))),
          after_call w2 GetLastError)
    else (Ok (out_text r2), w2).
Proof.
  intros Hb Hl. cbv zeta.
  unfold Booster_saveModel, Booster_handle, getLastError, bind, getWasm,
    malloc, native, ret, throw, after_call, response_to.
  rewrite Hb. heap_crunch; try congruence;
    repeat f_equal; solve [congruence | set_solver].
Qed.

(** X4.  [saveModel] on a booster that is not disposed, in a loaded
    module, asks twice: the first call passes a buffer length of 0 and
    no buffer, and the second call passes the length the first one
    reported.  If the size query fails the second call is not made.
    Each failure is thrown under its own name with the engine's last
    error message, and in every case the heap ends as it began. *)
Theorem saveModel_two_passes (b : Booster) (w : world) :
  b_freed b = false -> loaded w = true ->
  let h := default 0 (b_handle b) in
  let r1 := response_to w (BoosterSaveModel h 0 false) in
  let w1 := after_call w (BoosterSaveModel h 0 false) in
  let second := BoosterSaveModel h (out_i32 r1) true in
  let r2 := response_to w1 second in
  let w2 := after_call w1 second in
  Booster_saveModel b w
  = if failed r1
    then (Err (NativeCallFailure "Booster saveModel (size query)"
                 (out_text (response_to w1 GetLastError))),
          after_call w1 GetLastError)
    else if failed r2
    then (Err (NativeCallFailure "Booster saveModel"
                 (out_text (response_to w2 GetLastError))),
          after_call w2 GetLastError)
    else (Ok (out_text r2), w2).
Proof. exact (Booster_saveModel_exact b w). Qed.

(** * Releasing handles *)

Lemma Booster_dispose_live b w :
  b_freed b = false -> loaded w = true ->
  Booster_dispose (b, w)
  = (Ok tt, (disposed_booster,
             after_call w (BoosterFree (default 0 (b_handle b))))).
Proof.
  intros Hb Hl.
  unfold Booster_dispose, bind, gets, modify, lift, getWasm, native, ret,
    after_call, response_to; simpl.
  rewrite Hb; simpl. rewrite Hl; simpl.
  destruct (estep (eng w) (BoosterFree (default 0 (b_handle b)))); simpl.
  rewrite ?Hl. reflexivity.
Qed.

Lemma Booster_dispose_again b w :
  b_freed b = true -> Booster_dispose (b, w) = (Ok tt, (b, w)).
Proof.
  intros Hb. unfold Booster_dispose, bind, gets, ret; simpl.
  rewrite Hb. reflexivity.
Qed.

Lemma Dataset_dispose_live d w :
  d_freed d = false -> loaded w = true ->
  Dataset_dispose (d, w)
  = (Ok tt, (disposed_dataset,
             after_call w (DatasetFree (default 0 (d_handle d))))).
Proof.
  intros Hd Hl.
  unfold Dataset_dispose, bind, gets, modify, lift, getWasm, native, ret,
    after_call, response_to; simpl.
  rewrite Hd; simpl. rewrite Hl; simpl.
  destruct (estep (eng w) (DatasetFree (default 0 (d_handle d)))); simpl.
  rewrite ?Hl. reflexivity.
Qed.

(** X5.  [dispose] of a booster or a dataset that is not disposed, in a
    loaded module, makes one call of the engine's free function on the
    handle and never throws, whatever status that call reports; the
    object is then disposed and holds no handle, a second [dispose] does
    nothing at all, and the [handle] getter throws. *)
Theorem dispose_frees_once (b : Booster) (d : Dataset) (w : world) :
  b_freed b = false -> d_freed d = false -> loaded w = true ->
  let wb := after_call w (BoosterFree (default 0 (b_handle b))) in
  let wd := after_call w (DatasetFree (default 0 (d_handle d))) in
  Booster_dispose (b, w) = (Ok tt, (disposed_booster, wb))
  /\ Booster_dispose (disposed_booster, wb) = (Ok tt, (disposed_booster, wb))
  /\ Booster_handle disposed_booster wb = (Err (HandleDisposed "Booster"), wb)
  /\ Dataset_dispose (d, w) = (Ok tt, (disposed_dataset, wd))
  /\ Dataset_dispose (disposed_dataset, wd) = (Ok tt, (disposed_dataset, wd))
  /\ Dataset_handle disposed_dataset wd = (Err (HandleDisposed "Dataset"), wd).
Proof.
  intros Hb Hd Hl. cbv zeta.
  split; [apply Booster_dispose_live; assumption |].
  split; [reflexivity |]. split; [reflexivity |].
  split; [apply Dataset_dispose_live; assumption |].
  split; reflexivity.
Qed.

(** * Strings on the heap *)

(** X6.  [withCString] hands its callback an address that was not live
    before, returns what the callback returns and throws what it throws,
    and frees the address in both cases: if the callback leaves the
    heap as it found it, so does [withCString]. *)
Theorem withCString_passes_and_frees {A} (str : string)
    (fn : positive -> M world A) (w : world) :
  (forall p, balanced (fn p)) ->
  let p := fresh (live w) in
  let w1 := snd (malloc (S (String.length str)) w) in
  (p ∉ live w)
  /\ live w1 = {[p]} ∪ live w
  /\ fst (withCString str fn w) = fst (fn p w1)
  /\ calls (snd (withCString str fn w)) = calls (snd (fn p w1))
  /\ eng (snd (withCString str fn w)) = eng (snd (fn p w1))
  /\ live (snd (withCString str fn w)) = live w
  /\ stray_frees (snd (withCString str fn w)) = stray_frees w.
Proof.
  intros Hfn. cbv zeta.
  split; [apply is_fresh |]. split; [reflexivity |].
  destruct (withCString_balanced str fn Hfn w) as [Hlive Hstray].
  rewrite Hlive, Hstray.
  unfold withCString, finally, bind, malloc. simpl.
  pose proof (is_fresh (live w)) as Hp. set (p := fresh (live w)) in *.
  match goal with
  | |- context [fn p ?w1] =>
      destruct (Hfn p w1) as [Hl1 Hs1]; destruct (fn p w1) as [r w2]
  end.
  simpl in *. rewrite free_live by (rewrite Hl1; set_solver). simpl.
  repeat split; reflexivity.
Qed.

(** * The end of a model *)

(** What [dispose] of a model does. *)
Lemma dispose_exact (m : LGBModel) (w : world) (X : matrix_input)
    (y : list number) :
  freed m = false -> loaded w = true ->
  (forall b, booster m = Some b -> b_freed b = false) ->
  let w' := match booster m with
            | Some b => after_call w (BoosterFree (default 0 (b_handle b)))
            | None => w
            end in
  let m' := {| booster := None; freed := true; params := params m;
               fitted := false; nrClass := nrClass m;
               classes := classes m |} in
  dispose (m, w) = (Ok tt, (m', w'))
  /\ dispose (m', w') = (Ok tt, (m', w'))
  /\ isFitted m' = false
  /\ probaDim m' = O
  /\ get_classes m' = get_classes m
  /\ getParams m' = getParams m
  /\ fit X y (m', w') = (Err DisposedError, (m', w')).
Proof.
  intros Hf Hl Hb. cbv zeta.
  split; [| repeat split].
  unfold dispose, bind, this, gets, update_this, modify; simpl.
  rewrite Hf; simpl.
  destruct (booster m) as [b|] eqn:Hbm; simpl.
  - rewrite (Booster_dispose_live b w (Hb b eq_refl) Hl). reflexivity.
  - reflexivity.
Qed.

(** X7.  [dispose] of a model that is not disposed, in a loaded module:
    the model's booster, if it has one, is freed with one call of
    [wl_lgb_booster_free] and no other call is made; the model is then
    disposed, not fitted and without a booster, while its
    hyperparameters, class count and class list stay as they were.  A
    second [dispose] does nothing, [isFitted] is false, [probaDim] is 0,
    and [fit] throws DisposedError without touching anything. *)
Theorem model_dispose_is_final (m : LGBModel) (w : world) (X : matrix_input)
    (y : list number) :
  freed m = false -> loaded w = true ->
  (forall b, booster m = Some b -> b_freed b = false) ->
  let w' := match booster m with
            | Some b => after_call w (BoosterFree (default 0 (b_handle b)))
            | None => w
            end in
  let m' := {| booster := None; freed := true; params := params m;
               fitted := false; nrClass := nrClass m;
               classes := classes m |} in
  dispose (m, w) = (Ok tt, (m', w'))
  /\ dispose (m', w') = (Ok tt, (m', w'))
  /\ isFitted m' = false
  /\ probaDim m' = O
  /\ get_classes m' = get_classes m
  /\ getParams m' = getParams m
  /\ fit X y (m', w') = (Err DisposedError, (m', w')).
Proof. exact (dispose_exact m w X y). Qed.

(** * Training, call by call *)

Lemma after_call_loaded w r : loaded (after_call w r) = loaded w.
Proof. reflexivity. Qed.

(** The update loop on a live booster: it either makes [n] successful
    updates, or stops at the first update that fails and reads the
    error message. *)
Lemma update_loop_exact n b : forall w,
  b_freed b = false -> loaded w = true ->
  let res := repeatM n (Booster_update b) w in
  let h := default 0 (b_handle b) in
  loaded (snd res) = true /\ live (snd res) = live w
  /\ stray_frees (snd res) = stray_frees w
  /\ ((fst res = Ok tt
       /\ exists ups, calls (snd res) = ups ++ calls w
                      /\ length ups = n /\ Forall (update_ok h) ups)
      \/ (exists msg ups rbad rmsg,
            fst res = Err (NativeCallFailure "Booster update" msg)
            /\ calls (snd res)
               = (GetLastError, rmsg) :: (BoosterUpdate h, rbad)
                 :: ups ++ calls w
            /\ failed rbad = true /\ (length ups < n)%nat
            /\ Forall (update_ok h) ups)).
Proof.
  induction n as [|n IH]; intros w Hb Hl; cbv zeta.
  - simpl. repeat split; auto. left. split; [reflexivity |].
    exists []. repeat split; auto.
  - simpl repeatM. unfold bind.
    rewrite (Booster_update_one_call b Hb w Hl).
    set (req := BoosterUpdate (default 0 (b_handle b))).
    destruct (failed (response_to w req)) eqn:Hf.
    + simpl. repeat split; auto. right.
      exists (out_text (response_to (after_call w req) GetLastError)), [],
        (response_to w req), (response_to (after_call w req) GetLastError).
      repeat split; auto. simpl; lia.
    + destruct (IH (after_call w req) Hb Hl) as (H1 & H2 & H3 & H4).
      cbv zeta in *. split; [exact H1 |]. split; [exact H2 |].
      split; [exact H3 |].
      destruct H4 as [(Hr & ups & Hc & Hn & Hall)
                     |(msg & ups & rbad & rmsg & Hr & Hc & Hbad & Hn & Hall)].
      * left. split; [exact Hr |].
        exists (ups ++ [(req, response_to w req)]).
        rewrite Hc, <- app_assoc, length_app. simpl.
        repeat split; [lia |].
        apply Forall_app. split; [exact Hall |].
        constructor; [split; [reflexivity | exact Hf] | constructor].
      * right. exists msg, (ups ++ [(req, response_to w req)]), rbad, rmsg.
        rewrite Hc, <- app_assoc, length_app. simpl.
        repeat split; auto; [lia |].
        apply Forall_app. split; [exact Hall |].
        constructor; [split; [reflexivity | exact Hf] | constructor].
Qed.

(** The training block in a loaded module.  When it returns, it has made
    exactly the calls of [training_calls] and the booster holds the
    handle the engine created; when it throws, it throws a native
    failure and has freed nothing, although every failure but that of
    the dataset's creation comes after a dataset was created. *)
Lemma train_exact xData rows cols yTrain ps nr w :
  loaded w = true ->
  let res := train xData rows cols yTrain ps nr w in
  loaded (snd res) = true /\ live (snd res) = live w
  /\ stray_frees (snd res) = stray_frees w
  /\ exists new,
       calls (snd res) = new ++ calls w
       /\ match fst res with
          | Ok b =>
              exists rd rl rb rf ups,
                new = training_calls xData rows cols yTrain ps rd rl rb rf ups
                /\ b = {| b_handle := Some (out_i32 rb); b_freed := false |}
                /\ length ups = loop_count (ToNumber nr)
                /\ Forall (update_ok (out_i32 rb)) ups
                /\ failed rd = false /\ failed rl = false
                /\ failed rb = false
          | Err e =>
              (exists op msg, e = NativeCallFailure op msg)
              /\ Forall (fun c => no_release (fst c)) new
              /\ (e = NativeCallFailure "Dataset creation"
                        (out_text (response_to
                           (after_call w
                              (DatasetCreateFromMat xData rows cols ps))
                           GetLastError))
                  \/ exists rd,
                       In (DatasetCreateFromMat xData rows cols ps, rd) new
                       /\ failed rd = false)
          end.
Proof.
  intros Hl. cbv zeta. unfold train, bind.
  rewrite (Dataset_new_one_call xData rows cols ps w Hl).
  set (q1 := DatasetCreateFromMat xData rows cols ps).
  set (rd := response_to w q1). set (w1 := after_call w q1).
  destruct (failed rd) eqn:Hfd.
  { simpl. repeat split; auto.
    eexists [_; _]. split; [reflexivity |]. split; [eauto |].
    split; [repeat constructor | now left]. }
  rewrite (Dataset_setLabel_one_call
             {| d_handle := Some (out_i32 rd); d_freed := false |}
             yTrain eq_refl w1 Hl).
  simpl default.
  set (q2 := DatasetSetField (out_i32 rd) "label" yTrain 0).
  set (rl := response_to w1 q2). set (w2 := after_call w1 q2).
  destruct (failed rl) eqn:Hfl.
  { simpl. repeat split; auto.
    eexists [_; _; _]. split; [reflexivity |]. split; [eauto |].
    split; [repeat constructor |]. right. exists rd.
    split; [right; right; now left | exact Hfd]. }
  unfold Dataset_handle at 1. simpl. unfold ret at 1.
  rewrite (Booster_new_one_call (out_i32 rd) ps w2 Hl).
  set (q3 := BoosterCreate (out_i32 rd) ps).
  set (rb := response_to w2 q3). set (w3 := after_call w2 q3).
  destruct (failed rb) eqn:Hfb.
  { simpl. repeat split; auto.
    eexists [_; _; _; _]. split; [reflexivity |]. split; [eauto |].
    split; [repeat constructor |]. right. exists rd.
    split; [right; right; right; now left | exact Hfd]. }
  set (bst := {| b_handle := Some (out_i32 rb); b_freed := false |}).
  destruct (update_loop_exact (loop_count (ToNumber nr)) bst w3 eq_refl Hl)
    as (H1 & H2 & H3 & H4). cbv zeta in H1, H2, H3, H4.
  destruct (repeatM (loop_count (ToNumber nr)) (Booster_update bst) w3)
    as [r4 w4]. simpl in H1, H2, H3, H4.
  destruct H4 as [(-> & ups & Hc & Hn & Hall)
                 |(msg & ups & rbad & rmsg & -> & Hc & Hbad & Hn & Hall)].
  - unfold with_object.
    rewrite (Dataset_dispose_live
               {| d_handle := Some (out_i32 rd); d_freed := false |}
               w4 eq_refl H1).
    simpl. rewrite H2, H3. repeat split; auto.
    eexists. split.
    + rewrite Hc. unfold w3, w2, w1. simpl.
      instantiate (1 := training_calls xData rows cols yTrain ps rd rl rb
                          (response_to w4 (DatasetFree (out_i32 rd))) ups).
      unfold training_calls. simpl. rewrite <- app_assoc. reflexivity.
    + exists rd, rl, rb, (response_to w4 (DatasetFree (out_i32 rd))), ups.
      repeat split; auto.
  - simpl. rewrite H2, H3. repeat split; auto.
    eexists. split.
    + rewrite Hc. unfold w3, w2, w1. simpl.
      instantiate (1 := (GetLastError, rmsg) :: (BoosterUpdate (out_i32 rb), rbad)
                        :: ups ++ [(q3, rb); (q2, rl); (q1, rd)]).
      simpl. rewrite <- app_assoc. reflexivity.
    + split; [eauto |]. split.
      * constructor; [exact I |]. constructor; [exact I |].
        apply Forall_app. split; [| repeat constructor].
        eapply Forall_impl; [exact Hall |].
        intros c [Hc' _]. rewrite Hc'. exact I.
      * right. exists rd. split; [| exact Hfd].
        right. right. apply in_or_app. right. right. right. now left.
Qed.

(** * [fit], case by case *)

Lemma dispose_previous_exact m w :
  loaded w = true ->
  (forall b, booster m = Some b -> b_freed b = false) ->
  dispose_previous (m, w) = (Ok tt, (with_booster None m, after_release m w)).
Proof.
  intros Hl Hb. unfold dispose_previous, after_release; simpl.
  destruct (booster m) as [b|] eqn:Hbm.
  - rewrite (Booster_dispose_live b w (Hb b eq_refl) Hl). reflexivity.
  - rewrite with_booster_None by exact Hbm. reflexivity.
Qed.

Lemma resolveTask_cases y m w :
  (exists m1, resolveTask y (m, w) = (Ok tt, (m1, w))
              /\ booster m1 = booster m /\ freed m1 = freed m
              /\ fitted m1 = fitted m /\ nrClass m1 = nrClass m
              /\ classes m1 = classes m)
  \/ (exists e, resolveTask y (m, w) = (Err e, (m, w)) /\ task_error e).
Proof.
  unfold resolveTask, bind, this, gets, update_this, modify, throw, ret,
    task_error; simpl.
  repeat match goal with
         | |- context [if ?c then _ else _] => destruct c
         end;
    try (left; eexists; split; [reflexivity |]; repeat split; reflexivity);
    right; eexists; split; [reflexivity | eauto | reflexivity | eauto].
Qed.

(** What [fit] does on a model that is not disposed, once the task is
    resolved: the result of each step in turn. *)
Lemma fit_cases X y m w m1 :
  loaded w = true ->
  (forall b, booster m = Some b -> b_freed b = false) ->
  freed m = false ->
  resolveTask y (m, w) = (Ok tt, (m1, w)) ->
  booster m1 = booster m ->
  let w1 := after_release m w in
  let m2 := with_booster None m1 in
  let obj := objective_of (params m1) in
  fit X y (m, w)
  = match normalizeX X with
    | Err e => (Err e, (m2, w1))
    | Ok (xData, rows, cols) =>
        match encode_labels obj y with
        | Err e => (Err e, (m2, w1))
        | Ok (nc, cls, yTrain) =>
            let m3 := with_classes nc cls m2 in
            if negb (length yTrain =? rows)%nat
            then (Err (LengthMismatch (length yTrain) rows), (m3, w1))
            else
              match train xData rows cols yTrain
                      (paramStr_of (lgbParams_of (params m1) obj nc))
                      (numRound_of (params m1)) w1 with
              | (Ok b, w2) =>
                  (Ok tt, (with_fitted true (with_booster (Some b) m3), w2))
              | (Err e, w2) => (Err e, (m3, w2))
              end
        end
    end.
Proof.
  intros Hl Hb Hf Hr Hbm. cbv zeta. unfold fit.
  rewrite (bind_ok _ _ (m, w) tt (m, w))
    by (unfold ensureNotDisposed, bind, this, gets; simpl; now rewrite Hf).
  rewrite (bind_ok _ _ (m, w) tt (m1, w)) by exact Hr.
  rewrite (bind_ok _ _ (m1, w) tt (with_booster None m1, after_release m w)).
  2:{ rewrite (dispose_previous_exact m1 w Hl)
        by (intros b Hb1; apply Hb; congruence).
      unfold after_release. now rewrite Hbm. }
  destruct (normalizeX X) as [[[xData rows] cols]|e];
    [| apply bind_err; reflexivity].
  rewrite (bind_ok _ _ _ (xData, rows, cols)
             (with_booster None m1, after_release m w)) by reflexivity.
  rewrite (bind_ok _ _ _ (params m1)
             (with_booster None m1, after_release m w)) by reflexivity.
  unfold normalizeY. fold (objective_of (params m1)).
  fold (numRound_of (params m1)).
  destruct (encode_labels (objective_of (params m1)) y)
    as [[[nc cls] yTrain]|e]; [| apply bind_err; reflexivity].
  rewrite (bind_ok _ _ _ (nc, cls, yTrain)
             (with_booster None m1, after_release m w)) by reflexivity.
  rewrite (bind_ok _ _ _ tt
             (with_classes nc cls (with_booster None m1), after_release m w))
    by reflexivity.
  destruct (length yTrain =? rows)%nat; cbn [negb];
    [| reflexivity].
  rewrite (bind_ok _ _ _ nc
             (with_classes nc cls (with_booster None m1), after_release m w))
    by reflexivity.
  unfold bind at 1, lift at 1; simpl snd; simpl fst.
  destruct (train xData rows cols yTrain
              (paramStr_of (lgbParams_of (params m1)
                              (objective_of (params m1)) nc))
              (numRound_of (params m1)) (after_release m w)) as [[b|e] w2];
    reflexivity.
Qed.

Lemma fit_disposed X y m w :
  freed m = true -> fit X y (m, w) = (Err DisposedError, (m, w)).
Proof.
  intros Hf. unfold fit. apply bind_err.
  unfold ensureNotDisposed, bind, this, gets; simpl. now rewrite Hf.
Qed.

Lemma fit_task_error X y m w e :
  freed m = false -> resolveTask y (m, w) = (Err e, (m, w)) ->
  fit X y (m, w) = (Err e, (m, w)).
Proof.
  intros Hf Hr. unfold fit.
  rewrite (bind_ok _ _ (m, w) tt (m, w))
    by (unfold ensureNotDisposed, bind, this, gets; simpl; now rewrite Hf).
  apply bind_err. exact Hr.
Qed.

(** The calls of a [fit] that returns. *)
Lemma fit_ok_calls (X : matrix_input) (y : list number)
    (m m' : LGBModel) (w w' : world) :
  loaded w = true ->
  (forall b, booster m = Some b -> b_freed b = false) ->
  fit X y (m, w) = (Ok tt, (m', w')) ->
  let obj := objective_of (params m') in
  let ps := paramStr_of (lgbParams_of (params m') obj (nrClass m')) in
  exists xData rows cols yTrain rd rl rb rf ups,
    normalizeX X = Ok (xData, rows, cols)
    /\ encode_labels obj y = Ok (nrClass m', classes m', yTrain)
    /\ length yTrain = rows
    /\ calls w'
       = training_calls xData rows cols yTrain ps rd rl rb rf ups
         ++ previous_release m w ++ calls w
    /\ length ups = loop_count (ToNumber (numRound_of (params m')))
    /\ Forall (update_ok (out_i32 rb)) ups
    /\ failed rd = false /\ failed rl = false /\ failed rb = false
    /\ booster m' = Some {| b_handle := Some (out_i32 rb); b_freed := false |}
    /\ fitted m' = true
    /\ live w' = live w /\ stray_frees w' = stray_frees w.
Proof.
  intros Hl Hb H. cbv zeta.
  destruct (freed m) eqn:Hf; [rewrite fit_disposed in H by exact Hf; discriminate |].
  destruct (resolveTask_cases y m w)
    as [(m1 & Hr & Hbm & _)|(e & Hr & _)];
    [| rewrite (fit_task_error X y m w e Hf Hr) in H; discriminate].
  rewrite (fit_cases X y m w m1 Hl Hb Hf Hr Hbm) in H. cbv zeta in H.
  destruct (normalizeX X) as [[[xData rows] cols]|e]; [| discriminate].
  destruct (encode_labels (objective_of (params m1)) y)
    as [[[nc cls] yTrain]|e] eqn:He; [| discriminate].
  destruct (length yTrain =? rows)%nat eqn:Hlen; cbn [negb] in H;
    [| discriminate].
  apply Nat.eqb_eq in Hlen.
  assert (Hl1 : loaded (after_release m w) = true).
  { unfold after_release. destruct (booster m); exact Hl. }
  pose proof (train_exact xData rows cols yTrain
                (paramStr_of (lgbParams_of (params m1)
                                (objective_of (params m1)) nc))
                (numRound_of (params m1)) (after_release m w) Hl1) as Ht.
  cbv zeta in Ht.
  destruct (train xData rows cols yTrain
              (paramStr_of (lgbParams_of (params m1)
                              (objective_of (params m1)) nc))
              (numRound_of (params m1)) (after_release m w)) as [[b|e] w2];
    [| discriminate].
  injection H as <- <-. simpl in Ht |- *.
  destruct Ht as (_ & Hlive & Hstray & new & Hc
                  & rd & rl & rb & rf & ups & -> & -> & Hn & Hall
                  & Hfd & Hfl & Hfb).
  exists xData, rows, cols, yTrain, rd, rl, rb, rf, ups.
  split; [reflexivity |]. split; [exact He |]. split; [exact Hlen |].
  split.
  { rewrite Hc. f_equal. unfold after_release, previous_release.
    destruct (booster m); reflexivity. }
  split; [exact Hn |]. split; [exact Hall |].
  split; [exact Hfd |]. split; [exact Hfl |]. split; [exact Hfb |].
  split; [reflexivity |]. split; [reflexivity |].
  rewrite Hlive, Hstray. unfold after_release.
  destruct (booster m); split; reflexivity.
Qed.

(** X8.  A call of [fit] that returns, in a loaded module, on a model
    whose booster (if any) is not disposed, has made these native calls
    and no others, in this order: it freed the previous booster if the
    model had one; it created a dataset from the normalized matrix with
    the parameter string, labelled it with the encoded labels, created
    a booster on it, updated that booster once per round, every update
    reporting success, and freed the dataset.  The model then holds the
    booster the engine created, and the heap is as it was before the
    call. *)
Theorem fit_call_sequence (X : matrix_input) (y : list number)
    (m m' : LGBModel) (w w' : world) :
  loaded w = true ->
  (forall b, booster m = Some b -> b_freed b = false) ->
  fit X y (m, w) = (Ok tt, (m', w')) ->
  let obj := objective_of (params m') in
  let ps := paramStr_of (lgbParams_of (params m') obj (nrClass m')) in
  exists xData rows cols yTrain rd rl rb rf ups,
    normalizeX X = Ok (xData, rows, cols)
    /\ encode_labels obj y = Ok (nrClass m', classes m', yTrain)
    /\ length yTrain = rows
    /\ calls w'
       = training_calls xData rows cols yTrain ps rd rl rb rf ups
         ++ previous_release m w ++ calls w
    /\ length ups = loop_count (ToNumber (numRound_of (params m')))
    /\ Forall (update_ok (out_i32 rb)) ups
    /\ failed rd = false /\ failed rl = false /\ failed rb = false
    /\ booster m' = Some {| b_handle := Some (out_i32 rb); b_freed := false |}
    /\ fitted m' = true
    /\ live w' = live w /\ stray_frees w' = stray_frees w.
Proof. exact (fit_ok_calls X y m m' w w'). Qed.

Lemma collect_labels_error y : forall i acc e,
  collect_labels y i acc = Err e -> exists v j, e = LabelNotInteger v j.
Proof.
  induction y as [|v y IH]; intros i acc e H; simpl in H; [discriminate |].
  destruct v; try (injection H as <-; eauto); eauto.
Qed.

Lemma encode_labels_error obj y e :
  encode_labels obj y = Err e -> exists v j, e = LabelNotInteger v j.
Proof.
  unfold encode_labels. destruct (has CLASSIFIER_OBJECTIVES obj);
    [| discriminate].
  destruct (collect_labels y 0 []) eqn:Hc; [discriminate |].
  intros H; injection H as <-. eapply collect_labels_error, Hc.
Qed.

Lemma normalizeX_error X e : normalizeX X = Err e -> e = UnsupportedX.
Proof.
  destruct X as [d r c|[|r0 X]|]; simpl; intros H; try discriminate;
    now injection H.
Qed.

Lemma after_release_heap m w :
  loaded (after_release m w) = loaded w
  /\ live (after_release m w) = live w
  /\ stray_frees (after_release m w) = stray_frees w
  /\ calls (after_release m w) = previous_release m w ++ calls w.
Proof.
  unfold after_release, previous_release.
  destruct (booster m); repeat split; reflexivity.
Qed.

(** Every way in which [fit] throws, in the order of the code. *)
Lemma fit_error_cases X y m w e m' w' :
  loaded w = true ->
  (forall b, booster m = Some b -> b_freed b = false) ->
  fit X y (m, w) = (Err e, (m', w')) ->
  (freed m = true /\ e = DisposedError /\ m' = m /\ w' = w)
  \/ (freed m = false /\ task_error e /\ m' = m /\ w' = w)
  \/ (freed m = false /\ input_error e /\ w' = after_release m w
      /\ booster m' = None /\ fitted m' = fitted m /\ freed m' = false)
  \/ (freed m = false
      /\ (exists op msg, e = NativeCallFailure op msg)
      /\ booster m' = None /\ fitted m' = fitted m /\ freed m' = false
      /\ live w' = live w /\ stray_frees w' = stray_frees w
      /\ exists new,
           calls w' = new ++ previous_release m w ++ calls w
           /\ Forall (fun c => no_release (fst c)) new
           /\ ((exists msg, e = NativeCallFailure "Dataset creation" msg)
               \/ exists xData rows cols ps rd,
                    In (DatasetCreateFromMat xData rows cols ps, rd) new
                    /\ failed rd = false)).
Proof.
  intros Hl Hb H.
  destruct (freed m) eqn:Hf.
  { rewrite fit_disposed in H by exact Hf. injection H as <- <- <-.
    left. auto. }
  destruct (resolveTask_cases y m w)
    as [(m1 & Hr & Hbm & Hfr & Hft & _)|(e0 & Hr & He0)].
  2:{ rewrite (fit_task_error X y m w e0 Hf Hr) in H.
      injection H as <- <- <-. right; left. auto. }
  rewrite (fit_cases X y m w m1 Hl Hb Hf Hr Hbm) in H. cbv zeta in H.
  destruct (after_release_heap m w) as (Hl1 & Hlive & Hstray & Hcalls).
  destruct (normalizeX X) as [[[xData rows] cols]|e1] eqn:HX.
  2:{ injection H as <- <- <-. apply normalizeX_error in HX. subst e1.
      right; right; left. unfold input_error. simpl.
      repeat split; auto; congruence. }
  destruct (encode_labels (objective_of (params m1)) y)
    as [[[nc cls] yTrain]|e1] eqn:He.
  2:{ injection H as <- <- <-. apply encode_labels_error in He.
      right; right; left. unfold input_error. simpl.
      repeat split; auto; congruence. }
  destruct (length yTrain =? rows)%nat eqn:Hlen; cbn [negb] in H.
  2:{ injection H as <- <- <-.
      right; right; left. unfold input_error. simpl.
      repeat split; eauto; congruence. }
  rewrite <- Hl1 in Hl.
  pose proof (train_exact xData rows cols yTrain
                (paramStr_of (lgbParams_of (params m1)
                                (objective_of (params m1)) nc))
                (numRound_of (params m1)) (after_release m w) Hl) as Ht.
  cbv zeta in Ht.
  destruct (train xData rows cols yTrain
              (paramStr_of (lgbParams_of (params m1)
                              (objective_of (params m1)) nc))
              (numRound_of (params m1)) (after_release m w)) as [[b|e1] w2];
    [discriminate |].
  injection H as <- <- <-. simpl in Ht.
  destruct Ht as (_ & Hlive2 & Hstray2 & new & Hc & Hop & Hall & Hds).
  right; right; right. simpl.
  split; [reflexivity |]. split; [exact Hop |].
  split; [reflexivity |]. split; [exact Hft |]. split; [congruence |].
  split; [congruence |]. split; [congruence |].
  exists new. split; [rewrite Hc, Hcalls; reflexivity |].
  split; [exact Hall |].
  destruct Hds as [->|(rd & Hin & Hfd)]; [left; eauto |].
  right. eauto 8.
Qed.

Ltac err_clash :=
  unfold task_error, input_error in *;
  repeat match goal with
         | H : _ \/ _ |- _ => destruct H
         | H : exists _, _ |- _ => destruct H
         | H : _ /\ _ |- _ => destruct H
         end;
  subst; try discriminate; try congruence.

(** X9.  When the training inside [fit] fails, nothing that was created
    is freed: after the free of the previous booster, no call of
    [wl_lgb_dataset_free] or [wl_lgb_booster_free] is made, although
    every failure but that of the dataset's creation comes after the
    engine has created a dataset.  The error is rethrown, the model is
    left without a booster while its fitted flag stays as it was, and
    the heap is as before the call. *)
Theorem failed_training_frees_nothing (X : matrix_input) (y : list number)
    (m m' : LGBModel) (w w' : world) (op msg : string) :
  loaded w = true ->
  (forall b, booster m = Some b -> b_freed b = false) ->
  fit X y (m, w) = (Err (NativeCallFailure op msg), (m', w')) ->
  booster m' = None /\ fitted m' = fitted m
  /\ live w' = live w /\ stray_frees w' = stray_frees w
  /\ exists new,
       calls w' = new ++ previous_release m w ++ calls w
       /\ Forall (fun c => no_release (fst c)) new
       /\ (op <> "Dataset creation" ->
           exists xData rows cols ps rd,
             In (DatasetCreateFromMat xData rows cols ps, rd) new
             /\ failed rd = false).
Proof.
  intros Hl Hb H.
  destruct (fit_error_cases X y m w _ m' w' Hl Hb H)
    as [(_ & He & _)|[(_ & He & _)|[(_ & He & _)|
        (_ & _ & Hbm & Hft & _ & Hlive & Hstray & new & Hc & Hall & Hds)]]];
    [discriminate | err_clash | err_clash |].
  repeat split; auto. exists new. repeat split; auto.
  intros Hop. destruct Hds as [[msg' He]|Hds]; [| exact Hds].
  injection He as Hop' _. contradiction.
Qed.


(** X11.  A refit that fails after the task is resolved breaks the
    model: it is still fitted as far as [isFitted] and the guards of
    [predict] and [save] can tell, but it has no booster, so [predict]
    on any well-formed matrix and [save] throw the error of a property
    access on null instead of NotFittedError. *)
Theorem failed_refit_breaks_model (X : matrix_input) (y : list number)
    (m m' : LGBModel) (w w' : world) (e : error) :
  loaded w = true ->
  (forall b, booster m = Some b -> b_freed b = false) ->
  freed m = false -> fitted m = true ->
  fit X y (m, w) = (Err e, (m', w')) ->
  ~ task_error e ->
  isFitted m' = true /\ booster m' = None
  /\ (forall X' d r c, normalizeX X' = Ok (d, r, c) ->
        predict X' (m', w') = (Err NullDereference, (m', w')))
  /\ save (m', w') = (Err NullDereference, (m', w')).
Proof.
  intros Hl Hb Hf Hft H Hnt.
  assert (Hm : booster m' = None /\ fitted m' = true /\ freed m' = false).
  { destruct (fit_error_cases X y m w _ m' w' Hl Hb H)
      as [(Hf' & _)|[(_ & He & _)|[(_ & _ & _ & Hbm & Hft' & Hfr)|
          (_ & _ & Hbm & Hft' & Hfr & _)]]];
      [congruence | contradiction | |]; repeat split; congruence. }
  destruct Hm as (Hbm & Hft' & Hfr).
  pose proof (ensureFitted_fitted m' w' Hfr Hft') as Hg.
  split; [unfold isFitted; now rewrite Hft', Hfr |].
  split; [exact Hbm |]. split.
  - intros X' d r c HX. unfold predict.
    rewrite (bind_ok _ _ _ tt (m', w') Hg).
    rewrite (bind_ok _ _ _ (d, r, c) (m', w'))
      by (unfold liftR; now rewrite HX).
    apply bind_err. unfold booster_predict, bind, this, gets; simpl.
    now rewrite Hbm.
  - unfold save. rewrite (bind_ok _ _ _ tt (m', w') Hg).
    unfold bind, this, gets; simpl. now rewrite Hbm.
Qed.

(** * The parameters handed to the engine *)

Lemma get_filter_keys (ws : list string) k p :
  get k (List.filter (fun kv => negb (existsb (String.eqb (fst kv)) ws)) p)
  = if existsb (String.eqb k) ws then None else get k p.
Proof.
  induction p as [|[k' v] p IH]; simpl.
  - now destruct (existsb (String.eqb k) ws).
  - destruct (String.eqb k' k) eqn:E.
    + apply String.eqb_eq in E. subst k'.
      destruct (existsb (String.eqb k) ws) eqn:Hk; simpl.
      * exact IH.
      * now rewrite String.eqb_refl.
    + destruct (existsb (String.eqb k') ws); simpl.
      * exact IH.
      * rewrite E. exact IH.
Qed.

Lemma get_set k k' v p :
  get k' (set k v p) = if String.eqb k k' then Some v else get k' p.
Proof.
  destruct (String.eqb k k') eqn:E.
  - apply String.eqb_eq in E. subst. apply get_set_eq.
  - apply get_set_ne. intros ->. now rewrite String.eqb_refl in E.
Qed.

(** Looking up a key in the engine's parameter object. *)
Lemma get_lgbParams k p obj nc :
  get k (lgbParams_of p obj nc)
  = if existsb (String.eqb k) WLEARN_PARAMS then None
    else match get k p with
         | Some v => Some v
         | None =>
             if String.eqb "objective" k then Some obj
             else if String.eqb "verbosity" k then Some (VNum (Int (-1)))
             else if String.eqb "num_class" k
                     && (is_str obj "multiclass" || is_str obj "multiclassova")
                     && (0 <? nc)%nat
             then Some (VNum (Int (Z.of_nat nc)))
             else None
         end.
Proof.
  unfold lgbParams_of. cbv zeta.
  set (l0 := List.filter _ p).
  assert (H0 : forall k, get k l0
                = if existsb (String.eqb k) WLEARN_PARAMS then None
                  else get k p) by (intros; apply get_filter_keys).
  set (l1 := if has_key "objective" l0 then l0 else set "objective" obj l0).
  assert (H1 : forall k, get k l1
                = match get k l0 with
                  | Some v => Some v
                  | None => if String.eqb "objective" k then Some obj
                            else None
                  end).
  { intros k0. unfold l1, has_key.
    destruct (get "objective" l0) eqn:Ho.
    - destruct (get k0 l0) eqn:Hk; [reflexivity |].
      destruct (String.eqb "objective" k0) eqn:E; [| reflexivity].
      apply String.eqb_eq in E. subst k0. congruence.
    - rewrite get_set. destruct (String.eqb "objective" k0) eqn:E.
      + apply String.eqb_eq in E. subst k0. now rewrite Ho.
      + now destruct (get k0 l0). }
  set (l2 := if has_key "verbosity" l1 then l1
             else set "verbosity" (VNum (Int (-1))) l1).
  assert (H2 : forall k, get k l2
                = match get k l1 with
                  | Some v => Some v
                  | None => if String.eqb "verbosity" k
                            then Some (VNum (Int (-1))) else None
                  end).
  { intros k0. unfold l2, has_key.
    destruct (get "verbosity" l1) eqn:Ho.
    - destruct (get k0 l1) eqn:Hk; [reflexivity |].
      destruct (String.eqb "verbosity" k0) eqn:E; [| reflexivity].
      apply String.eqb_eq in E. subst k0. congruence.
    - rewrite get_set. destruct (String.eqb "verbosity" k0) eqn:E.
      + apply String.eqb_eq in E. subst k0. now rewrite Ho.
      + now destruct (get k0 l1). }
  assert (H3 : get k (if (is_str obj "multiclass" || is_str obj "multiclassova")
                         && negb (has_key "num_class" l2) && (0 <? nc)%nat
                      then set "num_class" (VNum (Int (Z.of_nat nc))) l2
                      else l2)
               = match get k l2 with
                 | Some v => Some v
                 | None =>
                     if String.eqb "num_class" k
                        && (is_str obj "multiclass" || is_str obj "multiclassova")
                        && (0 <? nc)%nat
                     then Some (VNum (Int (Z.of_nat nc))) else None
                 end).
  { unfold has_key.
    destruct (is_str obj "multiclass" || is_str obj "multiclassova");
      destruct (0 <? nc)%nat;
      rewrite ?andb_false_r, ?andb_true_r; cbn [andb negb];
      try (now destruct (get k l2)).
    destruct (get "num_class" l2) eqn:Ho; cbn [negb].
    - destruct (get k l2) eqn:Hk; [reflexivity |].
      destruct (String.eqb "num_class" k) eqn:E; [| reflexivity].
      apply String.eqb_eq in E. subst k. congruence.
    - rewrite get_set. destruct (String.eqb "num_class" k) eqn:E.
      + apply String.eqb_eq in E. subst k. now rewrite Ho.
      + now destruct (get k l2). }
  rewrite H3, H2, H1, H0.
  destruct (existsb (String.eqb k) WLEARN_PARAMS) eqn:Hk.
  - unfold WLEARN_PARAMS, existsb in Hk.
    rewrite !orb_true_iff, !String.eqb_eq in Hk.
    destruct Hk as [->|[->|[->|Hk]]]; [reflexivity .. | discriminate].
  - destruct (get k p); [reflexivity |].
    destruct (String.eqb "objective" k) eqn:E1; [reflexivity |].
    destruct (String.eqb "verbosity" k) eqn:E2; reflexivity.
Qed.

(** X12.  The parameter object that [fit] hands to the engine: the keys
    [numRound], [coerce] and [task] are never in it; every other key of
    the model's hyperparameters is in it with the value the user gave,
    falsy or not; [objective] defaults to the objective [fit] resolved
    and [verbosity] to -1; [num_class] is added only when the user gave
    none, the objective is multiclass or multiclassova and the class
    count is positive; and no other key is added. *)
Theorem engine_params_forwarding (p : params_t) (obj : value) (nc : nat)
    (k : string) :
  let l := lgbParams_of p obj nc in
  (In k WLEARN_PARAMS -> get k l = None)
  /\ (~ In k WLEARN_PARAMS -> forall v, get k p = Some v -> get k l = Some v)
  /\ (get "objective" p = None -> get "objective" l = Some obj)
  /\ (get "verbosity" p = None -> get "verbosity" l = Some (VNum (Int (-1))))
  /\ (get "num_class" p = None ->
      get "num_class" l
      = if (is_str obj "multiclass" || is_str obj "multiclassova")
           && (0 <? nc)%nat
        then Some (VNum (Int (Z.of_nat nc))) else None)
  /\ (k <> "objective" -> k <> "verbosity" -> k <> "num_class" ->
      get k p = None -> get k l = None).
Proof.
  cbv zeta.
  assert (Hin : forall k, existsb (String.eqb k) WLEARN_PARAMS = true
                          <-> In k WLEARN_PARAMS).
  { intros k0. rewrite existsb_exists. split.
    - intros (x & Hx & E). apply String.eqb_eq in E. now subst.
    - intros H. exists k0. split; [exact H | apply String.eqb_refl]. }
  repeat split.
  - intros H. rewrite get_lgbParams. apply Hin in H. now rewrite H.
  - intros H v Hv. rewrite get_lgbParams, Hv.
    destruct (existsb (String.eqb k) WLEARN_PARAMS) eqn:E; [| reflexivity].
    apply Hin in E. contradiction.
  - intros H. rewrite get_lgbParams, H. reflexivity.
  - intros H. rewrite get_lgbParams, H. reflexivity.
  - intros H. rewrite get_lgbParams, H. simpl.
    now destruct ((is_str obj "multiclass" || is_str obj "multiclassova")
                  && (0 <? nc)%nat).
  - intros H1 H2 H3 H. rewrite get_lgbParams, H.
    destruct (existsb (String.eqb k) WLEARN_PARAMS); [reflexivity |].
    destruct (String.eqb "objective" k) eqn:E1;
      [apply String.eqb_eq in E1; congruence |].
    destruct (String.eqb "verbosity" k) eqn:E2;
      [apply String.eqb_eq in E2; congruence |].
    destruct (String.eqb "num_class" k) eqn:E3;
      [apply String.eqb_eq in E3; congruence |].
    reflexivity.
Qed.

(** * Input shapes *)

Lemma nth_flat_rows {A B} (f : A -> list B) (n : nat) (d : B) (a0 : A) :
  forall (l : list A),
    (forall a, In a l -> length (f a) = n) ->
    forall i j, (i < length l)%nat -> (j < n)%nat ->
      nth (i * n + j) (flat_map f l) d = nth j (f (nth i l a0)) d.
Proof.
  induction l as [|a l IH]; intros Hlen i j Hi Hj; simpl in Hi; [lia |].
  assert (Ha : length (f a) = n) by (apply Hlen; now left).
  simpl flat_map. destruct i as [|i].
  - simpl. rewrite app_nth1 by (rewrite Ha; exact Hj). reflexivity.
  - rewrite app_nth2 by (rewrite Ha; simpl; lia).
    rewrite Ha.
    replace (S i * n + j - n)%nat with (i * n + j)%nat by (simpl; lia).
    simpl nth. apply IH; [| lia | exact Hj].
    intros a' Ha'. apply Hlen. now right.
Qed.

Lemma length_flat_rows {A B} (f : A -> list B) (n : nat) :
  forall (l : list A),
    (forall a, In a l -> length (f a) = n) ->
    length (flat_map f l) = (length l * n)%nat.
Proof.
  induction l as [|a l IH]; intros Hlen; simpl; [reflexivity |].
  assert (Ha : length (f a) = n) by (apply Hlen; now left).
  rewrite length_app, Ha.
  rewrite IH by (intros a' Ha'; apply Hlen; now right). reflexivity.
Qed.


(** * Hyperparameters *)

Lemma get_None_notin k p : ~ In k (map fst p) -> get k p = None.
Proof.
  induction p as [|[k' v] p IH]; simpl; intros H; [reflexivity |].
  destruct (String.eqb k' k) eqn:E.
  - apply String.eqb_eq in E. subst. contradiction H. now left.
  - apply IH. intros Hin. apply H. now right.
Qed.

Lemma get_assign k p : forall acc,
  NoDup (map fst p) ->
  get k (fold_left (fun acc kv => set (fst kv) (snd kv) acc) p acc)
  = match get k p with
    | Some v => Some v
    | None => get k acc
    end.
Proof.
  induction p as [|[k' v'] p IH]; intros acc Hnd; simpl; [reflexivity |].
  simpl in Hnd. inversion Hnd as [|k0 l0 Hnotin Hnd']; subst.
  rewrite IH by exact Hnd'. rewrite get_set.
  assert (Hnotin' : ~ In k' (map fst p))
    by (intros Hin; apply Hnotin, list_elem_of_In, Hin).
  destruct (String.eqb k' k) eqn:E.
  - apply String.eqb_eq in E. subst k'.
    now rewrite (get_None_notin k p Hnotin').
  - reflexivity.
Qed.

(** X14.  [setParams] merges: after [setParams(p)], [getParams] gives
    for every key of [p] the value [p] has for it, and for every other
    key what the model had before.  Nothing else of the model changes:
    a fitted model stays fitted with the same booster and classes, and
    a disposed model accepts the call as well. *)
Theorem setParams_merges (p : params_t) (m : LGBModel) (k : string) :
  NoDup (map fst p) ->
  get k (getParams (setParams p m))
  = match get k p with
    | Some v => Some v
    | None => get k (getParams m)
    end
  /\ booster (setParams p m) = booster m
  /\ freed (setParams p m) = freed m
  /\ isFitted (setParams p m) = isFitted m
  /\ nrClass (setParams p m) = nrClass m
  /\ get_classes (setParams p m) = get_classes m.
Proof.
  intros Hnd. split; [| repeat split].
  unfold getParams, setParams. simpl. apply get_assign, Hnd.
Qed.

(** * Class probabilities *)

Lemma booster_predict_live m w b d rows cols :
  loaded w = true -> booster m = Some b -> b_freed b = false ->
  let req := BoosterPredict (default 0 (b_handle b)) d rows cols 0 0 "" in
  failed (response_to w req) = false ->
  booster_predict d rows cols (m, w)
  = (Ok (out_f64 (response_to w req)), (m, after_call w req)).
Proof.
  intros Hl Hbm Hb req Hf.
  unfold booster_predict, bind, this, gets; simpl. rewrite Hbm.
  unfold lift; simpl.
  rewrite (Booster_predict_one_call b d rows cols 0 0 Hb w Hl).
  fold req. rewrite Hf. reflexivity.
Qed.

(** X15.  [predictProba] of a fitted binary model whose engine call
    succeeds: one prediction call is made and the model is unchanged;
    the result has two entries per row of [X], as [probaDim] says, and
    in row [i] the second entry is the engine's output for that row and
    the first is one minus it, NaN for a row the engine returned
    nothing for. *)
Theorem predictProba_binary_rows (X : matrix_input) (m : LGBModel) (w : world)
    (b : Booster) (d : list number) (rows cols : nat) :
  loaded w = true -> fitted m = true -> freed m = false ->
  booster m = Some b -> b_freed b = false ->
  objective_of (params m) = VStr "binary" ->
  normalizeX X = Ok (d, rows, cols) ->
  let req := BoosterPredict (default 0 (b_handle b)) d rows cols 0 0 "" in
  let r := response_to w req in
  failed r = false ->
  exists probs,
    predictProba X (m, w) = (Ok probs, (m, after_call w req))
    /\ probaDim m = 2%nat
    /\ length probs = (rows * probaDim m)%nat
    /\ forall i, (i < rows)%nat ->
         nth (i * 2) probs NaN = one_minus (at_index (out_f64 r) i)
         /\ nth (i * 2 + 1) probs NaN = at_index (out_f64 r) i.
Proof.
  intros Hl Hft Hfr Hbm Hb Hobj HX req r Hf.
  set (f := fun i => let p1 := at_index (out_f64 r) i in [one_minus p1; p1]).
  assert (Hlen : forall a, In a (seq 0 rows) -> length (f a) = 2%nat)
    by reflexivity.
  assert (Hdim : probaDim m = 2%nat).
  { unfold probaDim, isFitted. rewrite Hft, Hfr. simpl.
    unfold objective_of in Hobj. rewrite Hobj. reflexivity. }
  exists (flat_map f (seq 0 rows)). split; [| split; [exact Hdim | split]].
  - unfold predictProba.
    rewrite (bind_ok _ _ _ tt (m, w) (ensureFitted_fitted m w Hfr Hft)).
    rewrite (bind_ok _ _ _ (params m) (m, w)) by reflexivity.
    unfold objective_of in Hobj. rewrite Hobj. cbn [has].
    change (negb (existsb (String.eqb "binary") PROBA_OBJECTIVES)) with false.
    change (is_str (VStr "binary") "binary") with true. cbv iota.
    rewrite (bind_ok _ _ _ (d, rows, cols) (m, w))
      by (unfold liftR; now rewrite HX).
    rewrite (bind_ok _ _ _ _ _
               (booster_predict_live m w b d rows cols Hl Hbm Hb Hf)).
    reflexivity.
  - rewrite Hdim, (length_flat_rows f 2 (seq 0 rows) Hlen), length_seq.
    reflexivity.
  - intros i Hi.
    assert (Hi' : (i < length (seq 0 rows))%nat) by now rewrite length_seq.
    pose proof (nth_flat_rows f 2 NaN 0%nat (seq 0 rows) Hlen i 0
                  Hi' ltac:(lia)) as H0.
    pose proof (nth_flat_rows f 2 NaN 0%nat (seq 0 rows) Hlen i 1
                  Hi' ltac:(lia)) as H1.
    rewrite Nat.add_0_r in H0. rewrite H0, H1, seq_nth by exact Hi.
    split; reflexivity.
Qed.

(** * Loading a saved model *)

Lemma find_first {A} (f : A -> bool) (pre post : list A) (a : A) :
  Forall (fun x => f x = false) pre -> f a = true ->
  find f (pre ++ a :: post) = Some a.
Proof.
  induction 1 as [|x pre Hx _ IH]; intros Ha; simpl.
  - now rewrite Ha.
  - rewrite Hx. now apply IH.
Qed.

Lemma find_none {A} (f : A -> bool) (l : list A) :
  Forall (fun x => f x = false) l -> find f l = None.
Proof.
  induction 1 as [|x l Hx _ IH]; simpl; [reflexivity |]. now rewrite Hx.
Qed.

Lemma fromBundle_found mf toc blobs entry w :
  loaded w = true ->
  find (fun e => String.eqb (te_id e) "model") toc = Some entry ->
  let raw := substring (te_offset entry) (te_length entry) blobs in
  let req := BoosterLoadModel raw in
  let r := response_to w req in
  fromBundle mf toc blobs w
  = if failed r
    then (Err (NativeCallFailure "Booster loadModel"
                 (out_text (response_to (after_call w req) GetLastError))),
          after_call (after_call w req) GetLastError)
    else (Ok {| booster := Some (Booster_of_handle (out_i32 r));
                freed := false;
                params := default [] (mf_params mf);
                fitted := true;
                nrClass := default O (mf_metadata mf ≫= md_nrClass);
                classes := option_map (map ToInt32)
                             (mf_metadata mf ≫= md_classes) |},
          after_call w req).
Proof.
  intros Hl Hfind. cbv zeta. unfold fromBundle. rewrite Hfind.
  unfold subarray.
  replace (te_offset entry + te_length entry - te_offset entry)%nat
    with (te_length entry) by lia.
  unfold bind. rewrite (Booster_loadModel_one_call _ w Hl).
  destruct (failed (response_to w _)); reflexivity.
Qed.

(** X16.  [_fromBundle], once the module is loaded.  If no entry of the
    table of contents is named [model], it throws the missing-artifact
    error before anything is allocated or any native call is made.
    Otherwise it takes the first entry of that name, hands the bytes
    from its offset over its length to one call of
    [wl_lgb_booster_load_model], and makes no other call: no dataset is
    created and no update is run.  If that call succeeds the model is
    fitted, not disposed, holds the handle the engine returned, and has
    the hyperparameters, the class count and the class list of the
    manifest, a missing field reading as empty, 0 and none; if the call
    fails the engine's message is thrown. *)
Theorem fromBundle_restores (mf : manifest) (pre post : list toc_entry)
    (entry : toc_entry) (blobs : string) (w : world) :
  loaded w = true ->
  Forall (fun e => te_id e <> "model") pre ->
  te_id entry = "model" ->
  let raw := substring (te_offset entry) (te_length entry) blobs in
  let req := BoosterLoadModel raw in
  let r := response_to w req in
  fromBundle mf pre blobs w = (Err MissingModelArtifact, w)
  /\ fromBundle mf (pre ++ entry :: post) blobs w
     = if failed r
       then (Err (NativeCallFailure "Booster loadModel"
                    (out_text (response_to (after_call w req) GetLastError))),
             after_call (after_call w req) GetLastError)
       else (Ok {| booster := Some (Booster_of_handle (out_i32 r));
                   freed := false;
                   params := default [] (mf_params mf);
                   fitted := true;
                   nrClass := default O (mf_metadata mf ≫= md_nrClass);
                   classes := option_map (map ToInt32)
                                (mf_metadata mf ≫= md_classes) |},
             after_call w req).
Proof.
  intros Hl Hpre Hid. cbv zeta.
  assert (Hpre' : Forall (fun e => String.eqb (te_id e) "model" = false) pre).
  { eapply Forall_impl; [exact Hpre |]. intros e He. simpl.
    destruct (String.eqb (te_id e) "model") eqn:E; [| reflexivity].
    apply String.eqb_eq in E. contradiction. }
  split.
  - unfold fromBundle. rewrite (find_none _ pre Hpre'). reflexivity.
  - apply (fromBundle_found mf _ blobs entry w Hl).
    apply find_first; [exact Hpre' |]. rewrite Hid. reflexivity.
Qed.

Lemma ensureFitted_ok_inv m w s' :
  ensureFitted (m, w) = (Ok tt, s') ->
  s' = (m, w) /\ freed m = false /\ fitted m = true.
Proof.
  unfold ensureFitted, bind, this, gets, throw, ret; simpl.
  destruct (freed m); simpl; [discriminate |].
  destruct (fitted m); simpl; [| discriminate].
  intros H; inversion H; auto.
Qed.

(** What a [save] that returns has put into the bundle. *)
Lemma save_ok_inv m w bnd s' :
  save (m, w) = (Ok bnd, s') ->
  freed m = false /\ fitted m = true /\ fst s' = m
  /\ manifest_params bnd = params m
  /\ meta_nrClass bnd = nrClass m
  /\ meta_classes bnd = get_classes m
  /\ meta_objective bnd = objective_of (params m)
  /\ typeId bnd = (if isClassifier m then "wlearn.lightgbm.classifier@1"
                   else "wlearn.lightgbm.regressor@1")
  /\ exists b bytes,
       booster m = Some b
       /\ Booster_saveModel b w = (Ok bytes, snd s')
       /\ blobs bnd = [("model", bytes)].
Proof.
  unfold save. intros H.
  apply bind_ok_inv in H as ([] & s1 & H1 & H).
  apply ensureFitted_ok_inv in H1 as (-> & Hfr & Hft).
  apply bind_ok_inv in H as (ob & s2 & H2 & H).
  unfold this, gets in H2; simpl in H2. inversion H2; subst ob s2. clear H2.
  destruct (booster m) as [b|] eqn:Hbm; [| discriminate].
  apply bind_ok_inv in H as (bytes & s3 & H3 & H).
  apply lift_inv in H3 as (w3 & H3 & ->).
  apply bind_ok_inv in H as (m0 & s4 & H4 & H).
  unfold this, gets in H4; simpl in H4. inversion H4; subst m0 s4. clear H4.
  unfold ret in H. inversion H; subst bnd s'. clear H. simpl.
  repeat split; auto. exists b, bytes. auto.
Qed.

Lemma forallb_fits_small l :
  forallb (fun z => fits_int32 (Int z)) l = true ->
  map ToInt32 (map Int l) = l.
Proof.
  intros H. rewrite map_map. simpl.
  apply map_wrap32_small. apply Forall_forall. intros z Hz.
  rewrite forallb_forall in H. apply list_elem_of_In in Hz.
  specialize (H z Hz). unfold fits_int32 in H.
  apply andb_true_iff in H as [H1 H2].
  apply Z.leb_le in H1. apply Z.ltb_lt in H2. lia.
Qed.

(** X17.  Saving and loading again.  Suppose [save] returns a bundle,
    and the codec hands back what it was given: the manifest's
    hyperparameters and metadata, and a table of contents whose first
    entry named [model] points at the saved model text.  Then
    [_fromBundle], when the engine accepts the text, asks the engine to
    load exactly the text that [saveModel] returned and yields a fitted
    model that agrees with the saved one on [getParams], [nrClass],
    [classes], [capabilities] and [probaDim]. *)
Theorem save_then_load (m : LGBModel) (w w2 : world)
    (s1 : LGBModel * world) (bnd : bundle) (bytes : string) (mf : manifest)
    (pre post : list toc_entry) (entry : toc_entry) (region : string) :
  save (m, w) = (Ok bnd, s1) ->
  blobs bnd = [("model", bytes)] ->
  mf_params mf = Some (manifest_params bnd) ->
  mf_metadata mf
  = Some {| md_nrClass := Some (meta_nrClass bnd);
            md_classes := Some (map Int (meta_classes bnd)) |} ->
  Forall (fun e => te_id e <> "model") pre ->
  te_id entry = "model" ->
  substring (te_offset entry) (te_length entry) region = bytes ->
  forallb (fun z => fits_int32 (Int z)) (get_classes m) = true ->
  loaded w2 = true ->
  failed (response_to w2 (BoosterLoadModel bytes)) = false ->
  (exists b, booster m = Some b
             /\ Booster_saveModel b w = (Ok bytes, snd s1))
  /\ exists m2,
       fromBundle mf (pre ++ entry :: post) region w2
       = (Ok m2, after_call w2 (BoosterLoadModel bytes))
       /\ getParams m2 = getParams m
       /\ nrClass m2 = nrClass m
       /\ get_classes m2 = get_classes m
       /\ isFitted m2 = true
       /\ capabilities m2 = capabilities m
       /\ probaDim m2 = probaDim m.
Proof.
  intros Hs Hblobs Hp Hmd Hpre Hid Hsub Hfits Hl Hok.
  apply save_ok_inv in Hs
    as (Hfr & Hft & _ & Hmp & Hnc & Hcls & _ & _ & b & bytes' & Hbm & Hsv & Hbl).
  assert (bytes' = bytes) as -> by congruence.
  split; [eauto |].
  assert (Hpre' : Forall (fun e => String.eqb (te_id e) "model" = false) pre).
  { eapply Forall_impl; [exact Hpre |]. intros e He. simpl.
    destruct (String.eqb (te_id e) "model") eqn:E; [| reflexivity].
    apply String.eqb_eq in E. contradiction. }
  assert (He : String.eqb (te_id entry) "model" = true)
    by (rewrite Hid; reflexivity).
  pose proof (fromBundle_found mf (pre ++ entry :: post) region entry w2 Hl
                (find_first (fun e => String.eqb (te_id e) "model")
                   pre post entry Hpre' He)) as Hfb.
  cbv zeta in Hfb. rewrite Hsub, Hok in Hfb.
  eexists. split; [exact Hfb |].
  rewrite Hp, Hmd, Hmp, Hnc, Hcls. cbn [default mbind option_bind
    md_nrClass md_classes option_map].
  rewrite (forallb_fits_small _ Hfits).
  unfold getParams, get_classes, isFitted, capabilities, probaDim, isFitted.
  cbn [params nrClass classes fitted freed default].
  rewrite Hft, Hfr. repeat split; reflexivity.
Qed.

(** * Any sequence of calls on a model *)

Lemma fill_rows_error cls pick n : forall i e,
  fill_rows cls pick i n = Err e -> e = NullDereference.
Proof.
  induction n as [|n IH]; intros i e H; simpl in H; [discriminate |].
  destruct (class_at cls (pick i)) as [v|e0] eqn:Hc.
  - destruct (fill_rows cls pick (S i) n) as [vs|e1] eqn:Hf; [discriminate |].
    injection H as <-. eapply IH, Hf.
  - injection H as <-. unfold class_at in Hc.
    destruct cls as [l|]; [| now injection Hc].
    destruct (nth_error l (pick i)); discriminate.
Qed.

Lemma not_misuse_native op msg : ~ handle_misuse (NativeCallFailure op msg).
Proof. intros [H|[what H]]; discriminate. Qed.

Lemma not_misuse_null : ~ handle_misuse NullDereference.
Proof. intros [H|[what H]]; discriminate. Qed.

(** What a method may do to a sound state: leave it sound, with the
    heap as it was, and throw no misuse error. *)
Lemma booster_predict_sound d rows cols m w :
  sound (m, w) ->
  let res := booster_predict d rows cols (m, w) in
  fst (snd res) = m
  /\ loaded (snd (snd res)) = true
  /\ live (snd (snd res)) = live w
  /\ stray_frees (snd (snd res)) = stray_frees w
  /\ forall e, fst res = Err e -> ~ handle_misuse e.
Proof.
  intros [Hl Hb]. simpl in Hl, Hb. cbv zeta.
  unfold booster_predict, bind, this, gets; simpl.
  destruct (booster m) as [b|] eqn:Hbm; simpl.
  - unfold lift; simpl.
    rewrite (Booster_predict_one_call b d rows cols 0 0 (Hb b eq_refl) w Hl).
    destruct (failed _); simpl; repeat split; auto; try discriminate.
    intros e He. injection He as <-. apply not_misuse_native.
  - repeat split; auto. intros e He. injection He as <-.
    apply not_misuse_null.
Qed.

Lemma predict_sound X m w :
  sound (m, w) ->
  let res := predict X (m, w) in
  fst (snd res) = m
  /\ loaded (snd (snd res)) = true
  /\ live (snd (snd res)) = live w
  /\ stray_frees (snd (snd res)) = stray_frees w
  /\ forall e, fst res = Err e -> ~ handle_misuse e.
Proof.
  intros Hs. pose proof Hs as [Hl Hb]. simpl in Hl, Hb. cbv zeta.
  unfold predict.
  destruct (freed m) eqn:Hfr.
  { rewrite (bind_err _ _ _ _ _ (ensureFitted_disposed m w Hfr)). simpl.
    repeat split; auto. intros e He. injection He as <-.
    intros [H|[what H]]; discriminate. }
  destruct (fitted m) eqn:Hft.
  2:{ rewrite (bind_err _ _ _ _ _ (ensureFitted_unfitted m w Hfr Hft)). simpl.
      repeat split; auto. intros e He. injection He as <-.
      intros [H|[what H]]; discriminate. }
  rewrite (bind_ok _ _ _ _ _ (ensureFitted_fitted m w Hfr Hft)).
  destruct (normalizeX X) as [[[d rows] cols]|e0] eqn:HX.
  2:{ rewrite (bind_err _ _ (m, w) e0 (m, w)) by reflexivity.
      simpl. repeat split; auto. intros e He. injection He as <-.
      apply normalizeX_error in HX. subst. intros [H|[what H]]; discriminate. }
  rewrite (bind_ok _ _ (m, w) (d, rows, cols) (m, w)) by reflexivity.
  destruct (booster_predict_sound d rows cols m w Hs)
    as (H1 & H2 & H3 & H4 & H5). cbv zeta in *.
  destruct (booster_predict d rows cols (m, w)) as [[raw|e0] [m1 w1]] eqn:Hp;
    simpl in *; subst m1.
  2:{ rewrite (bind_err _ _ _ _ _ Hp). simpl. repeat split; auto. }
  rewrite (bind_ok _ _ _ _ _ Hp).
  unfold bind, this, gets, ret, liftR; simpl.
  repeat match goal with
         | |- context [if ?c then _ else _] => destruct c
         end; simpl; repeat split; auto; try discriminate;
    intros e He; apply fill_rows_error in He; subst; apply not_misuse_null.
Qed.

Lemma sound_same_model m w w' :
  sound (m, w) -> loaded w' = true -> sound (m, w').
Proof. intros [_ Hb] Hl. split; [exact Hl | exact Hb]. Qed.

Lemma predict_stays_sound X : stays_sound (predict X).
Proof.
  intros [m w] Hs.
  destruct (predict_sound X m w Hs) as (H1 & H2 & H3 & H4 & H5).
  cbv zeta in *.
  destruct (predict X (m, w)) as [r [m1 w1]]; simpl in *. subst m1.
  split; [apply (sound_same_model m w w1 Hs H2) |]. auto.
Qed.

Lemma score_stays_sound X y : stays_sound (score X y).
Proof.
  intros s Hs. destruct (predict_stays_sound X s Hs) as (H1 & H2 & H3 & H4).
  unfold score, bind. destruct (predict X s) as [[preds|e] s1]; simpl in *.
  - unfold this, gets, ret; simpl.
    destruct (negb (isClassifier (fst s1))); simpl;
      (split; [exact H1 |]); repeat split; auto; discriminate.
  - split; [exact H1 | split; [exact H2 | split; [exact H3 |]]].
    intros e0 He0. injection He0 as <-. exact (H4 e eq_refl).
Qed.

Lemma predictProba_stays_sound X : stays_sound (predictProba X).
Proof.
  intros [m w] Hs. pose proof Hs as [Hl Hb]. simpl in Hl, Hb.
  unfold predictProba.
  destruct (freed m) eqn:Hfr.
  { rewrite (bind_err _ _ _ _ _ (ensureFitted_disposed m w Hfr)). simpl.
    repeat split; auto. intros e He. injection He as <-.
    intros [H|[what H]]; discriminate. }
  destruct (fitted m) eqn:Hft.
  2:{ rewrite (bind_err _ _ _ _ _ (ensureFitted_unfitted m w Hfr Hft)). simpl.
      repeat split; auto. intros e He. injection He as <-.
      intros [H|[what H]]; discriminate. }
  rewrite (bind_ok _ _ _ _ _ (ensureFitted_fitted m w Hfr Hft)).
  rewrite (bind_ok _ _ _ (params m) (m, w)) by reflexivity.
  destruct (negb (has PROBA_OBJECTIVES _)).
  { simpl. repeat split; auto. intros e He. injection He as <-.
    intros [H|[what H]]; discriminate. }
  destruct (normalizeX X) as [[[d rows] cols]|e0] eqn:HX.
  2:{ rewrite (bind_err _ _ (m, w) e0 (m, w)) by reflexivity.
      simpl. repeat split; auto. intros e He. injection He as <-.
      apply normalizeX_error in HX. subst. intros [H|[what H]]; discriminate. }
  rewrite (bind_ok _ _ (m, w) (d, rows, cols) (m, w)) by reflexivity.
  destruct (booster_predict_sound d rows cols m w Hs)
    as (H1 & H2 & H3 & H4 & H5). cbv zeta in *.
  destruct (booster_predict d rows cols (m, w)) as [[raw|e0] [m1 w1]] eqn:Hp;
    simpl in *; subst m1.
  2:{ rewrite (bind_err _ _ _ _ _ Hp). simpl.
      split; [apply (sound_same_model m w w1 Hs H2) |]. auto. }
  rewrite (bind_ok _ _ _ _ _ Hp).
  destruct (is_str _ "binary"); unfold ret; simpl;
    (split; [apply (sound_same_model m w w1 Hs H2) |]);
    repeat split; auto; discriminate.
Qed.

Lemma save_stays_sound : stays_sound save.
Proof.
  intros [m w] Hs. pose proof Hs as [Hl Hb]. simpl in Hl, Hb.
  unfold save.
  destruct (freed m) eqn:Hfr.
  { rewrite (bind_err _ _ _ _ _ (ensureFitted_disposed m w Hfr)). simpl.
    repeat split; auto. intros e He. injection He as <-.
    intros [H|[what H]]; discriminate. }
  destruct (fitted m) eqn:Hft.
  2:{ rewrite (bind_err _ _ _ _ _ (ensureFitted_unfitted m w Hfr Hft)). simpl.
      repeat split; auto. intros e He. injection He as <-.
      intros [H|[what H]]; discriminate. }
  rewrite (bind_ok _ _ _ _ _ (ensureFitted_fitted m w Hfr Hft)).
  rewrite (bind_ok _ _ _ (booster m) (m, w)) by reflexivity.
  destruct (booster m) as [b|] eqn:Hbm.
  2:{ simpl. split; [exact Hs |]. split; [reflexivity |].
      split; [reflexivity |]. intros e He. injection He as <-.
      apply not_misuse_null. }
  assert (Hsv : exists r w3,
            Booster_saveModel b w = (r, w3) /\ loaded w3 = true
            /\ live w3 = live w /\ stray_frees w3 = stray_frees w
            /\ forall e, r = Err e -> ~ handle_misuse e).
  { rewrite (Booster_saveModel_exact b w (Hb b eq_refl) Hl). cbv zeta.
    destruct (failed _); [| destruct (failed _)];
      eexists; eexists; (split; [reflexivity |]); repeat split; auto;
      try discriminate; intros e He; injection He as <-;
      apply not_misuse_native. }
  destruct Hsv as (r & w3 & Hsv & Hl3 & Hlive & Hstray & Herr).
  assert (Hlift : lift (O := LGBModel) (Booster_saveModel b) (m, w)
                  = (r, (m, w3))).
  { unfold lift; simpl. now rewrite Hsv. }
  destruct r as [bytes|e0].
  - rewrite (bind_ok _ _ _ _ _ Hlift).
    unfold bind, this, gets, ret; simpl.
    split; [apply (sound_same_model m w _ Hs); exact Hl3 |].
    split; [exact Hlive |]. split; [exact Hstray |]. discriminate.
  - rewrite (bind_err _ _ _ _ _ Hlift). simpl.
    split; [apply (sound_same_model m w _ Hs); exact Hl3 |].
    split; [exact Hlive |]. split; [exact Hstray |].
    intros e He. injection He as <-. apply Herr. reflexivity.
Qed.

Lemma dispose_stays_sound : stays_sound dispose.
Proof.
  intros [m w] Hs. pose proof Hs as [Hl Hb]. simpl in Hl, Hb.
  destruct (freed m) eqn:Hfr.
  { unfold dispose, bind, this, gets, ret; simpl. rewrite Hfr. simpl.
    repeat split; auto. discriminate. }
  destruct (dispose_exact m w OtherInput [] Hfr Hl Hb) as [Hd _].
  cbv zeta in Hd. rewrite Hd. simpl.
  split; [split; [| discriminate] |].
  - simpl. destruct (booster m); exact Hl.
  - destruct (booster m); repeat split; auto; discriminate.
Qed.

Lemma fit_loaded X y m w :
  sound (m, w) -> loaded (snd (snd (fit X y (m, w)))) = true.
Proof.
  intros [Hl Hb]. simpl in Hl, Hb.
  destruct (freed m) eqn:Hf; [now rewrite fit_disposed |].
  destruct (resolveTask_cases y m w)
    as [(m1 & Hr & Hbm & _)|(e & Hr & _)];
    [| now rewrite (fit_task_error X y m w e Hf Hr)].
  rewrite (fit_cases X y m w m1 Hl Hb Hf Hr Hbm). cbv zeta.
  destruct (after_release_heap m w) as (Hl1 & _).
  rewrite <- Hl1 in Hl.
  destruct (normalizeX X) as [[[xData rows] cols]|e]; [| exact Hl].
  destruct (encode_labels _ y) as [[[nc cls] yTrain]|e]; [| exact Hl].
  destruct (negb _); [exact Hl |].
  match goal with
  | |- context [train ?a ?b ?c ?d ?e ?f ?g] =>
      destruct (train_exact a b c d e f g Hl) as (Ht & _);
      destruct (train a b c d e f g) as [[bst|e0] w2]; exact Ht
  end.
Qed.

Lemma fit_stays_sound X y : stays_sound (fit X y).
Proof.
  intros [m w] Hs. pose proof Hs as [Hl Hb]. simpl in Hl, Hb.
  pose proof (fit_loaded X y m w Hs) as Hl'.
  destruct (fit X y (m, w)) as [[[]|e] [m' w']] eqn:Hfit; simpl in *.
  - destruct (fit_ok_calls X y m m' w w' Hl Hb Hfit)
      as (xD & rows & cols & yT & rd & rl & rb & rf & ups & _ & _ & _ & _
          & _ & _ & _ & _ & _ & Hbm & _ & Hlive & Hstray).
    split; [split; [exact Hl' |] |].
    + simpl. intros b Hb'. rewrite Hbm in Hb'. now injection Hb' as <-.
    + repeat split; auto; discriminate.
  - destruct (fit_error_cases X y m w e m' w' Hl Hb Hfit)
      as [(_ & -> & -> & ->)|[(_ & He & -> & ->)|[(_ & He & -> & Hbm & _)|
          (_ & (op & msg & ->) & Hbm & _ & _ & Hlive & Hstray & _)]]].
    + repeat split; auto. intros e He. injection He as <-.
      intros [H|[what H]]; discriminate.
    + repeat split; auto. intros e0 He0. injection He0 as <-.
      intros Hm. unfold handle_misuse in Hm. err_clash.
    + destruct (after_release_heap m w) as (_ & Hlive & Hstray & _).
      split; [split; [exact Hl' |] |].
      * simpl. intros b Hb'. congruence.
      * repeat split; auto. intros e0 He0. injection He0 as <-.
        intros Hm. unfold handle_misuse in Hm. err_clash.
    + split; [split; [exact Hl' |] |].
      * simpl. intros b Hb'. congruence.
      * repeat split; auto. intros e0 He0. injection He0 as <-.
        apply not_misuse_native.
Qed.

Lemma run_call_sound c s :
  sound s ->
  sound (snd (run_call c s))
  /\ live (snd (snd (run_call c s))) = live (snd s)
  /\ stray_frees (snd (snd (run_call c s))) = stray_frees (snd s)
  /\ forall e, fst (run_call c s) = Some e -> ~ handle_misuse e.
Proof.
  intros Hs.
  assert (Hany : forall A (m : MM A), stays_sound m ->
            sound (snd (m s))
            /\ live (snd (snd (m s))) = live (snd s)
            /\ stray_frees (snd (snd (m s))) = stray_frees (snd s)
            /\ forall e, thrown (fst (m s)) = Some e -> ~ handle_misuse e).
  { intros A m Hm. destruct (Hm s Hs) as (H1 & H2 & H3 & H4).
    repeat split; auto; try apply H1.
    intros e He. destruct (fst (m s)) as [a|e0]; [discriminate |].
    injection He as <-. now apply H4. }
  destruct c as [X y|X|X|X y| | |p]; simpl.
  - destruct (Hany _ _ (fit_stays_sound X y)) as (H1 & H2 & H3 & H4).
    destruct (fit X y s); simpl in *. auto.
  - destruct (Hany _ _ (predict_stays_sound X)) as (H1 & H2 & H3 & H4).
    destruct (predict X s); simpl in *. auto.
  - destruct (Hany _ _ (predictProba_stays_sound X)) as (H1 & H2 & H3 & H4).
    destruct (predictProba X s); simpl in *. auto.
  - destruct (Hany _ _ (score_stays_sound X y)) as (H1 & H2 & H3 & H4).
    destruct (score X y s); simpl in *. auto.
  - destruct (Hany _ _ save_stays_sound) as (H1 & H2 & H3 & H4).
    destruct (save s); simpl in *. auto.
  - destruct (Hany _ _ dispose_stays_sound) as (H1 & H2 & H3 & H4).
    destruct (dispose s); simpl in *. auto.
  - destruct Hs as [Hl Hb]. repeat split; auto. discriminate.
Qed.

(** X18.  Whatever calls of [fit], [predict], [predictProba], [score],
    [save], [dispose] and [setParams] are made on a model, in whatever
    order, with whatever arguments and whatever the engine answers:
    starting in a loaded module from a model whose booster, if it has
    one, is not disposed (a model fresh from [create] or from [load]),
    every call leaves such a state; no call throws the not-loaded error
    or the error of a disposed handle, so no operation is ever run on a
    disposed booster or dataset; and after every call the heap is as
    it was before the first. *)
Theorem calls_keep_model_sound (cs : list call) (s : LGBModel * world) :
  sound s ->
  sound (snd (run_calls cs s))
  /\ live (snd (snd (run_calls cs s))) = live (snd s)
  /\ stray_frees (snd (snd (run_calls cs s))) = stray_frees (snd s)
  /\ length (fst (run_calls cs s)) = length cs
  /\ Forall (fun o => forall e, o = Some e -> ~ handle_misuse e)
       (fst (run_calls cs s)).
Proof.
  revert s. induction cs as [|c cs IH]; intros s Hs; simpl.
  - repeat split; auto; apply Hs.
  - destruct (run_call_sound c s Hs) as (H1 & H2 & H3 & H4).
    destruct (run_call c s) as [e s1]; simpl in *.
    destruct (IH s1 H1) as (I1 & I2 & I3 & I4 & I5).
    destruct (run_calls cs s1) as [es s2]; simpl in *.
    split; [exact I1 |]. split; [congruence |]. split; [congruence |].
    split; [congruence |]. constructor; [exact H4 | exact I5].
Qed.

(** * The getters and the methods *)

Lemma has_proba_cases obj :
  has PROBA_OBJECTIVES obj = true <->
  obj = VStr "binary" \/ obj = VStr "multiclass" \/ obj = VStr "multiclassova".
Proof.
  unfold has, PROBA_OBJECTIVES. destruct obj as [n|s|b|]; simpl;
    try (split; [discriminate | intros [H|[H|H]]; discriminate]).
  rewrite !orb_true_iff, !String.eqb_eq. split.
  - intros [->|[->|[->|H]]]; auto. discriminate.
  - intros [H|[H|H]]; inversion H; auto.
Qed.

Lemma predictProba_past_objective X m w o :
  freed m = false -> fitted m = true ->
  has PROBA_OBJECTIVES (objective_of (params m)) = true ->
  fst (predictProba X (m, w)) <> Err (ObjectiveMismatch o).
Proof.
  intros Hf Hft Hin. unfold predictProba.
  rewrite (bind_ok _ _ _ _ _ (ensureFitted_fitted m w Hf Hft)).
  rewrite (bind_ok (this params) _ (m, w) (params m) (m, w) eq_refl).
  unfold objective_of in Hin. rewrite Hin. simpl. intros Ho.
  match type of Ho with
  | fst (?c _) = _ =>
      assert (Hr : raises (fun e => e <> ObjectiveMismatch o) c)
  end.
  { apply raises_bind.
    - intros s e. unfold liftR; simpl. destruct X as [d r c|[|r0 X']|];
        simpl; congruence.
    - intros [[xData rows] cols].
      apply raises_bind.
      + unfold booster_predict. apply raises_bind; [apply raises_gets |].
        intros [b|]; [| apply raises_throw; discriminate].
        apply raises_lift. intros s e He.
        apply raises_Booster_predict in He.
        destruct He as [->|[[? ->]|(? & ? & ->)]]; discriminate.
      + intros raw. destruct (is_str _ "binary"); apply raises_ret. }
  exact (Hr _ _ Ho eq_refl).
Qed.

(** X19.  The getters of a fitted model that is not disposed agree with
    what its methods do.  [capabilities.predictProba] is false exactly
    when [predictProba] throws the objective-mismatch error, which it
    then does before anything else; it is true only for a classifier,
    while cross_entropy makes a classifier without it; [regressor] is
    the negation of [classifier]; and [probaDim] is 2 for binary, the
    class count for multiclass and multiclassova, and 0 whenever
    [capabilities.predictProba] is false. *)
Theorem getters_agree_with_methods (m : LGBModel) (w : world)
    (X : matrix_input) :
  freed m = false -> fitted m = true ->
  let caps := capabilities m in
  let obj := objective_of (params m) in
  isFitted m = true
  /\ (cap_predictProba caps = false ->
      predictProba X (m, w) = (Err (ObjectiveMismatch obj), (m, w)))
  /\ (cap_predictProba caps = true ->
      forall o, fst (predictProba X (m, w)) <> Err (ObjectiveMismatch o))
  /\ regressor caps = negb (classifier caps)
  /\ classifier caps = isClassifier m
  /\ (cap_predictProba caps = true -> classifier caps = true)
  /\ (obj = VStr "cross_entropy" ->
      classifier caps = true /\ cap_predictProba caps = false)
  /\ (cap_predictProba caps = false -> probaDim m = O)
  /\ (obj = VStr "binary" -> probaDim m = 2%nat)
  /\ (obj = VStr "multiclass" \/ obj = VStr "multiclassova" ->
      probaDim m = nrClass m).
Proof.
  intros Hf Hft. cbv zeta.
  unfold capabilities, isFitted, probaDim, isFitted, isClassifier; simpl.
  fold (objective_of (params m)). rewrite Hf, Hft. simpl.
  split; [reflexivity |]. split; [| split; [| split; [| split; [| split]]]].
  - intros Hno. unfold predictProba.
    rewrite (bind_ok _ _ _ _ _ (ensureFitted_fitted m w Hf Hft)).
    unfold bind, this, gets; simpl. fold (objective_of (params m)).
    rewrite Hno. reflexivity.
  - intros Hin o. apply predictProba_past_objective; assumption.
  - reflexivity.
  - reflexivity.
  - intros Hin. apply has_proba_cases in Hin.
    apply has_classifier_cases. tauto.
  - split; [| split; [| split]].
    + intros ->. split; reflexivity.
    + intros Hno.
      destruct (is_str (objective_of (params m)) "binary") eqn:E1.
      { destruct (objective_of (params m)) as [n|s|b|]; try discriminate.
        simpl in E1. apply String.eqb_eq in E1. subst s. discriminate. }
      destruct (is_str (objective_of (params m)) "multiclass") eqn:E2.
      { destruct (objective_of (params m)) as [n|s|b|]; try discriminate.
        simpl in E2. apply String.eqb_eq in E2. subst s. discriminate. }
      destruct (is_str (objective_of (params m)) "multiclassova") eqn:E3.
      { destruct (objective_of (params m)) as [n|s|b|]; try discriminate.
        simpl in E3. apply String.eqb_eq in E3. subst s. discriminate. }
      reflexivity.
    + intros ->. reflexivity.
    + intros [-> | ->]; reflexivity.
Qed.

(** * Scoring a classifier *)

Lemma predict_model X m w r s' :
  predict X (m, w) = (r, s') -> fst s' = m.
Proof.
  unfold predict. intros H.
  apply bind_inv in H as [(e & H & _)|([] & s1 & H1 & H)].
  { destruct (freed m) eqn:Hfr;
      [rewrite (ensureFitted_disposed m w Hfr) in H; now inversion H |].
    destruct (fitted m) eqn:Hft;
      [rewrite (ensureFitted_fitted m w Hfr Hft) in H; discriminate |].
    rewrite (ensureFitted_unfitted m w Hfr Hft) in H. now inversion H. }
  apply ensureFitted_ok_inv in H1 as (-> & _ & _).
  apply bind_inv in H as [(e & H & _)|([[d rows] cols] & s2 & H2 & H)].
  { unfold liftR in H. inversion H; reflexivity. }
  unfold liftR in H2. inversion H2; subst s2. clear H2.
  apply bind_inv in H as [(e & H & _)|(raw & [m3 w3] & H3 & H)].
  { now apply booster_predict_model in H. }
  apply booster_predict_model in H3. simpl in H3. subst m3.
  unfold bind, this, gets, ret, liftR in H; simpl in H.
  repeat match type of H with
         | context [if ?c then _ else _] => destruct c
         end; inversion H; reflexivity.
Qed.

Lemma filter_all {A} (f : A -> bool) l :
  (forall x, In x l -> f x = true) -> List.filter f l = l.
Proof.
  induction l as [|a l IH]; intros H; simpl; [reflexivity |].
  rewrite (H a) by now left. f_equal. apply IH. intros x Hx. apply H.
  now right.
Qed.

Lemma filter_none {A} (f : A -> bool) l :
  (forall x, In x l -> f x = false) -> List.filter f l = [].
Proof.
  induction l as [|a l IH]; intros H; simpl; [reflexivity |].
  rewrite (H a) by now left. apply IH. intros x Hx. apply H. now right.
Qed.

Lemma of_Q_one (n : nat) :
  n <> O ->
  of_Q (Some (inject_Z (Z.of_nat n) / inject_Z (Z.of_nat n))%Q) = Int 1.
Proof.
  intros Hn. unfold of_Q.
  assert (Hq : (inject_Z (Z.of_nat n) / inject_Z (Z.of_nat n) == 1)%Q).
  { apply Qmult_inv_r. unfold inject_Z, Qeq; simpl. lia. }
  rewrite (Qred_complete _ _ Hq). reflexivity.
Qed.

Lemma of_Q_zero (n : nat) :
  of_Q (Some (inject_Z (Z.of_nat O) / inject_Z (Z.of_nat n))%Q) = Int 0.
Proof.
  unfold of_Q.
  assert (Hq : (inject_Z (Z.of_nat O) / inject_Z (Z.of_nat n) == 0)%Q).
  { unfold Qdiv. simpl. apply Qmult_0_l. }
  rewrite (Qred_complete _ _ Hq). reflexivity.
Qed.

(** X20.  [score] of a classifier is the share of the predictions that
    are strictly equal to the label at the same index.  When [predict]
    returns, [score] returns as well and leaves the same state; the
    result is NaN when there is no prediction, 1 when every prediction
    equals its label, and 0 when none does.  Labels beyond the number
    of predictions are not looked at, and a prediction without a label
    counts as wrong: the length of [y] is not checked. *)
Theorem score_of_classifier (X : matrix_input) (y : list number)
    (m : LGBModel) (w : world) (preds : list number)
    (s' : LGBModel * world) :
  isClassifier m = true ->
  predict X (m, w) = (Ok preds, s') ->
  exists sc,
    score X y (m, w) = (Ok sc, s')
    /\ (preds = [] -> sc = NaN)
    /\ (preds <> [] ->
        (forall i, (i < length preds)%nat ->
           strict_eq (at_index preds i) (at_index y i) = true) ->
        sc = Int 1)
    /\ (preds <> [] ->
        (forall i, (i < length preds)%nat ->
           strict_eq (at_index preds i) (at_index y i) = false) ->
        sc = Int 0)
    /\ (forall y', firstn (length preds) y' = firstn (length preds) y ->
          score X y' (m, w) = (Ok sc, s')).
Proof.
  intros Hcls Hp.
  pose proof (predict_model X m w _ _ Hp) as Hm.
  assert (Hsc : forall y0, score X y0 (m, w) = (Ok (accuracy y0 preds), s')).
  { intros y0. unfold score. rewrite (bind_ok _ _ _ _ _ Hp).
    unfold bind, this, gets, ret, normalizeY; simpl.
    rewrite Hm, Hcls. reflexivity. }
  exists (accuracy y preds). split; [apply Hsc |].
  split; [| split; [| split]].
  - intros ->. reflexivity.
  - intros Hne Hall. unfold accuracy.
    rewrite filter_all.
    2:{ intros i Hi. apply in_seq in Hi. apply Hall. lia. }
    rewrite length_seq.
    destruct (length preds =? 0)%nat eqn:E.
    + apply Nat.eqb_eq in E. destruct preds; [congruence | discriminate].
    + apply of_Q_one. intros H0. rewrite H0 in E. discriminate.
  - intros Hne Hall. unfold accuracy.
    rewrite filter_none.
    2:{ intros i Hi. apply in_seq in Hi. apply Hall. lia. }
    destruct (length preds =? 0)%nat eqn:E.
    + apply Nat.eqb_eq in E. destruct preds; [congruence | discriminate].
    + apply of_Q_zero.
  - intros y' Hy'. rewrite Hsc. f_equal. f_equal. unfold accuracy.
    assert (Hfil :
      List.filter (fun i => strict_eq (at_index preds i) (at_index y' i))
        (seq 0 (length preds))
      = List.filter (fun i => strict_eq (at_index preds i) (at_index y i))
          (seq 0 (length preds))).
    { apply filter_ext_in. intros i Hi. apply in_seq in Hi.
      f_equal. unfold at_index.
      pose proof (nth_firstn (length preds) y' i NaN) as H1.
      pose proof (nth_firstn (length preds) y i NaN) as H2.
      assert (Hlt : (i <? length preds)%nat = true)
        by (apply Nat.ltb_lt; lia).
      rewrite Hlt in H1, H2. rewrite <- H1, <- H2, Hy'. reflexivity. }
    rewrite Hfil. reflexivity.
Qed.

(** * Fitting without classes *)


End BindingFacts.

(** * Concrete runs *)

Lemma fit_round_budget_witness :
  let s := fit (R := scripted []) X4 y4 (binary3, world0 []) in
  fit (R := scripted []) X4 y4 (binary3, world0 [])
  = (Ok tt, (fst (snd s), snd (snd s)))
  /\ 0 < 3
  /\ get "numRound" (params binary3) = Some (VNum (Int 3))
  /\ updates (calls (snd (snd s)))
     = (updates (calls (world0 [])) + Z.to_nat 3)%nat.
Proof.
  cbv zeta. split; [vm_compute; reflexivity |].
  split; [lia |]. split; [reflexivity |].
  destruct (fit_round_budget (R := scripted []) X4 y4 binary3 (world0 [])
              (Ok tt) _ _ ltac:(vm_compute; reflexivity)) as (_ & _ & Hk).
  destruct (Hk 3 ltac:(lia) eq_refl) as [_ Heq]. exact (Heq eq_refl).
Defined.

(** C2 as stated fails: with [numRound] set to 0 a call of [fit] that
    returns has made 100 updates, not 0. *)
Lemma fit_zero_rounds_runs_100 :
  let s := fit (R := scripted []) X4 y4 (binary_zero_rounds, world0 []) in
  fst s = Ok tt
  /\ get "numRound" (params binary_zero_rounds) = Some (VNum (Int 0))
  /\ updates (calls (snd (snd s))) = 100%nat
  /\ updates (calls (snd (snd s))) <> Z.to_nat 0.
Proof. vm_compute. repeat split; discriminate. Qed.

Lemma fit_falsy_numRound_witness :
  let s := fit (R := scripted []) X4 y4 (binary_zero_rounds, world0 []) in
  get "numRound" (params binary_zero_rounds) = Some (VNum (Int 0))
  /\ truthy (VNum (Int 0)) = false
  /\ fit (R := scripted []) X4 y4 (binary_zero_rounds, world0 [])
     = (Ok tt, (fst (snd s), snd (snd s)))
  /\ updates (calls (snd (snd s)))
     = (updates (calls (world0 [])) + 100)%nat.
Proof.
  cbv zeta. split; [reflexivity |]. split; [reflexivity |].
  split; [vm_compute; reflexivity |].
  apply (fit_falsy_numRound (R := scripted []) X4 y4 binary_zero_rounds
           (world0 []) _ _ (VNum (Int 0)) eq_refl eq_refl
           ltac:(vm_compute; reflexivity)).
Defined.

(** A refit of a model configured with an objective. *)
Lemma refit_replaces_booster_run :
  let m := fst binary3_fitted in
  let w := snd binary3_fitted in
  let b := {| b_handle := Some 2; b_freed := false |} in
  let s := fit (R := scripted []) X4 y4 (m, w) in
  booster m = Some b /\ b_freed b = false /\ b_handle b = Some 2
  /\ fit (R := scripted []) X4 y4 (m, w) = (Ok tt, (fst (snd s), snd (snd s)))
  /\ exists rest fresp ds ps resp b',
       calls (snd (snd s)) = rest ++ (BoosterFree 2, fresp) :: calls w
       /\ Forall (fun c => no_free (fst c)) rest
       /\ In (BoosterCreate ds ps, resp) rest /\ failed resp = false
       /\ booster (fst (snd s)) = Some b'
       /\ b_handle b' = Some (out_i32 resp) /\ b_freed b' = false
       /\ fitted (fst (snd s)) = true /\ freed (fst (snd s)) = false.
Proof.
  cbv zeta. split; [vm_compute; reflexivity |].
  split; [reflexivity |]. split; [reflexivity |].
  split; [vm_compute; reflexivity |].
  apply (refit_replaces_booster (R := scripted []) X4 y4
           (fst binary3_fitted) (snd binary3_fitted) _ _
           {| b_handle := Some 2; b_freed := false |} 2
           ltac:(vm_compute; reflexivity) eq_refl eq_refl
           ltac:(vm_compute; reflexivity)).
Defined.




Lemma use_after_dispose_leaks_witness :
  let w := world0 [] in
  let p := fresh (live w) in
  loaded w = true /\ b_freed disposed_booster = true
  /\ d_freed disposed_dataset = true
  /\ (p ∉ live w)
  /\ (fst (Booster_update disposed_booster w) = Err (HandleDisposed "Booster")
      /\ p ∈ live (snd (Booster_update disposed_booster w)))
  /\ (fst (Booster_getNumClasses disposed_booster w)
      = Err (HandleDisposed "Booster")
      /\ p ∈ live (snd (Booster_getNumClasses disposed_booster w)))
  /\ (fst (Booster_predict disposed_booster [Int 1] 1 1 0 0 w)
      = Err (HandleDisposed "Booster")
      /\ p ∈ live (snd (Booster_predict disposed_booster [Int 1] 1 1 0 0 w)))
  /\ (fst (Booster_saveModel disposed_booster w)
      = Err (HandleDisposed "Booster")
      /\ p ∈ live (snd (Booster_saveModel disposed_booster w)))
  /\ (fst (Dataset_setLabel disposed_dataset [Int 0] w)
      = Err (HandleDisposed "Dataset")
      /\ p ∈ live (snd (Dataset_setLabel disposed_dataset [Int 0] w))).
Proof.
  cbv zeta. split; [reflexivity |]. split; [reflexivity |].
  split; [reflexivity |].
  exact (use_after_dispose_leaks (R := scripted []) disposed_booster
           disposed_dataset (world0 []) [Int 1] 1%nat 1%nat [Int 0]
           eq_refl eq_refl eq_refl).
Defined.

(** The same on the public interface: a booster is created, disposed,
    and updated; the update throws, and an address it allocated is live
    on a heap that had none live before. *)
Lemma update_after_dispose_runs :
  let run :=
    (do ds <- Dataset_new (R := scripted []) [Int 1; Int 2] 2 1 "objective=binary";
     do h <- Dataset_handle ds;
     do b <- Booster_new h "objective=binary";
     fun w => let '(_, (b', w')) := Booster_dispose (b, w) in
              Booster_update b' w') (world0 []) in
  fst run = Err (HandleDisposed "Booster")
  /\ live (world0 []) = ∅
  /\ elements (live (snd run)) = [1%positive].
Proof. vm_compute. repeat split. Qed.

Lemma predict_decoding_witness :
  let s := predict (R := scripted raw4) X4 binary3_fitted_raw4 in
  predict (R := scripted raw4) X4
    (fst binary3_fitted_raw4, snd binary3_fitted_raw4)
  = (Ok [Int 7; Int 3; Int 3; Int 7], snd s)
  /\ exists xData rows cols raw,
       normalizeX X4 = Ok (xData, rows, cols)
       /\ booster_predict (R := scripted raw4) xData rows cols
            (fst binary3_fitted_raw4, snd binary3_fitted_raw4)
          = (Ok raw, snd s)
       /\ let m := fst binary3_fitted_raw4 in
          let preds := [Int 7; Int 3; Int 3; Int 7] in
          let obj := objective_of (params m) in
          ((obj = VStr "binary" \/ obj = VStr "cross_entropy") ->
             length preds = rows
             /\ forall i, (i < rows)%nat ->
                  exists cls, classes m = Some cls
                    /\ nth_error preds i
                       = Some (class_value cls
                                 (if num_gt (at_index raw i) half
                                  then 1%nat else O)))
          /\ ((obj = VStr "multiclass" \/ obj = VStr "multiclassova") ->
             length preds = rows
             /\ forall i, (i < rows)%nat ->
                  exists cls best, classes m = Some cls
                    /\ first_max raw i (nrClass m) best
                    /\ nth_error preds i = Some (class_value cls best))
          /\ (has CLASSIFIER_OBJECTIVES obj = false -> preds = raw).
Proof.
  cbv zeta. split; [vm_compute; reflexivity |].
  exact (predict_decoding (R := scripted raw4) (fst binary3_fitted_raw4)
           (snd binary3_fitted_raw4) X4 _ _ ltac:(vm_compute; reflexivity)).
Defined.

Lemma predictProba_objective_mismatch_witness :
  let m := fst binary3_fitted in
  let w := snd binary3_fitted in
  freed m = false /\ fitted m = true
  /\ let obj := get_or "objective" (VStr "regression") (params m) in
     ((exists o, fst (predictProba (R := scripted []) X4 (m, w))
                 = Err (ObjectiveMismatch o))
      <-> ~ (obj = VStr "binary" \/ obj = VStr "multiclass"
             \/ obj = VStr "multiclassova"))
     /\ (~ (obj = VStr "binary" \/ obj = VStr "multiclass"
            \/ obj = VStr "multiclassova") ->
         predictProba (R := scripted []) X4 (m, w)
         = (Err (ObjectiveMismatch obj), (m, w)))
     /\ (obj = VStr "regression" ->
         predictProba (R := scripted []) X4 (m, w)
         = (Err (ObjectiveMismatch obj), (m, w))).
Proof.
  cbv zeta. split; [vm_compute; reflexivity |].
  split; [vm_compute; reflexivity |].
  exact (predictProba_objective_mismatch (R := scripted [])
           (fst binary3_fitted) (snd binary3_fitted) X4
           ltac:(vm_compute; reflexivity) ltac:(vm_compute; reflexivity)).
Defined.


Lemma refit_with_task_shorthand_throws_witness :
  let s := fit (R := scripted []) X4 y4 (classification_task, world0 []) in
  falsy_key "task" (params classification_task) = false
  /\ falsy_key "objective" (params classification_task) = true
  /\ fit (R := scripted []) X4 y4 (classification_task, world0 [])
     = (Ok tt, (fst (snd s), snd (snd s)))
  /\ exists b,
       booster (fst (snd s)) = Some b /\ b_freed b = false
       /\ fitted (fst (snd s)) = true /\ freed (fst (snd s)) = false
       /\ forall X' y' w'',
            fit (R := scripted []) X' y' (fst (snd s), w'')
            = (Err TaskObjectiveConflict, (fst (snd s), w'')).
Proof.
  cbv zeta. split; [reflexivity |]. split; [reflexivity |].
  split; [vm_compute; reflexivity |].
  exact (refit_with_task_shorthand_throws (R := scripted []) X4 y4
           classification_task (world0 []) _ _ eq_refl eq_refl
           ltac:(vm_compute; reflexivity)).
Defined.

(** A call of [fit] that throws in the training loop: the first update
    fails, and one update has been made of the three the model asks
    for. *)
Lemma fit_on_failing_engine :
  let s := fit (R := failing) X4 y4 (binary3, @fresh_world failing 0) in
  fst s = Err (NativeCallFailure "Booster update" "boom")
  /\ updates (calls (snd (snd s))) = 1%nat
  /\ fitted (fst (snd s)) = false.
Proof. vm_compute. repeat split. Qed.

(** * Runs of the single operations on the scripted engine *)

Lemma bindings_make_one_call_witness :
  let b := Booster_of_handle 1 in
  let d := {| d_handle := Some 1; d_freed := false |} in
  b_freed b = false /\ d_freed d = false
  /\ (one_call (R := scripted []) "Dataset creation"
        (DatasetCreateFromMat [Int 1] 1 1 "")
        (fun r => {| d_handle := Some (out_i32 r); d_freed := false |})
        (Dataset_new [Int 1] 1 1 "")
      /\ one_call (R := scripted []) "Dataset setLabel"
           (DatasetSetField (default 0 (d_handle d)) "label" [Int 0] 0)
           (fun _ => tt) (Dataset_setLabel d [Int 0])
      /\ one_call (R := scripted []) "Booster creation" (BoosterCreate 1 "")
           (fun r => {| b_handle := Some (out_i32 r); b_freed := false |})
           (Booster_new 1 "")
      /\ one_call (R := scripted []) "Booster update" (BoosterUpdate (default 0 (b_handle b)))
           (fun r => negb (Z.eqb (out_i32 r) 0)) (Booster_update b)
      /\ one_call (R := scripted []) "Booster getNumClasses"
           (BoosterGetNumClasses (default 0 (b_handle b)))
           out_i32 (Booster_getNumClasses b)
      /\ one_call (R := scripted []) "Booster predict"
           (BoosterPredict (default 0 (b_handle b)) [Int 1] 1 1 0 0 "")
           out_f64 (Booster_predict b [Int 1] 1 1 0 0)
      /\ one_call (R := scripted []) "Booster loadModel" (BoosterLoadModel "tree")
           (fun r => Booster_of_handle (out_i32 r))
           (Booster_loadModel "tree")).
Proof.
  cbv zeta. split; [reflexivity |]. split; [reflexivity |].
  exact (bindings_make_one_call (R := scripted [])
           (Booster_of_handle 1) {| d_handle := Some 1; d_freed := false |}
           [Int 1] [Int 0] 1 1 "" "tree" 1 0 0 eq_refl eq_refl).
Defined.

Lemma saveModel_two_passes_witness :
  let b := Booster_of_handle 1 in
  let w := world0 [] in
  b_freed b = false /\ loaded w = true
  /\ Booster_saveModel (R := scripted []) b w
     = (Ok "tree",
        after_call (after_call w (BoosterSaveModel 1 0 false))
          (BoosterSaveModel 1 5 true)).
Proof.
  cbv zeta. split; [reflexivity |]. split; [reflexivity |].
  exact (saveModel_two_passes (R := scripted []) (Booster_of_handle 1)
           (world0 []) eq_refl eq_refl).
Defined.

Lemma dispose_frees_once_witness :
  let b := Booster_of_handle 2 in
  let d := {| d_handle := Some 1; d_freed := false |} in
  let w := world0 [] in
  let wb := after_call w (BoosterFree (default 0 (b_handle b))) in
  let wd := after_call w (DatasetFree (default 0 (d_handle d))) in
  b_freed b = false /\ d_freed d = false /\ loaded w = true
  /\ (Booster_dispose (b, w) = (Ok tt, (disposed_booster, wb))
      /\ Booster_dispose (disposed_booster, wb)
         = (Ok tt, (disposed_booster, wb))
      /\ Booster_handle disposed_booster wb
         = (Err (HandleDisposed "Booster"), wb)
      /\ Dataset_dispose (d, w) = (Ok tt, (disposed_dataset, wd))
      /\ Dataset_dispose (disposed_dataset, wd)
         = (Ok tt, (disposed_dataset, wd))
      /\ Dataset_handle disposed_dataset wd
         = (Err (HandleDisposed "Dataset"), wd)).
Proof.
  cbv zeta. split; [reflexivity |]. split; [reflexivity |].
  split; [reflexivity |].
  exact (dispose_frees_once (R := scripted []) (Booster_of_handle 2)
           {| d_handle := Some 1; d_freed := false |} (world0 [])
           eq_refl eq_refl eq_refl).
Defined.

Lemma withCString_passes_and_frees_witness :
  let fn := fun _ : positive => native (R := scripted []) GetLastError in
  let w := world0 [] in
  let p := fresh (live w) in
  let w1 := snd (malloc (S (String.length "label")) w) in
  (forall p, balanced (fn p))
  /\ ((p ∉ live w)
      /\ live w1 = {[p]} ∪ live w
      /\ fst (withCString "label" fn w) = fst (fn p w1)
      /\ calls (snd (withCString "label" fn w)) = calls (snd (fn p w1))
      /\ eng (snd (withCString "label" fn w)) = eng (snd (fn p w1))
      /\ live (snd (withCString "label" fn w)) = live w
      /\ stray_frees (snd (withCString "label" fn w)) = stray_frees w).
Proof.
  cbv zeta.
  assert (H : forall p : positive,
            balanced (native (R := scripted []) GetLastError)).
  { intros p w. split; reflexivity. }
  split; [exact H |].
  exact (withCString_passes_and_frees (R := scripted []) "label"
           (fun _ => native GetLastError) (world0 []) H).
Defined.

(** * Runs of the model on the scripted engine *)

Lemma model_dispose_is_final_witness :
  let m := fst binary3_fitted in
  let w := snd binary3_fitted in
  let w' := match booster m with
            | Some b => after_call w (BoosterFree (default 0 (b_handle b)))
            | None => w
            end in
  let m' := {| booster := None; freed := true; params := params m;
               fitted := false; nrClass := nrClass m;
               classes := classes m |} in
  freed m = false /\ loaded w = true
  /\ (forall b, booster m = Some b -> b_freed b = false)
  /\ (dispose (m, w) = (Ok tt, (m', w'))
      /\ dispose (m', w') = (Ok tt, (m', w'))
      /\ isFitted m' = false
      /\ probaDim m' = O
      /\ get_classes m' = get_classes m
      /\ getParams m' = getParams m
      /\ fit X4 y4 (m', w') = (Err DisposedError, (m', w'))).
Proof.
  cbv zeta.
  assert (H : forall b, booster (fst binary3_fitted) = Some b ->
                        b_freed b = false).
  { intros b Hb. vm_compute in Hb. injection Hb as <-. reflexivity. }
  split; [reflexivity |]. split; [reflexivity |]. split; [exact H |].
  exact (model_dispose_is_final (R := scripted []) (fst binary3_fitted)
           (snd binary3_fitted) X4 y4 eq_refl eq_refl H).
Defined.

Lemma fit_call_sequence_witness :
  let m := fst binary3_fitted in
  let w := snd binary3_fitted in
  let s := fit (R := scripted []) X4 y4 (m, w) in
  let m' := fst (snd s) in
  let w' := snd (snd s) in
  let obj := objective_of (params m') in
  let ps := paramStr_of (R := scripted []) (lgbParams_of (params m') obj (nrClass m')) in
  loaded w = true
  /\ (forall b, booster m = Some b -> b_freed b = false)
  /\ fit (R := scripted []) X4 y4 (m, w) = (Ok tt, (m', w'))
  /\ exists xData rows cols yTrain rd rl rb rf ups,
       normalizeX X4 = Ok (xData, rows, cols)
       /\ encode_labels obj y4 = Ok (nrClass m', classes m', yTrain)
       /\ length yTrain = rows
       /\ calls w'
          = training_calls xData rows cols yTrain ps rd rl rb rf ups
            ++ previous_release m w ++ calls w
       /\ length ups = loop_count (ToNumber (R := scripted []) (numRound_of (params m')))
       /\ Forall (update_ok (out_i32 rb)) ups
       /\ failed rd = false /\ failed rl = false /\ failed rb = false
       /\ booster m'
          = Some {| b_handle := Some (out_i32 rb); b_freed := false |}
       /\ fitted m' = true
       /\ live w' = live w /\ stray_frees w' = stray_frees w.
Proof.
  cbv zeta.
  assert (H : forall b, booster (fst binary3_fitted) = Some b ->
                        b_freed b = false).
  { intros b Hb. vm_compute in Hb. injection Hb as <-. reflexivity. }
  split; [reflexivity |]. split; [exact H |].
  split; [vm_compute; reflexivity |].
  exact (fit_call_sequence (R := scripted []) X4 y4 (fst binary3_fitted) _
           (snd binary3_fitted) _ eq_refl H ltac:(vm_compute; reflexivity)).
Defined.

Lemma failed_training_frees_nothing_witness :
  let w := @fresh_world failing 0 in
  let s := fit (R := failing) X4 y4 (binary3, w) in
  let m' := fst (snd s) in
  let w' := snd (snd s) in
  loaded w = true
  /\ (forall b, booster binary3 = Some b -> b_freed b = false)
  /\ fit (R := failing) X4 y4 (binary3, w)
     = (Err (NativeCallFailure "Booster update" "boom"), (m', w'))
  /\ (booster m' = None /\ fitted m' = fitted binary3
      /\ live w' = live w /\ stray_frees w' = stray_frees w
      /\ exists new,
           calls w' = new ++ previous_release binary3 w ++ calls w
           /\ Forall (fun c => no_release (fst c)) new
           /\ ("Booster update" <> "Dataset creation" ->
               exists xData rows cols ps rd,
                 In (DatasetCreateFromMat xData rows cols ps, rd) new
                 /\ failed rd = false)).
Proof.
  cbv zeta.
  assert (H : forall b, booster binary3 = Some b -> b_freed b = false).
  { intros b Hb. discriminate. }
  split; [reflexivity |]. split; [exact H |].
  split; [vm_compute; reflexivity |].
  exact (failed_training_frees_nothing (R := failing) X4 y4 binary3 _
           (@fresh_world failing 0) _ "Booster update" "boom" eq_refl H
           ltac:(vm_compute; reflexivity)).
Defined.


Lemma failed_refit_breaks_model_witness :
  let m := fst binary3_fitted in
  let w := snd binary3_fitted in
  let s := fit (R := scripted []) OtherInput y4 (m, w) in
  let m' := fst (snd s) in
  let w' := snd (snd s) in
  loaded w = true
  /\ (forall b, booster m = Some b -> b_freed b = false)
  /\ freed m = false /\ fitted m = true
  /\ fit (R := scripted []) OtherInput y4 (m, w) = (Err UnsupportedX, (m', w'))
  /\ ~ task_error UnsupportedX
  /\ (isFitted m' = true /\ booster m' = None
      /\ (forall X' d r c, normalizeX X' = Ok (d, r, c) ->
            predict X' (m', w') = (Err NullDereference, (m', w')))
      /\ save (m', w') = (Err NullDereference, (m', w'))).
Proof.
  cbv zeta.
  assert (H : forall b, booster (fst binary3_fitted) = Some b ->
                        b_freed b = false).
  { intros b Hb. vm_compute in Hb. injection Hb as <-. reflexivity. }
  assert (Hn : ~ task_error UnsupportedX).
  { intros [Hc|[t Hc]]; discriminate. }
  split; [reflexivity |]. split; [exact H |].
  split; [reflexivity |]. split; [reflexivity |].
  split; [vm_compute; reflexivity |]. split; [exact Hn |].
  exact (failed_refit_breaks_model (R := scripted []) OtherInput y4
           (fst binary3_fitted) _ (snd binary3_fitted) _ UnsupportedX
           eq_refl H eq_refl eq_refl ltac:(vm_compute; reflexivity) Hn).
Defined.

Lemma setParams_merges_witness :
  let p := [("numRound", VNum (Int 5)); ("max_depth", VNum (Int 4))] in
  let m := fst binary3_fitted in
  NoDup (map fst p)
  /\ (get "numRound" (getParams (setParams p m))
      = match get "numRound" p with
        | Some v => Some v
        | None => get "numRound" (getParams m)
        end
      /\ booster (setParams p m) = booster m
      /\ freed (setParams p m) = freed m
      /\ isFitted (setParams p m) = isFitted m
      /\ nrClass (setParams p m) = nrClass m
      /\ get_classes (setParams p m) = get_classes m).
Proof.
  cbv zeta.
  assert (H : NoDup (map fst [("numRound", VNum (Int 5));
                              ("max_depth", VNum (Int 4))])).
  { apply (bool_decide_unpack _). vm_compute. exact I. }
  split; [exact H |].
  exact (setParams_merges
           [("numRound", VNum (Int 5)); ("max_depth", VNum (Int 4))]
           (fst binary3_fitted) "numRound" H).
Defined.

Lemma predictProba_binary_rows_witness :
  let m := fst binary3_fitted_raw4 in
  let w := snd binary3_fitted_raw4 in
  let b := {| b_handle := Some 2; b_freed := false |} in
  let d := [Int 1; Int 2; Int 3; Int 4; Int 5; Int 6; Int 7; Int 8] in
  let req := BoosterPredict (default 0 (b_handle b)) d 4 2 0 0 "" in
  let r := response_to w req in
  loaded w = true /\ fitted m = true /\ freed m = false
  /\ booster m = Some b /\ b_freed b = false
  /\ objective_of (params m) = VStr "binary"
  /\ normalizeX X4 = Ok (d, 4%nat, 2%nat)
  /\ failed r = false
  /\ exists probs,
       predictProba (R := scripted raw4) X4 (m, w)
       = (Ok probs, (m, after_call w req))
       /\ probaDim m = 2%nat
       /\ length probs = (4 * probaDim m)%nat
       /\ forall i, (i < 4)%nat ->
            nth (i * 2) probs NaN = one_minus (at_index (out_f64 r) i)
            /\ nth (i * 2 + 1) probs NaN = at_index (out_f64 r) i.
Proof.
  cbv zeta.
  split; [reflexivity |]. split; [reflexivity |]. split; [reflexivity |].
  split; [vm_compute; reflexivity |]. split; [reflexivity |].
  split; [reflexivity |]. split; [reflexivity |]. split; [reflexivity |].
  exact (predictProba_binary_rows (R := scripted raw4) X4
           (fst binary3_fitted_raw4) (snd binary3_fitted_raw4)
           {| b_handle := Some 2; b_freed := false |}
           [Int 1; Int 2; Int 3; Int 4; Int 5; Int 6; Int 7; Int 8] 4 2
           eq_refl eq_refl eq_refl ltac:(vm_compute; reflexivity) eq_refl
           eq_refl eq_refl eq_refl).
Defined.

Lemma fromBundle_restores_witness :
  let mf := {| mf_params := Some [("objective", VStr "binary")];
               mf_metadata := None |} in
  let w := world0 [] in
  let raw := substring (te_offset model_entry) (te_length model_entry)
               blob_region in
  let req := BoosterLoadModel raw in
  let r := response_to w req in
  loaded w = true
  /\ Forall (fun e => te_id e <> "model") [notes_entry]
  /\ te_id model_entry = "model"
  /\ (fromBundle mf [notes_entry] blob_region w
      = (Err MissingModelArtifact, w)
      /\ fromBundle mf ([notes_entry] ++ model_entry :: []) blob_region w
         = if failed r
           then (Err (NativeCallFailure "Booster loadModel"
                        (out_text (response_to (after_call w req)
                                     GetLastError))),
                 after_call (after_call w req) GetLastError)
           else (Ok {| booster := Some (Booster_of_handle (out_i32 r));
                       freed := false;
                       params := default [] (mf_params mf);
                       fitted := true;
                       nrClass := default O (mf_metadata mf ≫= md_nrClass);
                       classes := option_map (map ToInt32)
                                    (mf_metadata mf ≫= md_classes) |},
                 after_call w req)).
Proof.
  cbv zeta.
  assert (H : Forall (fun e => te_id e <> "model") [notes_entry]).
  { constructor; [simpl; discriminate | constructor]. }
  split; [reflexivity |]. split; [exact H |]. split; [reflexivity |].
  exact (fromBundle_restores (R := scripted [])
           {| mf_params := Some [("objective", VStr "binary")];
              mf_metadata := None |}
           [notes_entry] [] model_entry blob_region (world0 [])
           eq_refl H eq_refl).
Defined.

Lemma save_then_load_witness :
  let m := fst binary3_fitted in
  let w := snd binary3_fitted in
  let s1 := snd (save (R := scripted []) (m, w)) in
  let bnd := binary3_bundle in
  let mf := binary3_manifest in
  let w2 := world0 [] in
  save (R := scripted []) (m, w) = (Ok bnd, s1)
  /\ blobs bnd = [("model", "tree")]
  /\ mf_params mf = Some (manifest_params bnd)
  /\ mf_metadata mf
     = Some {| md_nrClass := Some (meta_nrClass bnd);
               md_classes := Some (map Int (meta_classes bnd)) |}
  /\ Forall (fun e => te_id e <> "model") [notes_entry]
  /\ te_id model_entry = "model"
  /\ substring (te_offset model_entry) (te_length model_entry) blob_region
     = "tree"
  /\ forallb (fun z => fits_int32 (Int z)) (get_classes m) = true
  /\ loaded w2 = true
  /\ failed (response_to w2 (BoosterLoadModel "tree")) = false
  /\ ((exists b, booster m = Some b
                 /\ Booster_saveModel b w = (Ok "tree", snd s1))
      /\ exists m2,
           fromBundle mf ([notes_entry] ++ model_entry :: []) blob_region w2
           = (Ok m2, after_call w2 (BoosterLoadModel "tree"))
           /\ getParams m2 = getParams m
           /\ nrClass m2 = nrClass m
           /\ get_classes m2 = get_classes m
           /\ isFitted m2 = true
           /\ capabilities m2 = capabilities m
           /\ probaDim m2 = probaDim m).
Proof.
  cbv zeta.
  assert (H : Forall (fun e => te_id e <> "model") [notes_entry]).
  { constructor; [simpl; discriminate | constructor]. }
  assert (Hs : save (R := scripted []) (fst binary3_fitted, snd binary3_fitted)
               = (Ok binary3_bundle,
                  snd (save (R := scripted [])
                         (fst binary3_fitted, snd binary3_fitted)))).
  { vm_compute. reflexivity. }
  assert (Hc : forallb (fun z => fits_int32 (Int z))
                 (get_classes (fst binary3_fitted)) = true).
  { vm_compute. reflexivity. }
  split; [exact Hs |]. split; [reflexivity |].
  split; [reflexivity |]. split; [reflexivity |]. split; [exact H |].
  split; [reflexivity |]. split; [reflexivity |].
  split; [exact Hc |]. split; [reflexivity |].
  split; [reflexivity |].
  exact (save_then_load (R := scripted []) (fst binary3_fitted)
           (snd binary3_fitted) (world0 [])
           (snd (save (R := scripted [])
                   (fst binary3_fitted, snd binary3_fitted)))
           binary3_bundle "tree" binary3_manifest
           [notes_entry] [] model_entry blob_region
           Hs eq_refl eq_refl eq_refl H eq_refl eq_refl Hc eq_refl eq_refl).
Defined.

Lemma calls_keep_model_sound_witness :
  let s := (binary3, world0 []) in
  sound (R := scripted []) s
  /\ (sound (snd (run_calls session s))
      /\ live (snd (snd (run_calls session s))) = live (snd s)
      /\ stray_frees (snd (snd (run_calls session s))) = stray_frees (snd s)
      /\ length (fst (run_calls session s)) = length session
      /\ Forall (fun o => forall e, o = Some e -> ~ handle_misuse e)
           (fst (run_calls session s))).
Proof.
  cbv zeta.
  assert (H : sound (R := scripted []) (binary3, world0 [])).
  { split; [reflexivity |]. intros b Hb. discriminate. }
  split; [exact H |].
  exact (calls_keep_model_sound (R := scripted []) session
           (binary3, world0 []) H).
Defined.

Lemma getters_agree_with_methods_witness :
  let m := fst binary3_fitted in
  let w := snd binary3_fitted in
  let caps := capabilities m in
  let obj := objective_of (params m) in
  freed m = false /\ fitted m = true
  /\ (isFitted m = true
      /\ (cap_predictProba caps = false ->
          predictProba (R := scripted []) X4 (m, w)
          = (Err (ObjectiveMismatch obj), (m, w)))
      /\ (cap_predictProba caps = true ->
          forall o, fst (predictProba (R := scripted []) X4 (m, w))
                    <> Err (ObjectiveMismatch o))
      /\ regressor caps = negb (classifier caps)
      /\ classifier caps = isClassifier m
      /\ (cap_predictProba caps = true -> classifier caps = true)
      /\ (obj = VStr "cross_entropy" ->
          classifier caps = true /\ cap_predictProba caps = false)
      /\ (cap_predictProba caps = false -> probaDim m = O)
      /\ (obj = VStr "binary" -> probaDim m = 2%nat)
      /\ (obj = VStr "multiclass" \/ obj = VStr "multiclassova" ->
          probaDim m = nrClass m)).
Proof.
  cbv zeta. split; [reflexivity |]. split; [reflexivity |].
  exact (getters_agree_with_methods (R := scripted []) (fst binary3_fitted)
           (snd binary3_fitted) X4 eq_refl eq_refl).
Defined.

Lemma score_of_classifier_witness :
  let m := fst binary3_fitted_raw4 in
  let w := snd binary3_fitted_raw4 in
  let preds := [Int 7; Int 3; Int 3; Int 7] in
  let s' := snd (predict (R := scripted raw4) X4 (m, w)) in
  isClassifier m = true
  /\ predict (R := scripted raw4) X4 (m, w) = (Ok preds, s')
  /\ exists sc,
       score X4 y4 (m, w) = (Ok sc, s')
       /\ (preds = [] -> sc = NaN)
       /\ (preds <> [] ->
           (forall i, (i < length preds)%nat ->
              strict_eq (at_index preds i) (at_index y4 i) = true) ->
           sc = Int 1)
       /\ (preds <> [] ->
           (forall i, (i < length preds)%nat ->
              strict_eq (at_index preds i) (at_index y4 i) = false) ->
           sc = Int 0)
       /\ (forall y', firstn (length preds) y' = firstn (length preds) y4 ->
             score X4 y' (m, w) = (Ok sc, s')).
Proof.
  cbv zeta.
  assert (Hp : predict (R := scripted raw4) X4
                 (fst binary3_fitted_raw4, snd binary3_fitted_raw4)
               = (Ok [Int 7; Int 3; Int 3; Int 7],
                  snd (predict (R := scripted raw4) X4
                         (fst binary3_fitted_raw4, snd binary3_fitted_raw4)))).
  { vm_compute. reflexivity. }
  split; [reflexivity |]. split; [exact Hp |].
  exact (score_of_classifier (R := scripted raw4) X4 y4
           (fst binary3_fitted_raw4) (snd binary3_fitted_raw4)
           [Int 7; Int 3; Int 3; Int 7] _ eq_refl Hp).
Defined.

